(** * MinMax: Tic-Tac-Toe, Connect 4 and the sticks game, with their search engine

    A shallow embedding of [include/Game.h], [src/SticksGame.cpp],
    [src/TicTacToe.cpp], [src/Connect4.cpp] and of [minMax], [getBestMove]
    and the match loop of [main] from [main.cpp], followed by the properties
    of the specification and by further properties of the code.

    Conventions of the embedding.
    - A C++ [int] is a [Z].  The only arithmetic of the program that can leave
      the 32-bit range is [remainingSticks -= numSticks] and
      [remainingSticks += numSticks] on an arbitrary argument; there the
      two's-complement wrap-around of the compiled program is written out
      ([wrap]), as it is for the [x - 1] of [askInput].  Every other sum,
      product, quotient or comparison stays far inside the range ([depth] is
      below 999999 when [depth + 1] is formed).
    - An [int board[H][W]] is a [list (list Z)], read with [cell] and updated
      with stdpp's list insert.
    - A game object is mutated in place by the program; the engine is
      therefore written in a small state monad over the game state.  The
      recursion of [minMax] is bounded by fuel; running out of fuel is the
      [None] of the monad, and the theorems give the fuel that suffices.
    - What is read from the standard input is a list of integers (every read
      succeeds); what a [display()] writes to the standard output is a
      string. *)

From Stdlib Require Import ZArith Lia List Bool.
From Stdlib Require String Ascii DecimalString.
From stdpp Require Import base list.
Import ListNotations.
Import String.StringSyntax Ascii.AsciiSyntax.
Delimit Scope string_scope with string.
Delimit Scope char_scope with char.
Local Open Scope Z_scope.

(** ** Integers *)

Definition INT_MIN : Z := -2147483648.
Definition INT_MAX : Z := 2147483647.

(** Two's-complement normalisation of a 32-bit [int]. *)
Definition wrap (z : Z) : Z := (z + 2147483648) mod 4294967296 - 2147483648.

(** [for (int i = 0; i < n; ++i)]: the values taken by [i]. *)
Definition range (n : Z) : list Z := map Z.of_nat (seq 0 (Z.to_nat n)).

(** A loop whose body may [return]: the first iteration that returns decides. *)
Fixpoint firstReturn {A B : Type} (body : A -> option B) (l : list A) : option B :=
  match l with
  | [] => None
  | x :: l' => match body x with
               | Some r => Some r
               | None => firstReturn body l'
               end
  end.

(** ** Game.h: the side markers *)

Definition AI : Z := -1.
Definition PLAYER : Z := 1.
Definition EMPTY : Z := 0.

(** [(currentPlayer == PLAYER) ? AI : PLAYER], the turn switch of every variant. *)
Definition switchPlayer (currentPlayer : Z) : Z :=
  if currentPlayer =? PLAYER then AI else PLAYER.

(** ** Two-dimensional boards

    [cell board i j] is the read [board[i][j]] and [setCell board i j v] the
    write [board[i][j] = v].  Indexing outside the array is undefined in the
    source; every read of the source whose index is not known to be in range
    sits behind a range test, which the embedding keeps, with one exception:
    the column argument of [Connect4::makeMove] and [Connect4::undoMove],
    which their callers take from [getAvailableMoves] or [checkInput].  The
    theorems about these two functions assume the column in range. *)

Definition cell (board : list (list Z)) (i j : Z) : Z :=
  nth (Z.to_nat j) (nth (Z.to_nat i) board []) 0.

Definition setCell (board : list (list Z)) (i j v : Z) : list (list Z) :=
  alter (fun row => <[Z.to_nat j := v]> row) (Z.to_nat i) board.

Definition marker (x : Z) : Prop := x = EMPTY \/ x = PLAYER \/ x = AI.

(** An [int [h][w]] array holding markers only. *)
Definition grid (h w : nat) (board : list (list Z)) : Prop :=
  length board = h
  /\ Forall (fun row => length row = w /\ Forall marker row) board.

(** The number of empty cells of a board. *)
Definition emptyCells (board : list (list Z)) : nat :=
  length (List.filter (fun x => x =? EMPTY) (concat board)).

(** ** Text written to the standard output

    What a [display()] writes to [std::cout] is the string it returns here. *)

Definition newline : String.string := String.String "010"%char String.EmptyString.

(** [std::cout << n] for an [int]: its decimal numeral. *)
Definition showInt (n : Z) : String.string :=
  DecimalString.NilZero.string_of_int (Z.to_int n).

(** A loop that writes [show x] for each [x] in turn. *)
Definition printEach {A : Type} (show : A -> String.string) (l : list A) : String.string :=
  fold_right (fun x out => String.append (show x) out) String.EmptyString l.

(** The two nested loops over the rows and the cells of a board, shared by
    [TicTacToe::display] and [Connect4::display]. *)
Definition showCell (c : Z) : String.string :=
  (if c =? PLAYER then "X " else if c =? AI then "O " else ". ")%string.

Definition showRow (row : list Z) : String.string :=
  String.append (printEach showCell row) newline.

Definition showRows (board : list (list Z)) : String.string :=
  printEach showRow board.

(** ** Game.h: the interface *)

Module Game.
(** The virtual methods of [class Game] that the engine and the session
    loop use, as functions of the object's state.  [isConnect4] is the
    outcome of [dynamic_cast<Connect4*>(&game)]. *)
Class Interface (St : Type) := {
  getCurrentPlayer : St -> Z;
  isTerminal : St -> bool;
  getAvailableMoves : St -> list Z;
  makeMove : St -> Z -> St;
  undoMove : St -> Z -> St;
  evaluate : St -> Z;
  getWinner : St -> Z;
  checkInput : St -> Z -> bool;
  isConnect4 : bool
}.
End Game.

(** ** SticksGame.h / SticksGame.cpp *)

Module SticksGame.

Definition STICKS_NUMBER : Z := 21.

Record State := mkState { currentPlayer : Z; remainingSticks : Z }.

Definition init (userIsStarting : bool) : State :=
  {| currentPlayer := if userIsStarting then PLAYER else AI;
     remainingSticks := STICKS_NUMBER |}.

Definition getCurrentPlayer (s : State) : Z := currentPlayer s.

Definition isTerminal (s : State) : bool := remainingSticks s <=? 0.

(** [for (numSticks = 1; numSticks <= 3 && numSticks <= remainingSticks; ++numSticks)];
    [n] bounds the number of tests of the loop condition (four are enough). *)
Fixpoint movesLoop (n : nat) (numSticks remaining : Z) : list Z :=
  match n with
  | O => []
  | S n' =>
      if (numSticks <=? 3) && (numSticks <=? remaining)
      then numSticks :: movesLoop n' (numSticks + 1) remaining
      else []
  end.

Definition getAvailableMoves (s : State) : list Z :=
  movesLoop 4 1 (remainingSticks s).

Definition makeMove (s : State) (numSticks : Z) : State :=
  {| remainingSticks := wrap (remainingSticks s - numSticks);
     currentPlayer := switchPlayer (currentPlayer s) |}.

Definition undoMove (s : State) (numSticks : Z) : State :=
  {| remainingSticks := wrap (remainingSticks s + numSticks);
     currentPlayer := switchPlayer (currentPlayer s) |}.

Definition evaluate (s : State) : Z :=
  if remainingSticks s =? 0
  then (if currentPlayer s =? PLAYER then -10 else 10)
  else 0.

Definition getWinner (s : State) : Z :=
  if remainingSticks s =? 0
  then (if currentPlayer s =? PLAYER then PLAYER else AI)
  else 0.

Definition checkInput (s : State) (input : Z) : bool :=
  (input >=? 1) && (input <=? 3) && (input <=? remainingSticks s).

(** [askInput]: the prompt is printed, an integer is read from the standard
    input ([typed], a read that succeeds) and [x] is returned. *)
Definition askInput (typed : Z) : Z := typed.

Definition display (s : State) : String.string :=
  String.append "Remaining sticks: "
    (String.append (showInt (remainingSticks s))
       (String.append newline
          (String.append (printEach (fun _ => "| "%string) (range (remainingSticks s)))
             (String.append newline newline)))).

#[export] Instance game : Game.Interface State := {|
  Game.getCurrentPlayer := getCurrentPlayer;
  Game.isTerminal := isTerminal;
  Game.getAvailableMoves := getAvailableMoves;
  Game.makeMove := makeMove;
  Game.undoMove := undoMove;
  Game.evaluate := evaluate;
  Game.getWinner := getWinner;
  Game.checkInput := checkInput;
  Game.isConnect4 := false
|}.

(** The states of a match: a fresh game, then legal moves only. *)
Inductive reachable : State -> Prop :=
| reach_init (userIsStarting : bool) : reachable (init userIsStarting)
| reach_move (s : State) (m : Z) :
    reachable s -> In m (getAvailableMoves s) -> reachable (makeMove s m).

(** What every reachable state satisfies. *)
Definition wf (s : State) : Prop :=
  (currentPlayer s = PLAYER \/ currentPlayer s = AI)
  /\ 0 <= remainingSticks s <= STICKS_NUMBER.

End SticksGame.

(** ** TicTacToe.h / TicTacToe.cpp *)

Module TicTacToe.

Definition BOARD_SIZE : Z := 3.

Record State := mkState { board : list (list Z); currentPlayer : Z }.

Definition init (userIsStarting : bool) : State :=
  {| board := replicate 3 (replicate 3 EMPTY);
     currentPlayer := if userIsStarting then PLAYER else AI |}.

Definition getCurrentPlayer (s : State) : Z := currentPlayer s.

(** The two nested loops append the index of every empty cell. *)
Definition getAvailableMoves (s : State) : list Z :=
  flat_map (fun i =>
    flat_map (fun j =>
      if cell (board s) i j =? EMPTY then [i * BOARD_SIZE + j] else [])
      (range BOARD_SIZE))
    (range BOARD_SIZE).

(** [/] and [%] of C++ truncate towards zero: [Z.quot] and [Z.rem]. *)
Definition makeMove (s : State) (cellIndex : Z) : State :=
  if (cellIndex >=? 0) && (cellIndex <? BOARD_SIZE * BOARD_SIZE)
     && (cell (board s) (cellIndex ÷ BOARD_SIZE) (Z.rem cellIndex BOARD_SIZE) =? EMPTY)
  then {| board := setCell (board s) (cellIndex ÷ BOARD_SIZE)
                     (Z.rem cellIndex BOARD_SIZE) (currentPlayer s);
          currentPlayer := switchPlayer (currentPlayer s) |}
  else s.

Definition undoMove (s : State) (cellIndex : Z) : State :=
  if (cellIndex >=? 0) && (cellIndex <? BOARD_SIZE * BOARD_SIZE)
     && negb (cell (board s) (cellIndex ÷ BOARD_SIZE) (Z.rem cellIndex BOARD_SIZE) =? EMPTY)
  then {| board := setCell (board s) (cellIndex ÷ BOARD_SIZE)
                     (Z.rem cellIndex BOARD_SIZE) EMPTY;
          currentPlayer := switchPlayer (currentPlayer s) |}
  else s.

(** [x != EMPTY && x == y && y == z] *)
Definition three (x y z : Z) : bool :=
  negb (x =? EMPTY) && (x =? y) && (y =? z).

Definition getWinner (s : State) : Z :=
  let b := board s in
  match firstReturn (fun i =>
          if three (cell b i 0) (cell b i 1) (cell b i 2)
          then Some (cell b i 0) else None) (range BOARD_SIZE) with
  | Some w => w
  | None =>
  match firstReturn (fun j =>
          if three (cell b 0 j) (cell b 1 j) (cell b 2 j)
          then Some (cell b 0 j) else None) (range BOARD_SIZE) with
  | Some w => w
  | None =>
      if three (cell b 0 0) (cell b 1 1) (cell b 2 2) then cell b 0 0
      else if three (cell b 0 2) (cell b 1 1) (cell b 2 0) then cell b 0 2
      else 0
  end
  end.

Definition isTerminal (s : State) : bool :=
  negb (getWinner s =? 0) || bool_decide (getAvailableMoves s = []).

Definition evaluate (s : State) : Z :=
  let winner := getWinner s in
  if winner =? AI then 10
  else if winner =? PLAYER then -10
  else 0.

Definition checkInput (s : State) (input : Z) : bool :=
  (input >=? 0) && (input <? BOARD_SIZE * BOARD_SIZE)
  && (cell (board s) (input ÷ BOARD_SIZE) (Z.rem input BOARD_SIZE) =? EMPTY).

(** [askInput]: the prompt is printed, an integer is read from the standard
    input ([typed], a read that succeeds) and [x - 1] is returned. *)
Definition askInput (typed : Z) : Z := wrap (typed - 1).

Definition display (s : State) : String.string :=
  String.append (showRows (board s)) newline.

#[export] Instance game : Game.Interface State := {|
  Game.getCurrentPlayer := getCurrentPlayer;
  Game.isTerminal := isTerminal;
  Game.getAvailableMoves := getAvailableMoves;
  Game.makeMove := makeMove;
  Game.undoMove := undoMove;
  Game.evaluate := evaluate;
  Game.getWinner := getWinner;
  Game.checkInput := checkInput;
  Game.isConnect4 := false
|}.

Inductive reachable : State -> Prop :=
| reach_init (userIsStarting : bool) : reachable (init userIsStarting)
| reach_move (s : State) (m : Z) :
    reachable s -> In m (getAvailableMoves s) -> reachable (makeMove s m).

(** What every reachable state satisfies: a 3 x 3 board of markers and a
    side to move. *)
Definition wf (s : State) : Prop :=
  grid 3 3 (board s)
  /\ (currentPlayer s = PLAYER \/ currentPlayer s = AI).

(** The eight lines of the grid, in the order [getWinner] tests them. *)
Definition lines : list ((Z * Z) * (Z * Z) * (Z * Z)) :=
  [ ((0,0),(0,1),(0,2)); ((1,0),(1,1),(1,2)); ((2,0),(2,1),(2,2));
    ((0,0),(1,0),(2,0)); ((0,1),(1,1),(2,1)); ((0,2),(1,2),(2,2));
    ((0,0),(1,1),(2,2)); ((0,2),(1,1),(2,0)) ].

(** Three equal non-empty markers on a line. *)
Definition wins (b : list (list Z)) (l : (Z * Z) * (Z * Z) * (Z * Z)) (w : Z) : Prop :=
  let '(p, q, r) := l in
  w <> EMPTY /\ cell b p.1 p.2 = w /\ cell b q.1 q.2 = w /\ cell b r.1 r.2 = w.

Definition full (b : list (list Z)) : Prop :=
  forall i j, 0 <= i < 3 -> 0 <= j < 3 -> cell b i j <> EMPTY.

Definition lineThree (b : list (list Z)) (l : (Z * Z) * (Z * Z) * (Z * Z)) : bool :=
  let '(p, q, r) := l in
  three (cell b p.1 p.2) (cell b q.1 q.2) (cell b r.1 r.2).

(** The winner as the specification words it: the marker of the first line
    of [lines] that holds three equal non-empty markers, 0 without one. *)
Definition lineWinner (b : list (list Z)) : Z :=
  match List.find (lineThree b) lines with
  | Some (p, _, _) => cell b p.1 p.2
  | None => 0
  end.

End TicTacToe.

(** ** Connect4.h / Connect4.cpp *)

Module Connect4.

Definition BOARD_LENGTH : Z := 7.
Definition BOARD_HEIGHT : Z := 6.

Record State := mkState { board : list (list Z); currentPlayer : Z }.

(** [board()] value-initialises the array: every cell is 0. *)
Definition init (userIsStarting : bool) : State :=
  {| board := replicate 6 (replicate 7 0);
     currentPlayer := if userIsStarting then PLAYER else AI |}.

Definition getCurrentPlayer (s : State) : Z := currentPlayer s.

Definition getAvailableMoves (s : State) : list Z :=
  flat_map (fun col => if cell (board s) 0 col =? EMPTY then [col] else [])
           (range BOARD_LENGTH).

(** [for (row = BOARD_HEIGHT - 1; row >= 0; --row)] with its [break]: the
    row of the first empty cell met from the bottom, if any. *)
Definition dropRow (b : list (list Z)) (col : Z) : option Z :=
  firstReturn (fun row => if cell b row col =? EMPTY then Some row else None)
              (rev (range BOARD_HEIGHT)).

Definition makeMove (s : State) (col : Z) : State :=
  match dropRow (board s) col with
  | Some row => {| board := setCell (board s) row col (currentPlayer s);
                   currentPlayer := switchPlayer (currentPlayer s) |}
  | None => s
  end.

(** [for (auto & row : board)] with its [break]: the first row from the top
    whose cell in the column is occupied, if any. *)
Definition topRow (b : list (list Z)) (col : Z) : option Z :=
  firstReturn (fun row => if negb (cell b row col =? EMPTY) then Some row else None)
              (range BOARD_HEIGHT).

Definition undoMove (s : State) (col : Z) : State :=
  match topRow (board s) col with
  | Some row => {| board := setCell (board s) row col EMPTY;
                   currentPlayer := switchPlayer (currentPlayer s) |}
  | None => s
  end.

Definition directions : list (Z * Z) := [(0, 1); (1, 0); (1, 1); (-1, 1)].

(** [for (int k = 1; k < 4; ++k)] over the values [ks] of [k] still to come:
    [count] grows while the next cell is on the board and equal to the
    first one, and the loop breaks at the first cell that is not. *)
Fixpoint countLoop (b : list (list Z)) (row col dr dc : Z) (ks : list Z) (count : Z) : Z :=
  match ks with
  | [] => count
  | k :: ks' =>
      let nr := row + k * dr in
      let nc := col + k * dc in
      if (nr >=? 0) && (nr <? BOARD_HEIGHT) && (nc >=? 0) && (nc <? BOARD_LENGTH)
         && (cell b nr nc =? cell b row col)
      then countLoop b row col dr dc ks' (count + 1)
      else count
  end.

Definition getWinner (s : State) : Z :=
  let b := board s in
  match
    firstReturn (fun row =>
      firstReturn (fun col =>
        if cell b row col =? 0 then None
        else firstReturn (fun dir : Z * Z =>
               if countLoop b row col dir.1 dir.2 [1; 2; 3] 1 =? 4
               then Some (cell b row col) else None) directions)
        (range BOARD_LENGTH))
      (range BOARD_HEIGHT)
  with
  | Some w => w
  | None => 0
  end.

Definition isTerminal (s : State) : bool :=
  negb (getWinner s =? 0) || bool_decide (getAvailableMoves s = []).

Definition evaluate (s : State) : Z :=
  let winner := getWinner s in
  if winner =? AI then 10
  else if winner =? PLAYER then -10
  else 0.

Definition checkInput (s : State) (col : Z) : bool :=
  (col >=? 0) && (col <? BOARD_LENGTH) && (cell (board s) 0 col =? EMPTY).

(** [askInput]: the prompt is printed, an integer is read from the standard
    input ([typed], a read that succeeds) and [col - 1] is returned. *)
Definition askInput (typed : Z) : Z := wrap (typed - 1).

Definition display (s : State) : String.string :=
  String.append (showRows (board s))
    (String.append newline
       (String.append
          (printEach (fun i => String.append (showInt (i + 1)) " ") (range BOARD_LENGTH))
          newline)).

#[export] Instance game : Game.Interface State := {|
  Game.getCurrentPlayer := getCurrentPlayer;
  Game.isTerminal := isTerminal;
  Game.getAvailableMoves := getAvailableMoves;
  Game.makeMove := makeMove;
  Game.undoMove := undoMove;
  Game.evaluate := evaluate;
  Game.getWinner := getWinner;
  Game.checkInput := checkInput;
  Game.isConnect4 := true
|}.

Inductive reachable : State -> Prop :=
| reach_init (userIsStarting : bool) : reachable (init userIsStarting)
| reach_move (s : State) (m : Z) :
    reachable s -> In m (getAvailableMoves s) -> reachable (makeMove s m).

(** Gravity: a marker never sits above an empty cell. *)
Definition gravity (b : list (list Z)) : Prop :=
  forall row col,
    0 <= row -> row + 1 < BOARD_HEIGHT -> 0 <= col < BOARD_LENGTH ->
    cell b row col <> EMPTY -> cell b (row + 1) col <> EMPTY.

(** What every reachable state satisfies: a 6 x 7 board of markers under
    gravity, and a side to move. *)
Definition wf (s : State) : Prop :=
  grid 6 7 (board s)
  /\ gravity (board s)
  /\ (currentPlayer s = PLAYER \/ currentPlayer s = AI).

(** [n] successive calls of [makeMove(col)]. *)
Fixpoint dropMany (s : State) (col : Z) (n : nat) : State :=
  match n with
  | O => s
  | S n' => makeMove (dropMany s col n') col
  end.

(** Column [col] holds [k] markers, stacked from the bottom row up. *)
Definition columnHeight (b : list (list Z)) (col k : Z) : Prop :=
  (forall r, 0 <= r < BOARD_HEIGHT - k -> cell b r col = EMPTY)
  /\ (forall r, BOARD_HEIGHT - k <= r < BOARD_HEIGHT -> cell b r col <> EMPTY).

(** Four cells starting at [(row, col)] in direction [dir], all on the board
    and all holding the non-empty marker of the first one. *)
Definition run4 (b : list (list Z)) (row col : Z) (dir : Z * Z) : bool :=
  negb (cell b row col =? 0)
  && forallb (fun k =>
       let nr := row + k * dir.1 in
       let nc := col + k * dir.2 in
       (0 <=? nr) && (nr <? BOARD_HEIGHT) && (0 <=? nc) && (nc <? BOARD_LENGTH)
       && (cell b nr nc =? cell b row col)) [1; 2; 3].

(** The scan order of [getWinner]: cells in row-major order and, at each
    cell, the directions right, down, down-right, up-right. *)
Definition scanOrder : list (Z * Z * (Z * Z)) :=
  flat_map (fun row =>
    flat_map (fun col => map (fun dir => (row, col, dir)) directions)
             (range BOARD_LENGTH))
    (range BOARD_HEIGHT).

(** The winner as the specification words it: the marker at the start of
    the first run of four in scan order, 0 when there is none. *)
Definition firstRunWinner (b : list (list Z)) : Z :=
  match List.find (fun p : Z * Z * (Z * Z) => run4 b p.1.1 p.1.2 p.2) scanOrder with
  | Some p => cell b p.1.1 p.1.2
  | None => 0
  end.

End Connect4.

(** ** main.cpp: the search engine

    The engine works on one game object that it mutates and restores.  A
    computation is a function of the state of that object; it returns a value
    and the state it leaves behind, or [None] when the fuel of [minMax] is
    exhausted.  [isTerminal], [evaluate] and [getAvailableMoves] are [const]:
    the order in which [minMax] reads them does not matter, and the moves of
    a range-[for] are those of the state in which the loop starts. *)

Section Engine.
Context {St : Type} {G : Game.Interface St}.

Definition M (A : Type) : Type := St -> option (A * St).

Definition ret {A} (a : A) : M A := fun s => Some (a, s).

Definition bind {A B} (c : M A) (k : A -> M B) : M B :=
  fun s => match c s with
           | Some (a, s') => k a s'
           | None => None
           end.

Notation "'do' x <- c ; k" := (bind c (fun x => k))
  (at level 10, x name, c at level 100, k at level 200, only parsing).

(** A call of a [const] method. *)
Definition query {A} (f : St -> A) : M A := fun s => Some (f s, s).

(** A call of a mutating method. *)
Definition call (f : St -> St) : M unit := fun s => Some (tt, f s).

Definition outOfFuel {A} : M A := fun _ => None.

(** A range-[for] over a vector computed before the loop, updating [acc]. *)
Fixpoint forEach {A B} (l : list A) (body : B -> A -> M B) (acc : B) : M B :=
  match l with
  | [] => ret acc
  | x :: l' => bind (body acc x) (forEach l' body)
  end.

Definition maxDepth : Z := if Game.isConnect4 then 6 else 999999.

Fixpoint minMax (fuel : nat) (depth : Z) (isMaximizing : bool) : M Z :=
  match fuel with
  | O => outOfFuel
  | S fuel' =>
      do terminal <- query Game.isTerminal;
      if (depth >=? maxDepth) || terminal
      then query Game.evaluate
      else
        do moves <- query Game.getAvailableMoves;
        forEach moves (fun bestScore move =>
          do _ <- call (fun game => Game.makeMove game move);
          do score <- minMax fuel' (depth + 1) (negb isMaximizing);
          do _ <- call (fun game => Game.undoMove game move);
          ret (if isMaximizing then Z.max bestScore score
               else Z.min bestScore score))
          (if isMaximizing then INT_MIN else INT_MAX)
  end.

(** The loop of [getBestMove] keeps the pair [(bestScore, bestMove)]. *)
Definition getBestMove (fuel : nat) : M Z :=
  do moves <- query Game.getAvailableMoves;
  do best <- forEach moves (fun best move =>
               do _ <- call (fun game => Game.makeMove game move);
               do score <- minMax fuel 0 false;
               do _ <- call (fun game => Game.undoMove game move);
               ret (if score >? fst best then (score, move) else best))
               (INT_MIN, -1);
  ret (snd best).

(** *** Notions used to state the properties of the engine *)

(** The test that makes [minMax] return the evaluation at once. *)
Definition cutoff (s : St) (depth : Z) : bool :=
  (depth >=? maxDepth) || Game.isTerminal s.

Definition seed (isMaximizing : bool) : Z :=
  if isMaximizing then INT_MIN else INT_MAX.

Definition better (isMaximizing : bool) (bestScore score : Z) : Z :=
  if isMaximizing then Z.max bestScore score else Z.min bestScore score.

(** The body of the loop of [minMax], for the proofs about the loop. *)
Definition minMaxBody (fuel : nat) (depth : Z) (isMaximizing : bool)
  (bestScore move : Z) : M Z :=
  do _ <- call (fun game => Game.makeMove game move);
  do score <- minMax fuel (depth + 1) (negb isMaximizing);
  do _ <- call (fun game => Game.undoMove game move);
  ret (better isMaximizing bestScore score).

(** [child fuel depth isMaximizing s m v]: the recursive call made for move
    [m] from state [s] returns [v] and leaves the game as it found it. *)
Definition child (fuel : nat) (depth : Z) (isMaximizing : bool) (s : St) (m v : Z) : Prop :=
  minMax fuel (depth + 1) (negb isMaximizing) (Game.makeMove s m)
  = Some (v, Game.makeMove s m).

(** One call of [minMax] with enough fuel, as the specification describes
    it: at the cutoff the evaluation, the game untouched; otherwise one score
    per move of [getAvailableMoves], in order, each from a search that leaves
    the game as the move made it, the scores folded from the seed, which the
    first score replaces, and the game as it was found. *)
Definition minMax_step_spec (fuel : nat) (s : St) (depth : Z) (b : bool) : Prop :=
  (cutoff s depth = true ->
     minMax (S fuel) depth b s = Some (Game.evaluate s, s))
  /\ (cutoff s depth = false ->
      exists v scores,
        Forall2 (child fuel depth b s) (Game.getAvailableMoves s) (v :: scores)
        /\ minMax (S fuel) depth b s
           = Some (fold_left (better b) (v :: scores) (seed b), s)
        /\ fold_left (better b) (v :: scores) (seed b)
           = fold_left (better b) scores v).

(** The score [getBestMove] gives to a root move: the value of the search
    it runs after playing the move (0 stands for a search that ran out of
    fuel; the first part of [getBestMove_spec] rules that out). *)
Definition rootScore (fuel : nat) (s : St) (m : Z) : Z :=
  match minMax fuel 0 false (Game.makeMove s m) with
  | Some (v, _) => v
  | None => 0
  end.

Definition keep (score : Z -> Z) (best : Z * Z) (move : Z) : Z * Z :=
  if score move >? fst best then (score move, move) else best.

(** What [getBestMove] returns in a state with a legal move: the game as it
    was found and a move [best] of [getAvailableMoves], every move before it
    scoring strictly less and every move after it no more. *)
Definition getBestMove_spec (fuel : nat) (s : St) : Prop :=
  (forall m, In m (Game.getAvailableMoves s) ->
     minMax fuel 0 false (Game.makeMove s m)
     = Some (rootScore fuel s m, Game.makeMove s m))
  /\ exists best pre post,
       getBestMove fuel s = Some (best, s)
       /\ In best (Game.getAvailableMoves s)
       /\ Game.getAvailableMoves s = pre ++ best :: post
       /\ (forall m, In m pre -> rootScore fuel s m < rootScore fuel s best)
       /\ (forall m, In m post -> rootScore fuel s m <= rootScore fuel s best).

End Engine.

(** ** Statements about a game

    Two properties that the specification asks of every variant. *)

(** A legal move from a state of [reach] is undone exactly, and both the
    move and its undoing switch the side to move. *)
Definition undo_inverts {St : Type} (G : Game.Interface St) (reach : St -> Prop) : Prop :=
  forall s m, reach s -> In m (Game.getAvailableMoves s) ->
    Game.undoMove (Game.makeMove s m) m = s
    /\ Game.getCurrentPlayer (Game.makeMove s m)
       = switchPlayer (Game.getCurrentPlayer s)
    /\ Game.getCurrentPlayer (Game.makeMove s m) <> Game.getCurrentPlayer s
    /\ Game.getCurrentPlayer (Game.undoMove (Game.makeMove s m) m)
       = switchPlayer (Game.getCurrentPlayer (Game.makeMove s m)).

(** [evaluate] and [getWinner] name the same outcome. *)
Definition evaluate_names_winner {St : Type} (G : Game.Interface St) (s : St) : Prop :=
  (Game.evaluate s = 10 <-> Game.getWinner s = AI)
  /\ (Game.evaluate s = -10 <-> Game.getWinner s = PLAYER)
  /\ (Game.evaluate s = 0 <-> Game.getWinner s = 0).

(** ** main.cpp: one match of the session loop

    [main] creates a game and runs [while (!game->isTerminal())]: on the
    player's turn it asks for input until [checkInput] accepts it and plays
    it; on the AI's turn it plays [getBestMove].  After the loop it reports
    [getWinner()].  The integers that the player types are a list, read in
    order; the texts printed are left out.  [fuel] bounds the iterations of
    the [while] loop and [searchFuel] is the fuel of each search. *)

Inductive Report := YouWin | AIWins | Draw.

Inductive Outcome (St : Type) :=
| Finished (final : St) (report : Report)
| AwaitingInput (s : St)
| OutOfFuel.
Arguments Finished {St} final report.
Arguments AwaitingInput {St} s.
Arguments OutOfFuel {St}.

Section Session.
Context {St : Type} {G : Game.Interface St}.
Variable askInput : Z -> Z.

(** [do { input = game->askInput(); } while (!game->checkInput(input));]
    the accepted input and the integers not yet read, or [None] when every
    integer typed so far was refused. *)
Fixpoint readMove (s : St) (typed : list Z) : option (Z * list Z) :=
  match typed with
  | [] => None
  | x :: rest =>
      let input := askInput x in
      if Game.checkInput s input then Some (input, rest) else readMove s rest
  end.

(** The three messages that end a match. *)
Definition reportWinner (s : St) : Report :=
  let winner := Game.getWinner s in
  if winner =? PLAYER then YouWin
  else if winner =? AI then AIWins
  else Draw.

Fixpoint playMatch (fuel searchFuel : nat) (s : St) (typed : list Z) : Outcome St :=
  match fuel with
  | O => OutOfFuel
  | S fuel' =>
      if Game.isTerminal s then Finished s (reportWinner s)
      else if Game.getCurrentPlayer s =? PLAYER then
        match readMove s typed with
        | None => AwaitingInput s
        | Some (input, rest) =>
            let s' := Game.makeMove s input in
            if Game.isTerminal s' then Finished s' (reportWinner s')
            else playMatch fuel' searchFuel s' rest
        end
      else
        match getBestMove searchFuel s with
        | None => OutOfFuel
        | Some (bestMove, s') =>
            playMatch fuel' searchFuel (Game.makeMove s' bestMove) typed
        end
  end.

End Session.

(** ** Notions used to state further properties *)

(** The number of occurrences of a character in a text. *)
Fixpoint countChar (c : Ascii.ascii) (text : String.string) : nat :=
  match text with
  | String.EmptyString => O
  | String.String a rest => ((if Ascii.eqb a c then 1 else 0) + countChar c rest)%nat
  end.

(** The number of cells of a board that hold [v]. *)
Definition countCells (v : Z) (board : list (list Z)) : nat :=
  length (List.filter (fun x => x =? v) (concat board)).

(** The value of a sticks position for the AI under perfect play: the side
    to move loses exactly when the number of sticks is 1 modulo 4. *)
Definition sticksValue (remaining currentPlayer : Z) : Z :=
  if remaining mod 4 =? 1
  then (if currentPlayer =? AI then -10 else 10)
  else (if currentPlayer =? AI then 10 else -10).

(** The move that leaves the opponent 1 modulo 4 sticks, when there is one,
    and otherwise one stick. *)
Definition sticksBestMove (remaining : Z) : Z :=
  if remaining mod 4 =? 1 then 1 else (remaining - 1) mod 4.

(** The scores that [evaluate] and hence [minMax] can return. *)
Definition score (v : Z) : Prop := v = -10 \/ v = 0 \/ v = 10.

(** What a match may end in, for states that satisfy [Inv]: the loop was left
    in a terminal state and the report is that of its winner, or the player
    is asked for a move in a state that is not terminal; the fuel is never
    what stops the match. *)
Definition sound_outcome {St : Type} {G : Game.Interface St}
  (Inv : St -> Prop) (out : Outcome St) : Prop :=
  match out with
  | Finished final report =>
      Inv final /\ Game.isTerminal final = true /\ report = reportWinner final
  | AwaitingInput s =>
      Inv s /\ Game.isTerminal s = false /\ Game.getCurrentPlayer s = PLAYER
  | OutOfFuel => False
  end.

(** The winner, if there is one, is the side that has just moved. *)
Definition lastMoverWon {St : Type} {G : Game.Interface St} (s : St) : Prop :=
  Game.getWinner s = 0
  \/ Game.getWinner s = switchPlayer (Game.getCurrentPlayer s).

(** The states of a match of Tic-Tac-Toe and of Connect 4: reachable, and
    won, if at all, by the side that has just moved. *)
Definition ttt_match_state (s : TicTacToe.State) : Prop :=
  TicTacToe.reachable s /\ lastMoverWon (G := TicTacToe.game) s.

Definition c4_match_state (s : Connect4.State) : Prop :=
  Connect4.reachable s /\ lastMoverWon (G := Connect4.game) s.

(** The side to move has as many markers as the other side, or one less, and
    every cell is empty or holds one of the two markers. *)
Definition alternating (cells : nat) (b : list (list Z)) (currentPlayer : Z) : Prop :=
  (countCells currentPlayer b <= countCells (switchPlayer currentPlayer) b
   <= S (countCells currentPlayer b))%nat
  /\ (countCells PLAYER b + countCells AI b + emptyCells b = cells)%nat.

(** The value of a position as the specification words the search, without
    a game object that is mutated: the evaluation of a terminal position,
    and otherwise the greatest value of the positions after one move when the
    AI is to move, the least when the player is.  [n] bounds the number of
    moves looked ahead. *)
Fixpoint gameValue {St : Type} {G : Game.Interface St} (n : nat) (s : St) : Z :=
  match n with
  | O => Game.evaluate s
  | S n' =>
      if Game.isTerminal s then Game.evaluate s
      else
        let b := Game.getCurrentPlayer s =? AI in
        fold_left (better b)
          (map (fun m => gameValue n' (Game.makeMove s m)) (Game.getAvailableMoves s))
          (seed b)
  end.

(** Tic-Tac-Toe positions that the AI does not lose when both sides play
    on: reachable, with a value of 0 or more. *)
Definition ttt_not_lost (s : TicTacToe.State) : Prop :=
  TicTacToe.reachable s
  /\ 0 <= gameValue (G := TicTacToe.game) (emptyCells (TicTacToe.board s)) s.

(** Sticks positions that the AI wins: the player is to move on 4k+1 sticks,
    or the AI on any other number. *)
Definition sticks_won (s : SticksGame.State) : Prop :=
  SticksGame.reachable s
  /\ ((SticksGame.currentPlayer s = PLAYER /\ SticksGame.remainingSticks s mod 4 = 1)
      \/ (SticksGame.currentPlayer s = AI /\ SticksGame.remainingSticks s mod 4 <> 1)).

(** The integer typed is refused by [checkInput] in state [s]. *)
Definition refused {St : Type} {G : Game.Interface St}
  (askInput : Z -> Z) (s : St) (x : Z) : Prop :=
  Game.checkInput s (askInput x) = false.

(** * Properties *)

(** ** Integers, loops and boards *)

Lemma switchPlayer_PLAYER : switchPlayer PLAYER = AI.
Proof. reflexivity. Qed.

Lemma switchPlayer_AI : switchPlayer AI = PLAYER.
Proof. reflexivity. Qed.

Lemma switchPlayer_side (p : Z) :
  p = PLAYER \/ p = AI -> switchPlayer p = PLAYER \/ switchPlayer p = AI.
Proof. intros [-> | ->]; [right | left]; reflexivity. Qed.

Lemma switchPlayer_twice (p : Z) :
  p = PLAYER \/ p = AI -> switchPlayer (switchPlayer p) = p.
Proof. intros [-> | ->]; reflexivity. Qed.

Lemma switchPlayer_neq (p : Z) : switchPlayer p <> p.
Proof.
  unfold switchPlayer, PLAYER, AI.
  destruct (Z.eqb_spec p 1); lia.
Qed.

Lemma wrap_small (z : Z) : INT_MIN <= z <= INT_MAX -> wrap z = z.
Proof.
  unfold wrap, INT_MIN, INT_MAX. intros H.
  rewrite Z.mod_small by lia. lia.
Qed.

Lemma firstReturn_None {A B} (body : A -> option B) (l : list A) :
  firstReturn body l = None <-> (forall x, In x l -> body x = None).
Proof.
  induction l as [| x l IH]; simpl.
  - split; [intros _ x [] | reflexivity].
  - destruct (body x) eqn:E.
    + split; [discriminate |]. intros H. rewrite (H x) in E by auto. discriminate.
    + rewrite IH. split.
      * intros H y [<- | Hy]; auto.
      * intros H y Hy. apply H. auto.
Qed.

Lemma cell_lookup (b : list (list Z)) (i j : Z) :
  cell b i j = default 0 (default [] (b !! Z.to_nat i) !! Z.to_nat j).
Proof. unfold cell. now rewrite !nth_lookup. Qed.

Lemma cell_setCell_ne (b : list (list Z)) (i j i' j' v : Z) :
  0 <= i -> 0 <= j -> 0 <= i' -> 0 <= j' -> i <> i' \/ j <> j' ->
  cell (setCell b i j v) i' j' = cell b i' j'.
Proof.
  intros Hi Hj Hi' Hj' Hne. rewrite !cell_lookup. unfold setCell.
  destruct (decide (Z.to_nat i = Z.to_nat i')) as [E | N].
  - rewrite <- E, list_lookup_alter_eq.
    destruct (b !! Z.to_nat i) as [row |]; simpl; [| reflexivity].
    rewrite list_lookup_insert_ne by lia. reflexivity.
  - rewrite list_lookup_alter_ne by assumption. reflexivity.
Qed.

Lemma cell_setCell_eq (h w : nat) (b : list (list Z)) (i j v : Z) :
  grid h w b -> 0 <= i < Z.of_nat h -> 0 <= j < Z.of_nat w ->
  cell (setCell b i j v) i j = v.
Proof.
  intros [Hlen Hrows] Hi Hj. rewrite cell_lookup. unfold setCell.
  rewrite list_lookup_alter_eq.
  destruct (lookup_lt_is_Some_2 b (Z.to_nat i)) as [row Hrow]; [lia |].
  rewrite Hrow. simpl.
  destruct (Forall_lookup_1 _ _ _ _ Hrows Hrow) as [Hw _].
  rewrite list_lookup_insert_eq by lia. reflexivity.
Qed.

Lemma setCell_setCell (b : list (list Z)) (i j v w : Z) :
  setCell (setCell b i j v) i j w = setCell b i j w.
Proof.
  unfold setCell. rewrite list_alter_alter_eq.
  apply list_alter_ext; [| reflexivity].
  intros row _. simpl. apply list_insert_insert_eq.
Qed.

Lemma setCell_cell (b : list (list Z)) (i j : Z) :
  setCell b i j (cell b i j) = b.
Proof.
  rewrite cell_lookup. unfold setCell.
  apply list_eq. intros k.
  destruct (decide (Z.to_nat i = k)) as [<- | N].
  - rewrite list_lookup_alter_eq.
    destruct (b !! Z.to_nat i) as [row |]; simpl; [| reflexivity].
    f_equal. apply list_insert_id'. intros Hlt.
    destruct (lookup_lt_is_Some_2 row (Z.to_nat j) Hlt) as [x Hx].
    rewrite Hx. reflexivity.
  - now rewrite list_lookup_alter_ne.
Qed.

Lemma grid_setCell (h w : nat) (b : list (list Z)) (i j v : Z) :
  grid h w b -> marker v -> grid h w (setCell b i j v).
Proof.
  intros [Hlen Hrows] Hv. unfold setCell. split.
  - now rewrite length_alter.
  - apply Forall_alter; [assumption |].
    intros row _ [Hw Hm]. split.
    + now rewrite length_insert.
    + now apply Forall_insert.
Qed.

Lemma grid_marker (h w : nat) (b : list (list Z)) (i j : Z) :
  grid h w b -> marker (cell b i j).
Proof.
  intros [_ Hrows]. rewrite cell_lookup.
  destruct (b !! Z.to_nat i) as [row |] eqn:Hrow; simpl.
  - destruct (Forall_lookup_1 _ _ _ _ Hrows Hrow) as [_ Hm].
    destruct (row !! Z.to_nat j) as [x |] eqn:Hx; simpl.
    + exact (Forall_lookup_1 _ _ _ _ Hm Hx).
    + now left.
  - now left.
Qed.

Lemma side_marker (p : Z) : p = PLAYER \/ p = AI -> marker p /\ p <> EMPTY.
Proof. unfold marker, PLAYER, AI, EMPTY. intros [-> | ->]; split; auto; lia. Qed.

Lemma emptyCells_row (row : list Z) (j : nat) (v : Z) :
  row !! j = Some EMPTY -> v <> EMPTY ->
  S (length (List.filter (fun x => x =? EMPTY) (<[j := v]> row)))
  = length (List.filter (fun x => x =? EMPTY) row).
Proof.
  intros Hj Hv. revert j Hj.
  induction row as [| x row IH]; intros [| j] Hj; simpl in *; try discriminate.
  - injection Hj as ->. simpl.
    destruct (Z.eqb_spec v EMPTY); [contradiction | reflexivity].
  - destruct (x =? EMPTY); simpl; rewrite <- (IH j Hj); reflexivity.
Qed.

Lemma emptyCells_setCell (h w : nat) (b : list (list Z)) (i j v : Z) :
  grid h w b -> 0 <= i < Z.of_nat h -> 0 <= j < Z.of_nat w ->
  cell b i j = EMPTY -> v <> EMPTY ->
  S (emptyCells (setCell b i j v)) = emptyCells b.
Proof.
  intros [Hlen Hrows] Hi Hj Hc Hv.
  destruct (lookup_lt_is_Some_2 b (Z.to_nat i)) as [row Hrow]; [lia |].
  destruct (Forall_lookup_1 _ _ _ _ Hrows Hrow) as [Hw _].
  destruct (lookup_lt_is_Some_2 row (Z.to_nat j)) as [x Hx]; [lia |].
  rewrite cell_lookup, Hrow in Hc. simpl in Hc. rewrite Hx in Hc. simpl in Hc. subst x.
  unfold emptyCells, setCell. clear Hlen Hrows Hi Hj Hw.
  revert b Hrow. generalize (Z.to_nat i) as n.
  induction n as [| n IH]; intros [| r b] Hrow; simpl in *; try discriminate.
  - injection Hrow as ->.
    rewrite !List.filter_app, !length_app, <- (emptyCells_row row (Z.to_nat j) v Hx Hv).
    reflexivity.
  - rewrite !List.filter_app, !length_app, <- (IH b Hrow), Nat.add_succ_r.
    reflexivity.
Qed.

(** ** The sticks game *)

Module SticksFacts.
Import SticksGame.

Lemma sticks_moves_spec (s : State) (m : Z) :
  In m (getAvailableMoves s) <-> 1 <= m <= 3 /\ m <= remainingSticks s.
Proof.
  unfold getAvailableMoves. generalize (remainingSticks s) as r. intros r.
  simpl.
  repeat match goal with
         | |- context [?a <=? r] => destruct (Z.leb_spec a r); simpl
         end; lia.
Qed.

Lemma sticks_wf_init (u : bool) : wf (init u).
Proof. unfold wf, init, STICKS_NUMBER; destruct u; simpl; split; auto; lia. Qed.

Lemma sticks_wf_makeMove (s : State) (m : Z) :
  wf s -> In m (getAvailableMoves s) -> wf (makeMove s m).
Proof.
  intros [Hp Hr] Hm. apply sticks_moves_spec in Hm. unfold STICKS_NUMBER in Hr.
  unfold wf, makeMove, STICKS_NUMBER; simpl. split.
  - now apply switchPlayer_side.
  - rewrite wrap_small by (unfold INT_MIN, INT_MAX; lia). lia.
Qed.

Lemma sticks_reachable_wf (s : State) : reachable s -> wf s.
Proof. induction 1; [apply sticks_wf_init | now apply sticks_wf_makeMove]. Qed.

Lemma sticks_undo_make (s : State) (m : Z) :
  wf s -> In m (getAvailableMoves s) -> undoMove (makeMove s m) m = s.
Proof.
  intros [Hp Hr] Hm. apply sticks_moves_spec in Hm. unfold STICKS_NUMBER in Hr.
  destruct s as [p r]; simpl in *. unfold undoMove, makeMove; simpl.
  rewrite switchPlayer_twice by assumption.
  rewrite (wrap_small (r - m)) by (unfold INT_MIN, INT_MAX; lia).
  rewrite wrap_small by (unfold INT_MIN, INT_MAX; lia).
  f_equal. lia.
Qed.

Lemma sticks_checkInput_spec (s : State) (m : Z) :
  checkInput s m = true <-> In m (getAvailableMoves s).
Proof.
  rewrite sticks_moves_spec. unfold checkInput.
  rewrite !andb_true_iff, Z.geb_le, !Z.leb_le. lia.
Qed.

End SticksFacts.

(** ** The search engine over any game *)

Section EngineFacts.
Context {St : Type} {G : Game.Interface St}.

Lemma minMax_unfold (fuel : nat) (depth : Z) (isMaximizing : bool) (s : St) :
  minMax (S fuel) depth isMaximizing s =
  if cutoff s depth then Some (Game.evaluate s, s)
  else forEach (Game.getAvailableMoves s) (minMaxBody fuel depth isMaximizing)
               (seed isMaximizing) s.
Proof.
  simpl. unfold bind at 1, query at 1, cutoff.
  destruct ((depth >=? maxDepth) || Game.isTerminal s); reflexivity.
Qed.

Lemma minMax_loop (fuel : nat) (depth : Z) (b : bool) (s : St) (ms : list Z) :
  (forall m, In m ms -> Game.undoMove (Game.makeMove s m) m = s) ->
  (forall m, In m ms -> exists v, child fuel depth b s m v) ->
  forall acc, exists scores,
    Forall2 (child fuel depth b s) ms scores
    /\ forEach ms (minMaxBody fuel depth b) acc s
       = Some (fold_left (better b) scores acc, s).
Proof.
  induction ms as [| m ms IH]; intros Hundo Hchild acc.
  - exists []. split; [constructor | reflexivity].
  - destruct (Hchild m (or_introl eq_refl)) as [v Hv].
    destruct (IH (fun x Hx => Hundo x (or_intror Hx))
                 (fun x Hx => Hchild x (or_intror Hx))
                 (better b acc v)) as [scores [HF Hloop]].
    exists (v :: scores). split; [constructor; assumption |].
    simpl. unfold bind at 1. unfold minMaxBody at 1.
    unfold bind at 1, call at 1. unfold bind at 1.
    unfold child in Hv. rewrite Hv.
    unfold bind at 1, call at 1, ret at 1.
    rewrite (Hundo m (or_introl eq_refl)). exact Hloop.
Qed.

(** Evaluations are -10, 0 or 10, so a fold seeded with the extreme integer
    takes the first score as it is. *)
Lemma fold_better_seed (b : bool) (v : Z) (scores : list Z) :
  -10 <= v <= 10 ->
  fold_left (better b) (v :: scores) (seed b) = fold_left (better b) scores v.
Proof.
  intros Hv. simpl. f_equal.
  unfold better, seed, INT_MIN, INT_MAX. destruct b; lia.
Qed.

Lemma fold_better_range (b : bool) (scores : list Z) :
  Forall (fun v => -10 <= v <= 10) scores ->
  forall acc, -10 <= acc <= 10 -> -10 <= fold_left (better b) scores acc <= 10.
Proof.
  induction 1 as [| v scores Hv _ IH]; intros acc Hacc; simpl; [assumption |].
  apply IH. unfold better. destruct b; lia.
Qed.

Section Backtracking.
(** A game whose moves can be taken back and whose search ends: [Inv]
    holds along the search, a legal move is undone exactly, and [rank]
    bounds the number of nested calls still needed. *)
Variable Inv : St -> Prop.
Variable rank : St -> Z -> nat.
Hypothesis undo_make : forall s m,
  Inv s -> In m (Game.getAvailableMoves s) ->
  Game.undoMove (Game.makeMove s m) m = s.
Hypothesis inv_make : forall s m,
  Inv s -> In m (Game.getAvailableMoves s) -> Inv (Game.makeMove s m).
Hypothesis rank_make : forall s depth m,
  Inv s -> cutoff s depth = false -> In m (Game.getAvailableMoves s) ->
  (rank (Game.makeMove s m) (depth + 1) < rank s depth)%nat.
Hypothesis evaluate_range : forall s, -10 <= Game.evaluate s <= 10.
Hypothesis moves_left : forall s,
  Game.isTerminal s = false -> Game.getAvailableMoves s <> [].

Lemma minMax_total (fuel : nat) :
  forall s depth b, Inv s -> (rank s depth < fuel)%nat ->
  exists v, minMax fuel depth b s = Some (v, s) /\ -10 <= v <= 10.
Proof.
  induction fuel as [| fuel IH]; intros s depth b HI Hr; [lia |].
  rewrite minMax_unfold. destruct (cutoff s depth) eqn:Hc.
  - eexists. split; [reflexivity | apply evaluate_range].
  - assert (Hch : forall m, In m (Game.getAvailableMoves s) ->
              exists v, child fuel depth b s m v /\ -10 <= v <= 10).
    { intros m Hm. apply IH; [now apply inv_make |].
      specialize (rank_make s depth m HI Hc Hm). lia. }
    destruct (minMax_loop fuel depth b s (Game.getAvailableMoves s)
                (fun m Hm => undo_make s m HI Hm)
                (fun m Hm => let (v, H) := Hch m Hm in ex_intro _ v (proj1 H))
                (seed b)) as [scores [HF Hloop]].
    rewrite Hloop. eexists. split; [reflexivity |].
    assert (Hrange : Forall (fun v => -10 <= v <= 10) scores).
    { clear Hloop. induction HF as [| m v ms vs Hmv _ IHF]; constructor.
      - destruct (Hch m (or_introl eq_refl)) as [v' [Hv' Hb]].
        unfold child in *. congruence.
      - apply IHF. intros x Hx. apply Hch. now right. }
    apply orb_false_iff in Hc as [_ Hterm].
    destruct scores as [| v scores].
    + inversion HF as [Hnil |]. symmetry in Hnil.
      now apply moves_left in Hterm.
    + inversion Hrange; subst. rewrite fold_better_seed by assumption.
      now apply fold_better_range.
Qed.

Lemma minMax_step (fuel : nat) (s : St) (depth : Z) (b : bool) :
  Inv s -> (rank s depth <= fuel)%nat -> minMax_step_spec fuel s depth b.
Proof.
  intros HI Hr. split; intros Hc; rewrite minMax_unfold, Hc; [reflexivity |].
  assert (Hch : forall m, In m (Game.getAvailableMoves s) ->
            exists v, child fuel depth b s m v /\ -10 <= v <= 10).
  { intros m Hm. apply minMax_total; [now apply inv_make |].
    specialize (rank_make s depth m HI Hc Hm). lia. }
  destruct (minMax_loop fuel depth b s (Game.getAvailableMoves s)
              (fun m Hm => undo_make s m HI Hm)
              (fun m Hm => let (v, H) := Hch m Hm in ex_intro _ v (proj1 H))
              (seed b)) as [scores [HF Hloop]].
  apply orb_false_iff in Hc as [_ Hterm]. apply moves_left in Hterm.
  destruct scores as [| v scores].
  - inversion HF as [Hnil |]. symmetry in Hnil. contradiction.
  - exists v, scores. split; [assumption |]. split; [assumption |].
    apply fold_better_seed.
    inversion HF as [| m v' ms vs Hmv _ Hms]; subst.
    symmetry in Hms.
    assert (Hm : In m (Game.getAvailableMoves s)) by (rewrite Hms; now left).
    destruct (Hch m Hm) as [v' [Hv' Hb]]. unfold child in *. congruence.
Qed.

Lemma getBestMove_loop (fuel : nat) (s : St) (ms : list Z) :
  (forall m, In m ms ->
     Game.undoMove (Game.makeMove s m) m = s
     /\ minMax fuel 0 false (Game.makeMove s m)
        = Some (rootScore fuel s m, Game.makeMove s m)) ->
  forall best,
    forEach ms (fun best move =>
        bind (call (fun game => Game.makeMove game move)) (fun _ =>
        bind (minMax fuel 0 false) (fun score =>
        bind (call (fun game => Game.undoMove game move)) (fun _ =>
        ret (if score >? fst best then (score, move) else best))))) best s
    = Some (fold_left (keep (rootScore fuel s)) ms best, s).
Proof.
  induction ms as [| m ms IH]; intros H best; [reflexivity |].
  destruct (H m (or_introl eq_refl)) as [Hundo Hscore].
  simpl. unfold bind at 1. unfold bind at 1, call at 1. unfold bind at 1.
  rewrite Hscore. unfold bind at 1, call at 1, ret at 1. rewrite Hundo.
  apply IH. intros x Hx. apply H. now right.
Qed.

(** The loop keeps the first of the greatest scores. *)
Lemma keep_first_max (score : Z -> Z) (ms : list Z) :
  forall best,
    let r := fold_left (keep score) ms best in
    (r = best /\ forall x, In x ms -> score x <= fst best)
    \/ (exists pre post,
          ms = pre ++ snd r :: post /\ fst r = score (snd r)
          /\ fst best < fst r
          /\ (forall x, In x pre -> score x < fst r)
          /\ (forall x, In x post -> score x <= fst r)).
Proof.
  induction ms as [| m ms IH]; intros best; simpl.
  - left. split; [reflexivity | intros x []].
  - replace (keep score best m)
      with (if score m >? fst best then (score m, m) else best) by reflexivity.
    destruct (Z.gtb_spec (score m) (fst best)) as [Hgt | Hle].
    + right. destruct (IH (score m, m)) as [[Hr Hall] | (pre & post & Hms & Hs & Hlt & Hpre & Hpost)].
      * rewrite Hr. simpl. exists [], ms. repeat split; auto. intros x [].
      * simpl in Hlt. exists (m :: pre), post. rewrite Hms at 1.
        repeat split; auto; try lia.
        intros x [<- | Hx]; [lia | auto].
    + destruct (IH best) as [[Hr Hall] | (pre & post & Hms & Hs & Hlt & Hpre & Hpost)].
      * left. split; [assumption |]. intros x [<- | Hx]; [lia | auto].
      * right. exists (m :: pre), post. rewrite Hms at 1.
        repeat split; auto.
        intros x [<- | Hx]; [lia | auto].
Qed.

Lemma getBestMove_correct (fuel : nat) (s : St) :
  Inv s -> Game.getAvailableMoves s <> [] ->
  (forall m, In m (Game.getAvailableMoves s) ->
     (rank (Game.makeMove s m) 0 < fuel)%nat) ->
  getBestMove_spec fuel s.
Proof.
  intros HI Hne Hfuel.
  assert (Hsc : forall m, In m (Game.getAvailableMoves s) ->
            minMax fuel 0 false (Game.makeMove s m)
            = Some (rootScore fuel s m, Game.makeMove s m)
            /\ -10 <= rootScore fuel s m <= 10).
  { intros m Hm.
    destruct (minMax_total fuel (Game.makeMove s m) 0 false) as [v [Hv Hb]];
      [now apply inv_make | now apply Hfuel |].
    unfold rootScore. rewrite Hv. auto. }
  split; [intros m Hm; apply Hsc, Hm |].
  unfold getBestMove. unfold bind at 1, query at 1. unfold bind at 1.
  rewrite (getBestMove_loop fuel s (Game.getAvailableMoves s))
    by (intros m Hm; split; [now apply undo_make | apply Hsc, Hm]).
  unfold ret.
  destruct (keep_first_max (rootScore fuel s) (Game.getAvailableMoves s) (INT_MIN, -1))
    as [[_ Hall] | (pre & post & Hms & Hs & _ & Hpre & Hpost)].
  - destruct (Game.getAvailableMoves s) as [| m ms]; [contradiction |].
    specialize (Hall m (or_introl eq_refl)).
    destruct (Hsc m (or_introl eq_refl)) as [_ Hb].
    simpl in Hall. unfold INT_MIN in Hall. lia.
  - rewrite Hs in Hpre, Hpost.
    eexists _, pre, post. split; [reflexivity |].
    split; [rewrite Hms at 2; apply in_or_app; right; now left |].
    repeat split; assumption.
Qed.

End Backtracking.

(** The depth test alone bounds the recursion: whatever the game does, a
    call at [depth] nests at most [maxDepth - depth] further calls. *)
Lemma minMax_depth_bound (fuel : nat) :
  forall depth b s, (Z.to_nat (maxDepth - depth) < fuel)%nat ->
  exists r, minMax fuel depth b s = Some r.
Proof.
  induction fuel as [| fuel IH]; intros depth b s Hf; [lia |].
  rewrite minMax_unfold. destruct (cutoff s depth) eqn:Hc; [eauto |].
  apply orb_false_iff in Hc as [Hd _].
  assert (Hlt : depth < maxDepth) by lia.
  generalize (seed b) as acc. generalize (Game.getAvailableMoves s) as ms.
  intros ms. revert s.
  induction ms as [| m ms IHms]; intros s acc; simpl.
  - unfold ret. eauto.
  - unfold bind at 1. unfold minMaxBody at 1.
    unfold bind at 1, call at 1. unfold bind at 1.
    destruct (IH (depth + 1) (negb b) (Game.makeMove s m)) as [[v s'] Hv]; [lia |].
    rewrite Hv. unfold bind at 1, call at 1, ret at 1. apply IHms.
Qed.

End EngineFacts.

(** ** Tic-Tac-Toe *)

Module TicTacToeFacts.
Import TicTacToe.

Lemma cellIndex_cases (m : Z) :
  0 <= m < 9 ->
  m = 0 \/ m = 1 \/ m = 2 \/ m = 3 \/ m = 4 \/ m = 5 \/ m = 6 \/ m = 7 \/ m = 8.
Proof. lia. Qed.

Lemma cellIndex_bounds (m : Z) :
  0 <= m < 9 ->
  0 <= m ÷ BOARD_SIZE < 3 /\ 0 <= Z.rem m BOARD_SIZE < 3
  /\ m ÷ BOARD_SIZE * BOARD_SIZE + Z.rem m BOARD_SIZE = m.
Proof.
  intros H. destruct (cellIndex_cases m H) as [-> | [-> | [-> | [-> | [-> | [-> | [-> | [-> | ->]]]]]]]];
    vm_compute; intuition discriminate.
Qed.

Lemma ttt_moves_spec (s : State) (m : Z) :
  In m (getAvailableMoves s)
  <-> 0 <= m < 9 /\ cell (board s) (m ÷ BOARD_SIZE) (Z.rem m BOARD_SIZE) = EMPTY.
Proof.
  unfold getAvailableMoves. rewrite in_flat_map. split.
  - intros (i & Hi & Hm). rewrite in_flat_map in Hm. destruct Hm as (j & Hj & Hm).
    change (range BOARD_SIZE) with [0; 1; 2] in *.
    destruct (Z.eqb_spec (cell (board s) i j) EMPTY) as [E |]; [| destruct Hm].
    destruct Hm as [<- | []]. simpl in Hi, Hj.
    destruct Hi as [<- | [<- | [<- | []]]]; destruct Hj as [<- | [<- | [<- | []]]];
      (split; [unfold BOARD_SIZE; lia | exact E]).
  - intros [Hm E]. destruct (cellIndex_bounds m Hm) as (Hq & Hr & Hqr).
    assert (Hin : forall x, 0 <= x < 3 -> In x (range BOARD_SIZE)).
    { intros x Hx. change (range BOARD_SIZE) with [0; 1; 2]. simpl. lia. }
    exists (m ÷ BOARD_SIZE). split; [now apply Hin |].
    apply in_flat_map. exists (Z.rem m BOARD_SIZE). split; [now apply Hin |].
    rewrite E, Hqr. now left.
Qed.

Lemma ttt_checkInput_spec (s : State) (m : Z) :
  checkInput s m = true <-> In m (getAvailableMoves s).
Proof.
  rewrite ttt_moves_spec. unfold checkInput.
  rewrite !andb_true_iff, Z.geb_le, Z.ltb_lt, Z.eqb_eq.
  change (BOARD_SIZE * BOARD_SIZE) with 9. lia.
Qed.

Lemma makeMove_legal (s : State) (m : Z) :
  In m (getAvailableMoves s) ->
  makeMove s m
  = {| board := setCell (board s) (m ÷ BOARD_SIZE) (Z.rem m BOARD_SIZE) (currentPlayer s);
       currentPlayer := switchPlayer (currentPlayer s) |}.
Proof.
  intros Hm. apply ttt_checkInput_spec in Hm. unfold checkInput in Hm.
  unfold makeMove. now rewrite Hm.
Qed.

Lemma ttt_wf_init (u : bool) : wf (init u).
Proof.
  split.
  - split; [reflexivity |]. unfold init; simpl.
    repeat constructor; now left.
  - destruct u; simpl; auto.
Qed.

Lemma ttt_wf_makeMove (s : State) (m : Z) :
  wf s -> In m (getAvailableMoves s) -> wf (makeMove s m).
Proof.
  intros [Hg Hp] Hm. rewrite makeMove_legal by assumption. split; simpl.
  - apply grid_setCell; [assumption | now apply side_marker].
  - now apply switchPlayer_side.
Qed.

Lemma ttt_reachable_wf (s : State) : reachable s -> wf s.
Proof. induction 1; [apply ttt_wf_init | now apply ttt_wf_makeMove]. Qed.

Lemma ttt_undo_make (s : State) (m : Z) :
  wf s -> In m (getAvailableMoves s) -> undoMove (makeMove s m) m = s.
Proof.
  intros [Hg Hp] Hm. rewrite makeMove_legal by assumption.
  apply ttt_moves_spec in Hm as [Hm E].
  destruct (cellIndex_bounds m Hm) as (Hq & Hr & _).
  unfold undoMove. simpl.
  rewrite (cell_setCell_eq 3 3) by (assumption || lia).
  destruct (side_marker _ Hp) as [_ Hne].
  destruct (Z.eqb_spec (currentPlayer s) EMPTY) as [| _]; [contradiction |].
  replace (m >=? 0) with true by (symmetry; apply Z.geb_le; lia).
  replace (m <? BOARD_SIZE * BOARD_SIZE) with true
    by (symmetry; apply Z.ltb_lt; change (BOARD_SIZE * BOARD_SIZE) with 9; lia).
  simpl. rewrite setCell_setCell, <- E, setCell_cell.
  rewrite switchPlayer_twice by assumption. now destruct s.
Qed.

Lemma rank_makeMove (s : State) (m : Z) :
  wf s -> In m (getAvailableMoves s) ->
  S (emptyCells (board (makeMove s m))) = emptyCells (board s).
Proof.
  intros [Hg Hp] Hm. rewrite makeMove_legal by assumption.
  apply ttt_moves_spec in Hm as [Hm E].
  destruct (cellIndex_bounds m Hm) as (Hq & Hr & _). simpl.
  apply (emptyCells_setCell 3 3); try assumption; try lia.
  now apply side_marker.
Qed.

Lemma ttt_evaluate_range (s : State) : -10 <= evaluate s <= 10.
Proof.
  unfold evaluate. destruct (getWinner s =? AI); [lia |].
  destruct (getWinner s =? PLAYER); lia.
Qed.

Lemma ttt_moves_left (s : State) : isTerminal s = false -> getAvailableMoves s <> [].
Proof.
  unfold isTerminal. intros H. apply orb_false_iff in H as [_ H].
  now apply bool_decide_eq_false in H.
Qed.

Lemma three_spec (x y z : Z) :
  three x y z = true <-> x <> EMPTY /\ x = y /\ y = z.
Proof.
  unfold three. rewrite !andb_true_iff, negb_true_iff, Z.eqb_neq, !Z.eqb_eq.
  tauto.
Qed.

Lemma lineThree_wins (b : list (list Z)) (l : (Z * Z) * (Z * Z) * (Z * Z)) (w : Z) :
  wins b l w <-> lineThree b l = true /\ w = cell b l.1.1.1 l.1.1.2.
Proof.
  destruct l as [[p q] r]. unfold wins, lineThree. rewrite three_spec. simpl.
  split.
  - intros (Hw & Hp & Hq & Hr). repeat split; congruence.
  - intros ((Hp & Hq & Hr) & ->). repeat split; congruence.
Qed.

Lemma getWinner_lineWinner (s : State) : getWinner s = lineWinner (board s).
Proof.
  unfold getWinner, lineWinner, lines.
  change (range BOARD_SIZE) with [0; 1; 2].
  cbn [firstReturn List.find lineThree fst snd].
  repeat match goal with
         | |- context [three ?x ?y ?z] => destruct (three x y z); try reflexivity
         end.
Qed.

Lemma lineWinner_wins (b : list (list Z)) :
  lineWinner b <> 0 ->
  exists l, In l lines /\ wins b l (lineWinner b).
Proof.
  unfold lineWinner. destruct (List.find (lineThree b) lines) as [l |] eqn:Hf;
    [| intros H; now contradiction H].
  intros _. apply List.find_some in Hf as [Hin Ht].
  exists l. split; [assumption |].
  apply lineThree_wins. split; [assumption |]. now destruct l as [[p q] r].
Qed.

Lemma lineWinner_zero (b : list (list Z)) :
  lineWinner b = 0 <-> (forall l w, In l lines -> ~ wins b l w).
Proof.
  split.
  - intros H0 l w Hin Hw.
    apply lineThree_wins in Hw as [Ht ->].
    unfold lineWinner in H0.
    destruct (List.find (lineThree b) lines) as [l' |] eqn:Hf.
    + apply List.find_some in Hf as [_ Ht'].
      destruct l' as [[p q] r]. unfold lineThree in Ht'.
      apply three_spec in Ht' as [Hne _]. contradiction.
    + now rewrite (List.find_none _ _ Hf l Hin) in Ht.
  - intros H. destruct (Z.eq_dec (lineWinner b) 0) as [| Hne]; [assumption |].
    destruct (lineWinner_wins b Hne) as (l & Hin & Hw).
    now destruct (H l (lineWinner b) Hin).
Qed.

Lemma moves_nil_full (s : State) :
  getAvailableMoves s = [] <-> full (board s).
Proof.
  split.
  - intros Hnil i j Hi Hj E.
    assert (Hin : In (i * BOARD_SIZE + j) (getAvailableMoves s)).
    { apply ttt_moves_spec. unfold BOARD_SIZE.
      replace ((i * 3 + j) ÷ 3) with i; [replace (Z.rem (i * 3 + j) 3) with j |].
      - split; [lia | assumption].
      - assert (C : (i = 0 \/ i = 1 \/ i = 2) /\ (j = 0 \/ j = 1 \/ j = 2)) by lia.
        destruct C as [[-> | [-> | ->]] [-> | [-> | ->]]]; reflexivity.
      - assert (C : (i = 0 \/ i = 1 \/ i = 2) /\ (j = 0 \/ j = 1 \/ j = 2)) by lia.
        destruct C as [[-> | [-> | ->]] [-> | [-> | ->]]]; reflexivity. }
    rewrite Hnil in Hin. destruct Hin.
  - intros Hfull. destruct (getAvailableMoves s) as [| m ms] eqn:E; [reflexivity |].
    assert (Hin : In m (getAvailableMoves s)) by (rewrite E; now left).
    apply ttt_moves_spec in Hin as [Hm Hc].
    destruct (cellIndex_bounds m Hm) as (Hq & Hr & _).
    now destruct (Hfull _ _ Hq Hr).
Qed.

Lemma isTerminal_spec (s : State) :
  isTerminal s = true <-> getWinner s <> 0 \/ full (board s).
Proof.
  unfold isTerminal.
  rewrite orb_true_iff, negb_true_iff, Z.eqb_neq, bool_decide_eq_true.
  now rewrite moves_nil_full.
Qed.

End TicTacToeFacts.

(** ** Connect 4 *)

Module Connect4Facts.
Import Connect4.

Lemma flat_map_filter {A} (p : A -> bool) (l : list A) :
  flat_map (fun x => if p x then [x] else []) l = List.filter p l.
Proof.
  induction l as [| x l IH]; simpl; [reflexivity |].
  rewrite IH. now destruct (p x).
Qed.

Lemma moves_filter (s : State) :
  getAvailableMoves s
  = List.filter (fun col => cell (board s) 0 col =? EMPTY) [0; 1; 2; 3; 4; 5; 6].
Proof. unfold getAvailableMoves. now rewrite flat_map_filter. Qed.

Lemma c4_moves_spec (s : State) (col : Z) :
  In col (getAvailableMoves s)
  <-> 0 <= col < BOARD_LENGTH /\ cell (board s) 0 col = EMPTY.
Proof.
  rewrite moves_filter, List.filter_In, Z.eqb_eq. unfold BOARD_LENGTH. simpl. lia.
Qed.

Lemma c4_checkInput_spec (s : State) (col : Z) :
  checkInput s col = true <-> In col (getAvailableMoves s).
Proof.
  rewrite c4_moves_spec. unfold checkInput.
  rewrite !andb_true_iff, Z.geb_le, Z.ltb_lt, Z.eqb_eq. lia.
Qed.

(** Case analysis on a row index between 0 and 5. *)
Ltac rows r :=
  let C := fresh "C" in
  assert (C : r = 0 \/ r = 1 \/ r = 2 \/ r = 3 \/ r = 4 \/ r = 5)
    by (unfold BOARD_HEIGHT in *; lia);
  destruct C as [-> | [-> | [-> | [-> | [-> | ->]]]]].

Lemma dropRow_Some (b : list (list Z)) (col row : Z) :
  dropRow b col = Some row ->
  0 <= row < BOARD_HEIGHT /\ cell b row col = EMPTY
  /\ (forall r, row < r < BOARD_HEIGHT -> cell b r col <> EMPTY).
Proof.
  unfold dropRow. change (rev (range BOARD_HEIGHT)) with [5; 4; 3; 2; 1; 0].
  cbn [firstReturn].
  repeat match goal with
         | |- context [cell b ?r col =? EMPTY] =>
             destruct (Z.eqb_spec (cell b r col) EMPTY)
         end;
    intros H; inversion H; subst;
    (split; [unfold BOARD_HEIGHT; lia |]); (split; [assumption |]);
    intros r Hr; rows r; solve [assumption | lia].
Qed.

Lemma dropRow_None (b : list (list Z)) (col : Z) :
  dropRow b col = None ->
  forall r, 0 <= r < BOARD_HEIGHT -> cell b r col <> EMPTY.
Proof.
  unfold dropRow. intros H r Hr.
  rewrite firstReturn_None in H.
  change (rev (range BOARD_HEIGHT)) with [5; 4; 3; 2; 1; 0] in H.
  specialize (H r). destruct (Z.eqb_spec (cell b r col) EMPTY); [| assumption].
  assert (Hin : In r [5; 4; 3; 2; 1; 0]) by (unfold BOARD_HEIGHT in Hr; simpl; lia).
  now apply H in Hin.
Qed.

Lemma dropRow_intro (b : list (list Z)) (col row : Z) :
  0 <= row < BOARD_HEIGHT -> cell b row col = EMPTY ->
  (forall r, row < r < BOARD_HEIGHT -> cell b r col <> EMPTY) ->
  dropRow b col = Some row.
Proof.
  intros Hrow He Hfull. destruct (dropRow b col) as [r0 |] eqn:E.
  - apply dropRow_Some in E as (Hr0 & He0 & Hfull0). f_equal.
    destruct (Z.lt_trichotomy r0 row) as [Hlt | [-> | Hgt]]; [| reflexivity |].
    + now destruct (Hfull0 row (conj Hlt (proj2 Hrow))).
    + now destruct (Hfull r0 (conj Hgt (proj2 Hr0))).
  - now destruct (dropRow_None b col E row Hrow).
Qed.

Lemma topRow_Some (b : list (list Z)) (col row : Z) :
  topRow b col = Some row ->
  0 <= row < BOARD_HEIGHT /\ cell b row col <> EMPTY
  /\ (forall r, 0 <= r < row -> cell b r col = EMPTY).
Proof.
  unfold topRow. change (range BOARD_HEIGHT) with [0; 1; 2; 3; 4; 5].
  cbn [firstReturn].
  repeat match goal with
         | |- context [cell b ?r col =? EMPTY] =>
             destruct (Z.eqb_spec (cell b r col) EMPTY); cbn [negb]
         end;
    intros H; inversion H; subst;
    (split; [unfold BOARD_HEIGHT; lia |]); (split; [assumption |]);
    intros r Hr; rows r; solve [assumption | lia].
Qed.

Lemma topRow_None (b : list (list Z)) (col : Z) :
  topRow b col = None ->
  forall r, 0 <= r < BOARD_HEIGHT -> cell b r col = EMPTY.
Proof.
  unfold topRow. intros H r Hr.
  rewrite firstReturn_None in H.
  change (range BOARD_HEIGHT) with [0; 1; 2; 3; 4; 5] in H.
  specialize (H r). destruct (Z.eqb_spec (cell b r col) EMPTY); [assumption |].
  assert (Hin : In r [0; 1; 2; 3; 4; 5]) by (unfold BOARD_HEIGHT in Hr; simpl; lia).
  now apply H in Hin.
Qed.

Lemma topRow_intro (b : list (list Z)) (col row : Z) :
  0 <= row < BOARD_HEIGHT -> cell b row col <> EMPTY ->
  (forall r, 0 <= r < row -> cell b r col = EMPTY) ->
  topRow b col = Some row.
Proof.
  intros Hrow Hne Hempty. destruct (topRow b col) as [r0 |] eqn:E.
  - apply topRow_Some in E as (Hr0 & Hne0 & Hempty0). f_equal.
    destruct (Z.lt_trichotomy r0 row) as [Hlt | [-> | Hgt]]; [| reflexivity |].
    + now destruct Hne0; apply Hempty; lia.
    + now destruct Hne; apply Hempty0; lia.
  - now destruct Hne; apply (topRow_None b col E).
Qed.

Lemma makeMove_at (s : State) (col row : Z) :
  dropRow (board s) col = Some row ->
  makeMove s col
  = {| board := setCell (board s) row col (currentPlayer s);
       currentPlayer := switchPlayer (currentPlayer s) |}.
Proof. intros H. unfold makeMove. now rewrite H. Qed.

Lemma dropRow_legal (s : State) (col : Z) :
  In col (getAvailableMoves s) -> exists row, dropRow (board s) col = Some row.
Proof.
  intros Hm. apply c4_moves_spec in Hm as [Hc He].
  destruct (dropRow (board s) col) as [row |] eqn:E; [eauto |].
  destruct (dropRow_None _ _ E 0); [unfold BOARD_HEIGHT; lia | assumption].
Qed.

Lemma gravity_above (b : list (list Z)) (col row : Z) :
  gravity b -> 0 <= col < BOARD_LENGTH -> row < BOARD_HEIGHT ->
  cell b row col = EMPTY ->
  forall r, 0 <= r <= row -> cell b r col = EMPTY.
Proof.
  intros Hg Hc Hrow He r Hr.
  assert (H : forall n : nat, forall r', 0 <= r' -> r' + Z.of_nat n = row ->
                cell b r' col = EMPTY).
  { induction n as [| n IH]; intros r' Hr' Hsum.
    - replace r' with row by lia. assumption.
    - destruct (Z.eq_dec (cell b r' col) EMPTY) as [| Hne]; [assumption |].
      apply (Hg r' col) in Hne; [| lia | lia | assumption].
      destruct Hne. apply IH; lia. }
  apply (H (Z.to_nat (row - r))); lia.
Qed.

Lemma c4_wf_init (u : bool) : wf (init u).
Proof.
  split; [| split].
  - split; [reflexivity |]. unfold init; simpl. repeat constructor; now left.
  - intros row col Hr Hr1 Hc Hne. destruct Hne.
    unfold BOARD_LENGTH in Hc.
    assert (C : col = 0 \/ col = 1 \/ col = 2 \/ col = 3 \/ col = 4 \/ col = 5 \/ col = 6)
      by lia.
    rows row; destruct C as [-> | [-> | [-> | [-> | [-> | [-> | ->]]]]]]; reflexivity.
  - destruct u; simpl; auto.
Qed.

Lemma c4_wf_makeMove (s : State) (col : Z) :
  wf s -> In col (getAvailableMoves s) -> wf (makeMove s col).
Proof.
  intros (Hgrid & Hgrav & Hp) Hm.
  destruct (dropRow_legal s col Hm) as [row Hdrop].
  apply c4_moves_spec in Hm as [Hc _].
  rewrite (makeMove_at s col row Hdrop).
  apply dropRow_Some in Hdrop as (Hrow & He & Hfull).
  destruct (side_marker _ Hp) as [Hmark Hne].
  unfold BOARD_HEIGHT, BOARD_LENGTH in *.
  split; [| split]; simpl.
  - now apply grid_setCell.
  - intros r c Hr Hr1 Hcc Hocc. unfold BOARD_HEIGHT, BOARD_LENGTH in *.
    destruct (decide (r + 1 = row /\ c = col)) as [[<- ->] | Hn1].
    + rewrite (cell_setCell_eq 6 7) by (assumption || lia). assumption.
    + rewrite cell_setCell_ne by lia.
      destruct (decide (r = row /\ c = col)) as [[-> ->] | Hn2].
      * apply Hfull. lia.
      * rewrite cell_setCell_ne in Hocc by lia.
        apply Hgrav; unfold BOARD_HEIGHT, BOARD_LENGTH; (assumption || lia).
  - now apply switchPlayer_side.
Qed.

Lemma c4_reachable_wf (s : State) : reachable s -> wf s.
Proof. induction 1; [apply c4_wf_init | now apply c4_wf_makeMove]. Qed.

Lemma c4_undo_make (s : State) (col : Z) :
  wf s -> In col (getAvailableMoves s) -> undoMove (makeMove s col) col = s.
Proof.
  intros (Hgrid & Hgrav & Hp) Hm.
  destruct (dropRow_legal s col Hm) as [row Hdrop].
  apply c4_moves_spec in Hm as [Hc _].
  rewrite (makeMove_at s col row Hdrop).
  apply dropRow_Some in Hdrop as (Hrow & He & Hfull).
  destruct (side_marker _ Hp) as [Hmark Hne].
  unfold undoMove. simpl.
  rewrite (topRow_intro _ col row).
  - rewrite setCell_setCell, <- He, setCell_cell.
    rewrite switchPlayer_twice by assumption. now destruct s.
  - assumption.
  - unfold BOARD_HEIGHT, BOARD_LENGTH in *.
    rewrite (cell_setCell_eq 6 7) by (assumption || lia). assumption.
  - intros r Hr. unfold BOARD_HEIGHT, BOARD_LENGTH in *.
    rewrite cell_setCell_ne by lia.
    apply (gravity_above (board s) col row); unfold BOARD_HEIGHT, BOARD_LENGTH;
      (assumption || lia).
Qed.

Lemma c4_evaluate_range (s : State) : -10 <= evaluate s <= 10.
Proof.
  unfold evaluate. destruct (getWinner s =? AI); [lia |].
  destruct (getWinner s =? PLAYER); lia.
Qed.

Lemma c4_moves_left (s : State) : isTerminal s = false -> getAvailableMoves s <> [].
Proof.
  unfold isTerminal. intros H. apply orb_false_iff in H as [_ H].
  now apply bool_decide_eq_false in H.
Qed.

Lemma drop_step (s : State) (col k : Z) :
  grid 6 7 (board s) -> currentPlayer s = PLAYER \/ currentPlayer s = AI ->
  0 <= col < BOARD_LENGTH -> 0 <= k < BOARD_HEIGHT ->
  columnHeight (board s) col k ->
  makeMove s col
  = {| board := setCell (board s) (BOARD_HEIGHT - 1 - k) col (currentPlayer s);
       currentPlayer := switchPlayer (currentPlayer s) |}
  /\ columnHeight (setCell (board s) (BOARD_HEIGHT - 1 - k) col (currentPlayer s))
                  col (k + 1).
Proof.
  intros Hgrid Hp Hc Hk [Hempty Hfull].
  destruct (side_marker _ Hp) as [_ Hne].
  unfold BOARD_HEIGHT, BOARD_LENGTH in *. split.
  - apply makeMove_at, dropRow_intro; unfold BOARD_HEIGHT.
    + lia.
    + apply Hempty. lia.
    + intros r Hr. apply Hfull. lia.
  - split; intros r Hr; unfold BOARD_HEIGHT in Hr.
    + rewrite cell_setCell_ne by lia. apply Hempty. lia.
    + destruct (decide (r = 6 - 1 - k)) as [-> | Hn].
      * rewrite (cell_setCell_eq 6 7) by (assumption || lia). assumption.
      * rewrite cell_setCell_ne by lia. apply Hfull. lia.
Qed.

Lemma dropMany_height (s : State) (col : Z) :
  grid 6 7 (board s) -> currentPlayer s = PLAYER \/ currentPlayer s = AI ->
  0 <= col < BOARD_LENGTH -> columnHeight (board s) col 0 ->
  forall n, (n <= 6)%nat ->
    grid 6 7 (board (dropMany s col n))
    /\ (currentPlayer (dropMany s col n) = PLAYER \/ currentPlayer (dropMany s col n) = AI)
    /\ columnHeight (board (dropMany s col n)) col (Z.of_nat n).
Proof.
  intros Hgrid Hp Hc H0. induction n as [| n IH]; intros Hn; [simpl; auto |].
  destruct IH as (Hg & Hs & Hh); [lia |].
  destruct (drop_step (dropMany s col n) col (Z.of_nat n)) as [Hmove Hh'];
    try assumption; [unfold BOARD_HEIGHT; lia |].
  cbn [dropMany]. rewrite Hmove. simpl. split; [| split].
  - apply grid_setCell; [assumption | now apply side_marker].
  - now apply switchPlayer_side.
  - replace (Z.of_nat (S n)) with (Z.of_nat n + 1) by lia. assumption.
Qed.

(** *** The scan of [getWinner] *)

Lemma firstReturn_ext {A B} (f g : A -> option B) (l : list A) :
  (forall x, In x l -> f x = g x) -> firstReturn f l = firstReturn g l.
Proof.
  induction l as [| x l IH]; intros H; simpl; [reflexivity |].
  rewrite (H x) by now left. rewrite IH; [reflexivity |].
  intros y Hy. apply H. now right.
Qed.

Lemma firstReturn_app {A B} (f : A -> option B) (l1 l2 : list A) :
  firstReturn f (l1 ++ l2)
  = match firstReturn f l1 with
    | Some r => Some r
    | None => firstReturn f l2
    end.
Proof.
  induction l1 as [| x l1 IH]; simpl; [reflexivity |].
  destruct (f x); [reflexivity | assumption].
Qed.

Lemma firstReturn_flat_map {A B C} (f : B -> option C) (g : A -> list B) (l : list A) :
  firstReturn f (flat_map g l) = firstReturn (fun x => firstReturn f (g x)) l.
Proof.
  induction l as [| x l IH]; simpl; [reflexivity |].
  now rewrite firstReturn_app, IH.
Qed.

Lemma firstReturn_map {A B C} (f : B -> option C) (h : A -> B) (l : list A) :
  firstReturn f (map h l) = firstReturn (fun x => f (h x)) l.
Proof.
  induction l as [| x l IH]; simpl; [reflexivity |]. now rewrite IH.
Qed.

Lemma find_firstReturn {A B} (p : A -> bool) (v : A -> B) (l : list A) :
  match List.find p l with
  | Some x => Some (v x)
  | None => None
  end
  = firstReturn (fun x => if p x then Some (v x) else None) l.
Proof.
  induction l as [| x l IH]; simpl; [reflexivity |].
  destruct (p x); [reflexivity | assumption].
Qed.

Lemma countLoop_run4 (b : list (list Z)) (row col : Z) (dir : Z * Z) :
  cell b row col <> 0 ->
  (countLoop b row col dir.1 dir.2 [1; 2; 3] 1 =? 4) = run4 b row col dir.
Proof.
  intros Hne. unfold run4.
  destruct (Z.eqb_spec (cell b row col) 0) as [| _]; [contradiction |].
  cbn [negb andb forallb countLoop]. rewrite !Z.geb_leb.
  repeat match goal with
         | |- context [if ?c then countLoop _ _ _ _ _ _ _ else _] =>
             destruct c; cbn [andb countLoop]; try reflexivity
         | |- context [if ?c then _ else _] =>
             destruct c; cbn [andb]; try reflexivity
         end.
Qed.

Lemma getWinner_firstRunWinner (s : State) :
  getWinner s = firstRunWinner (board s).
Proof.
  unfold getWinner, firstRunWinner.
  set (b := board s).
  match goal with
  | |- match ?l with Some w => w | None => 0 end
       = match ?r with Some p => _ | None => 0 end =>
      assert (E : l = match r with
                      | Some p => Some (cell b p.1.1 p.1.2)
                      | None => None
                      end)
  end.
  - rewrite (find_firstReturn _ (fun p : Z * Z * (Z * Z) => cell b p.1.1 p.1.2)).
    unfold scanOrder. rewrite firstReturn_flat_map.
    apply firstReturn_ext. intros row _.
    rewrite firstReturn_flat_map.
    apply firstReturn_ext. intros col _.
    rewrite firstReturn_map. cbn [fst snd].
    destruct (Z.eqb_spec (cell b row col) 0) as [E | Hne].
    + unfold run4. rewrite E. reflexivity.
    + apply firstReturn_ext. intros dir _.
      now rewrite countLoop_run4.
  - rewrite E. now destruct (List.find _ scanOrder).
Qed.

Lemma run4_occupied (b : list (list Z)) (row col : Z) (dir : Z * Z) :
  run4 b row col dir = true -> cell b row col <> 0.
Proof.
  unfold run4. intros H. apply andb_true_iff in H as [H _].
  now apply negb_true_iff, Z.eqb_neq in H.
Qed.

Lemma firstRunWinner_run (b : list (list Z)) :
  firstRunWinner b <> 0
  <-> exists row col dir, In (row, col, dir) scanOrder /\ run4 b row col dir = true.
Proof.
  unfold firstRunWinner.
  destruct (List.find _ scanOrder) as [[[row col] dir] |] eqn:Hf; cbn [fst snd].
  - apply List.find_some in Hf as [Hin Hrun]. cbn [fst snd] in Hrun.
    split; [eauto 6 |]. intros _. now apply run4_occupied in Hrun.
  - split; [intros H; now contradiction H |].
    intros (row & col & dir & Hin & Hrun).
    apply (List.find_none _ _ Hf) in Hin. cbn [fst snd] in Hin. congruence.
Qed.

End Connect4Facts.

(** ** The engine on the three games *)

Lemma sticks_evaluate_range (s : SticksGame.State) : -10 <= SticksGame.evaluate s <= 10.
Proof.
  unfold SticksGame.evaluate.
  destruct (SticksGame.remainingSticks s =? 0); [| lia].
  destruct (SticksGame.currentPlayer s =? PLAYER); lia.
Qed.

Lemma sticks_moves_left (s : SticksGame.State) :
  SticksGame.isTerminal s = false -> SticksGame.getAvailableMoves s <> [].
Proof.
  unfold SticksGame.isTerminal. intros H. apply Z.leb_gt in H.
  assert (Hin : In 1 (SticksGame.getAvailableMoves s))
    by (apply SticksFacts.sticks_moves_spec; lia).
  intros E. rewrite E in Hin. destruct Hin.
Qed.

Lemma sticks_rank (s : SticksGame.State) (m : Z) :
  SticksGame.wf s -> In m (SticksGame.getAvailableMoves s) ->
  (Z.to_nat (SticksGame.remainingSticks (SticksGame.makeMove s m))
   < Z.to_nat (SticksGame.remainingSticks s))%nat.
Proof.
  intros [_ Hr] Hm. apply SticksFacts.sticks_moves_spec in Hm.
  unfold SticksGame.STICKS_NUMBER in Hr. simpl.
  rewrite wrap_small by (unfold INT_MIN, INT_MAX; lia). lia.
Qed.

Lemma sticks_search (fuel : nat) (s : SticksGame.State) (depth : Z) (b : bool) :
  SticksGame.wf s -> (Z.to_nat (SticksGame.remainingSticks s) <= fuel)%nat ->
  minMax_step_spec (G := SticksGame.game) fuel s depth b.
Proof.
  intros Hwf Hfuel.
  apply (minMax_step (G := SticksGame.game) SticksGame.wf
           (fun s _ => Z.to_nat (SticksGame.remainingSticks s))); try assumption.
  - exact SticksFacts.sticks_undo_make.
  - exact SticksFacts.sticks_wf_makeMove.
  - intros s' d m Hs _ Hm. now apply sticks_rank.
  - exact sticks_evaluate_range.
  - exact sticks_moves_left.
Qed.

Lemma sticks_best (fuel : nat) (s : SticksGame.State) :
  SticksGame.wf s -> SticksGame.getAvailableMoves s <> [] ->
  (Z.to_nat (SticksGame.remainingSticks s) <= fuel)%nat ->
  getBestMove_spec (G := SticksGame.game) fuel s.
Proof.
  intros Hwf Hne Hfuel.
  apply (getBestMove_correct (G := SticksGame.game) SticksGame.wf
           (fun s _ => Z.to_nat (SticksGame.remainingSticks s))); try assumption.
  - exact SticksFacts.sticks_undo_make.
  - exact SticksFacts.sticks_wf_makeMove.
  - intros s' d m Hs _ Hm. now apply sticks_rank.
  - exact sticks_evaluate_range.
  - exact sticks_moves_left.
  - intros m Hm. pose proof (sticks_rank s m Hwf Hm) as Hlt.
    cbn [Game.makeMove SticksGame.game]. lia.
Qed.

Lemma ttt_search (fuel : nat) (s : TicTacToe.State) (depth : Z) (b : bool) :
  TicTacToe.wf s -> (emptyCells (TicTacToe.board s) <= fuel)%nat ->
  minMax_step_spec (G := TicTacToe.game) fuel s depth b.
Proof.
  intros Hwf Hfuel.
  apply (minMax_step (G := TicTacToe.game) TicTacToe.wf
           (fun s _ => emptyCells (TicTacToe.board s))); try assumption.
  - exact TicTacToeFacts.ttt_undo_make.
  - exact TicTacToeFacts.ttt_wf_makeMove.
  - intros s' d m Hs _ Hm.
    pose proof (TicTacToeFacts.rank_makeMove s' m Hs Hm) as E.
    cbn [Game.makeMove TicTacToe.game]. lia.
  - exact TicTacToeFacts.ttt_evaluate_range.
  - exact TicTacToeFacts.ttt_moves_left.
Qed.

Lemma ttt_best (fuel : nat) (s : TicTacToe.State) :
  TicTacToe.wf s -> TicTacToe.getAvailableMoves s <> [] ->
  (emptyCells (TicTacToe.board s) <= fuel)%nat ->
  getBestMove_spec (G := TicTacToe.game) fuel s.
Proof.
  intros Hwf Hne Hfuel.
  apply (getBestMove_correct (G := TicTacToe.game) TicTacToe.wf
           (fun s _ => emptyCells (TicTacToe.board s))); try assumption.
  - exact TicTacToeFacts.ttt_undo_make.
  - exact TicTacToeFacts.ttt_wf_makeMove.
  - intros s' d m Hs _ Hm.
    pose proof (TicTacToeFacts.rank_makeMove s' m Hs Hm) as E.
    cbn [Game.makeMove TicTacToe.game]. lia.
  - exact TicTacToeFacts.ttt_evaluate_range.
  - exact TicTacToeFacts.ttt_moves_left.
  - intros m Hm. pose proof (TicTacToeFacts.rank_makeMove s m Hwf Hm) as E.
    cbn [Game.makeMove TicTacToe.game]. lia.
Qed.

Lemma c4_rank (s : Connect4.State) (depth : Z) :
  cutoff (G := Connect4.game) s depth = false ->
  (Z.to_nat (6 - (depth + 1)) < Z.to_nat (6 - depth))%nat.
Proof.
  unfold cutoff. intros H. apply orb_false_iff in H as [H _].
  change (maxDepth (G := Connect4.game)) with 6 in H. lia.
Qed.

Lemma c4_search (fuel : nat) (s : Connect4.State) (depth : Z) (b : bool) :
  Connect4.wf s -> (Z.to_nat (6 - depth) <= fuel)%nat ->
  minMax_step_spec (G := Connect4.game) fuel s depth b.
Proof.
  intros Hwf Hfuel.
  apply (minMax_step (G := Connect4.game) Connect4.wf
           (fun _ depth => Z.to_nat (6 - depth))); try assumption.
  - exact Connect4Facts.c4_undo_make.
  - exact Connect4Facts.c4_wf_makeMove.
  - intros s' d m _ Hc _. now apply (c4_rank s').
  - exact Connect4Facts.c4_evaluate_range.
  - exact Connect4Facts.c4_moves_left.
Qed.

Lemma c4_best (fuel : nat) (s : Connect4.State) :
  Connect4.wf s -> Connect4.getAvailableMoves s <> [] -> (7 <= fuel)%nat ->
  getBestMove_spec (G := Connect4.game) fuel s.
Proof.
  intros Hwf Hne Hfuel.
  apply (getBestMove_correct (G := Connect4.game) Connect4.wf
           (fun _ depth => Z.to_nat (6 - depth))); try assumption.
  - exact Connect4Facts.c4_undo_make.
  - exact Connect4Facts.c4_wf_makeMove.
  - intros s' d m _ Hc _. now apply (c4_rank s').
  - exact Connect4Facts.c4_evaluate_range.
  - exact Connect4Facts.c4_moves_left.
  - intros m _. simpl. lia.
Qed.

(** * The properties of the specification *)

(** ** Sticks game: who wins at zero *)

(** C1 as the specification states it (the side that took the last stick
    wins) does not hold: when the AI takes the last three sticks, no stick
    remains, the player is to move, and [getWinner] is not AI. *)
Lemma sticks_last_mover_does_not_win :
  let s := SticksGame.makeMove (SticksGame.mkState AI 3) 3 in
  SticksGame.remainingSticks s = 0
  /\ SticksGame.currentPlayer s = PLAYER
  /\ SticksGame.getWinner s <> AI.
Proof. vm_compute. repeat split; discriminate. Qed.

(** C1 (amended): in every state of the sticks game with no stick left,
    [getWinner] is the side to move, PLAYER when [currentPlayer == PLAYER]
    and AI otherwise, and [evaluate] agrees with it (-10 for PLAYER, 10 for
    AI): the side that took the last stick loses.  From three sticks with the
    AI to move, [makeMove(3)] leaves no stick and [getWinner] is PLAYER. *)
Theorem sticks_winner_is_side_to_move :
  (forall s : SticksGame.State,
     SticksGame.remainingSticks s = 0 ->
     SticksGame.getWinner s
     = (if SticksGame.currentPlayer s =? PLAYER then PLAYER else AI)
     /\ SticksGame.evaluate s
        = (if SticksGame.currentPlayer s =? PLAYER then -10 else 10))
  /\ (let s := SticksGame.makeMove (SticksGame.mkState AI 3) 3 in
      SticksGame.remainingSticks s = 0 /\ SticksGame.getWinner s = PLAYER).
Proof.
  split; [| vm_compute; auto].
  intros s H. unfold SticksGame.getWinner, SticksGame.evaluate.
  rewrite H. auto.
Qed.

Lemma sticks_winner_is_side_to_move_witness :
  SticksGame.getWinner (SticksGame.mkState AI 0) = AI
  /\ SticksGame.evaluate (SticksGame.mkState AI 0) = 10.
Proof.
  exact (proj1 sticks_winner_is_side_to_move (SticksGame.mkState AI 0) eq_refl).
Defined.

(** ** Taking a move back *)

(** C2: in each of the three games, for every reachable state and every move
    of [getAvailableMoves], [makeMove] followed by [undoMove] of that move
    gives back the very same state (board or stick count, and side to move),
    and each of the two calls switches [currentPlayer]. *)
Theorem make_then_undo_restores :
  undo_inverts TicTacToe.game TicTacToe.reachable
  /\ undo_inverts Connect4.game Connect4.reachable
  /\ undo_inverts SticksGame.game SticksGame.reachable.
Proof.
  split; [| split]; intros s m Hr Hm.
  - apply TicTacToeFacts.ttt_reachable_wf in Hr.
    assert (Hp := proj2 Hr).
    pose proof (TicTacToeFacts.ttt_undo_make s m Hr Hm) as Hu.
    cbn [Game.undoMove Game.makeMove Game.getCurrentPlayer TicTacToe.game] in *.
    rewrite Hu, (TicTacToeFacts.makeMove_legal s m Hm).
    unfold TicTacToe.getCurrentPlayer. simpl.
    repeat split; auto using switchPlayer_neq.
    symmetry. now apply switchPlayer_twice.
  - apply Connect4Facts.c4_reachable_wf in Hr.
    assert (Hp := proj2 (proj2 Hr)).
    pose proof (Connect4Facts.c4_undo_make s m Hr Hm) as Hu.
    destruct (Connect4Facts.dropRow_legal s m Hm) as [row Hdrop].
    cbn [Game.undoMove Game.makeMove Game.getCurrentPlayer Connect4.game] in *.
    rewrite Hu, (Connect4Facts.makeMove_at s m row Hdrop).
    unfold Connect4.getCurrentPlayer. simpl.
    repeat split; auto using switchPlayer_neq.
    symmetry. now apply switchPlayer_twice.
  - apply SticksFacts.sticks_reachable_wf in Hr.
    assert (Hp := proj1 Hr).
    pose proof (SticksFacts.sticks_undo_make s m Hr Hm) as Hu.
    cbn [Game.undoMove Game.makeMove Game.getCurrentPlayer SticksGame.game] in *.
    rewrite Hu. unfold SticksGame.getCurrentPlayer. simpl.
    repeat split; auto using switchPlayer_neq.
    symmetry. now apply switchPlayer_twice.
Qed.

Lemma make_then_undo_restores_witness :
  Connect4.undoMove (Connect4.makeMove (Connect4.init true) 3) 3
  = Connect4.init true.
Proof.
  refine (proj1 (proj1 (proj2 make_then_undo_restores)
                   (Connect4.init true) 3 (Connect4.reach_init true) _)).
  vm_compute. tauto.
Defined.

(** ** Validating a human move *)

(** C6: in each of the three games, for every state and every integer [m],
    [checkInput(m)] is true exactly when [m] is one of the moves of
    [getAvailableMoves()], inputs out of range included. *)
Theorem checkInput_agrees_with_moves :
  (forall (s : TicTacToe.State) (m : Z),
     TicTacToe.checkInput s m = true <-> In m (TicTacToe.getAvailableMoves s))
  /\ (forall (s : Connect4.State) (m : Z),
        Connect4.checkInput s m = true <-> In m (Connect4.getAvailableMoves s))
  /\ (forall (s : SticksGame.State) (m : Z),
        SticksGame.checkInput s m = true <-> In m (SticksGame.getAvailableMoves s)).
Proof.
  split; [| split].
  - exact TicTacToeFacts.ttt_checkInput_spec.
  - exact Connect4Facts.c4_checkInput_spec.
  - exact SticksFacts.sticks_checkInput_spec.
Qed.

(** ** Illegal moves *)

(** C10: [TicTacToe::makeMove] with an index outside 0..8 or of an occupied
    cell changes nothing, neither the board nor the side to move;
    [Connect4::makeMove] on a column in range whose six cells are occupied
    changes nothing; [SticksGame::makeMove] tests nothing: it subtracts its
    argument from [remainingSticks] (exactly, as long as the difference is an
    [int]) and switches [currentPlayer], whatever the argument. *)
Theorem illegal_moves :
  (forall (s : TicTacToe.State) (cellIndex : Z),
     ~ (0 <= cellIndex <= 8)
     \/ cell (TicTacToe.board s) (cellIndex ÷ 3) (Z.rem cellIndex 3) <> EMPTY ->
     TicTacToe.makeMove s cellIndex = s)
  /\ (forall (s : Connect4.State) (col : Z),
        0 <= col < Connect4.BOARD_LENGTH ->
        (forall row, 0 <= row < Connect4.BOARD_HEIGHT ->
           cell (Connect4.board s) row col <> EMPTY) ->
        Connect4.makeMove s col = s)
  /\ (forall (s : SticksGame.State) (numSticks : Z),
        SticksGame.makeMove s numSticks
        = {| SticksGame.currentPlayer := switchPlayer (SticksGame.currentPlayer s);
             SticksGame.remainingSticks :=
               wrap (SticksGame.remainingSticks s - numSticks) |}
        /\ SticksGame.currentPlayer (SticksGame.makeMove s numSticks)
           <> SticksGame.currentPlayer s
        /\ (INT_MIN <= SticksGame.remainingSticks s - numSticks <= INT_MAX ->
            SticksGame.remainingSticks (SticksGame.makeMove s numSticks)
            = SticksGame.remainingSticks s - numSticks))
  /\ SticksGame.makeMove (SticksGame.mkState PLAYER 2) 3 = SticksGame.mkState AI (-1).
Proof.
  split; [| split; [| split]].
  - intros s m H. unfold TicTacToe.makeMove.
    change (TicTacToe.BOARD_SIZE * TicTacToe.BOARD_SIZE) with 9.
    change TicTacToe.BOARD_SIZE with 3.
    destruct (Z.geb_spec m 0); [| reflexivity].
    destruct (Z.ltb_spec m 9); [| reflexivity].
    destruct (Z.eqb_spec (cell (TicTacToe.board s) (m ÷ 3) (Z.rem m 3)) EMPTY);
      [| reflexivity].
    simpl. destruct H as [H | H]; [lia | contradiction].
  - intros s col Hc Hfull. unfold Connect4.makeMove.
    destruct (Connect4.dropRow (Connect4.board s) col) as [row |] eqn:E;
      [| reflexivity].
    apply Connect4Facts.dropRow_Some in E as (Hrow & He & _).
    now destruct (Hfull row Hrow).
  - intros s n. split; [reflexivity |]. split.
    + apply switchPlayer_neq.
    + intros H. simpl. now apply wrap_small.
  - reflexivity.
Qed.

Lemma illegal_moves_witness :
  TicTacToe.makeMove (TicTacToe.mkState [[1; 0; 0]; [0; 0; 0]; [0; 0; 0]] AI) 0
  = TicTacToe.mkState [[1; 0; 0]; [0; 0; 0]; [0; 0; 0]] AI
  /\ TicTacToe.makeMove (TicTacToe.init true) 9 = TicTacToe.init true
  /\ SticksGame.remainingSticks (SticksGame.makeMove (SticksGame.init true) 25) = -4.
Proof.
  split; [| split].
  - apply (proj1 illegal_moves). right. vm_compute. discriminate.
  - apply (proj1 illegal_moves). left. lia.
  - apply (proj2 (proj2 (proj1 (proj2 (proj2 illegal_moves))
                           (SticksGame.init true) 25))).
    vm_compute. split; discriminate.
Defined.

(** ** The search *)

(** C3: [minMax(game, depth, isMaximizing)] returns [game.evaluate()] when
    [depth] has reached the cutoff of the variant (6 for Connect 4, 999999
    for Tic-Tac-Toe and the sticks game) or the game is terminal; otherwise
    it plays every move of [getAvailableMoves()] in order, searches with
    [depth + 1] and the flag negated, takes the move back (the game is left
    as it was found), and folds the scores with max when maximizing and min
    when minimizing, from a seed ([INT_MIN], resp. [INT_MAX]) that the first
    score replaces.  Hence for Connect 4 a call at depth 0 never nests more
    than six further calls, on any board; on the empty board it does nest
    six. *)
Theorem minMax_search :
  (maxDepth (G := Connect4.game) = 6
   /\ maxDepth (G := TicTacToe.game) = 999999
   /\ maxDepth (G := SticksGame.game) = 999999)
  /\ (forall (St : Type) (G : Game.Interface St) fuel depth b (s : St),
        (depth >=? maxDepth) || Game.isTerminal s = true ->
        minMax (S fuel) depth b s = Some (Game.evaluate s, s))
  /\ (forall fuel s depth b,
        TicTacToe.reachable s ->
        (emptyCells (TicTacToe.board s) <= fuel)%nat ->
        minMax_step_spec (G := TicTacToe.game) fuel s depth b)
  /\ (forall fuel s depth b,
        Connect4.reachable s ->
        (Z.to_nat (6 - depth) <= fuel)%nat ->
        minMax_step_spec (G := Connect4.game) fuel s depth b)
  /\ (forall fuel s depth b,
        SticksGame.reachable s ->
        (Z.to_nat (SticksGame.remainingSticks s) <= fuel)%nat ->
        minMax_step_spec (G := SticksGame.game) fuel s depth b)
  /\ (forall fuel depth b (s : Connect4.State),
        (Z.to_nat (6 - depth) < fuel)%nat ->
        exists r, minMax (G := Connect4.game) fuel depth b s = Some r)
  /\ minMax (G := Connect4.game) 6 0 true (Connect4.init true) = None.
Proof.
  split; [repeat split |].
  split; [| split; [| split; [| split; [| split]]]].
  - intros St G fuel depth b s Hc.
    rewrite minMax_unfold. unfold cutoff. now rewrite Hc.
  - intros fuel s depth b Hr. apply ttt_search.
    now apply TicTacToeFacts.ttt_reachable_wf.
  - intros fuel s depth b Hr. apply c4_search.
    now apply Connect4Facts.c4_reachable_wf.
  - intros fuel s depth b Hr. apply sticks_search.
    now apply SticksFacts.sticks_reachable_wf.
  - intros fuel depth b s Hf.
    now apply (minMax_depth_bound (G := Connect4.game)).
  - vm_compute. reflexivity.
Qed.

Lemma minMax_search_witness :
  minMax_step_spec (G := SticksGame.game) 21 (SticksGame.init false) 0 true
  /\ exists r, minMax (G := Connect4.game) 7 0 true (Connect4.init true) = Some r.
Proof.
  split.
  - apply (proj1 (proj2 (proj2 (proj2 (proj2 minMax_search))))).
    + apply SticksGame.reach_init.
    + vm_compute. lia.
  - apply (proj1 (proj2 (proj2 (proj2 (proj2 (proj2 minMax_search)))))).
    vm_compute. lia.
Defined.

(** ** The move chosen *)

(** The example of C4 as the specification states it (with four sticks and
    the AI to move, every move loses) does not hold: taking three sticks is a
    legal move whose search returns +10, a win for the AI. *)
Lemma sticks_four_is_not_lost :
  let s := SticksGame.mkState AI 4 in
  In 3 (SticksGame.getAvailableMoves s)
  /\ minMax (G := SticksGame.game) 4 0 false (SticksGame.makeMove s 3)
     = Some (10, SticksGame.makeMove s 3).
Proof. vm_compute. split; [tauto | reflexivity]. Qed.

(** C4 (amended): in every reachable state with a legal move, [getBestMove]
    leaves the game as it found it and returns a move of
    [getAvailableMoves()]: the first one, in the order of that list, whose
    score (the value of [minMax(game, 0, false)] after the move is played) is
    the greatest; every earlier move scores strictly less, ties keep the
    earlier move.  In the sticks game with four sticks and the AI to move it
    returns 3, the only move that scores +10 (1 and 2 score -10); with five
    sticks and the AI to move every move scores -10 and it still returns a
    legal move, the first one. *)
Theorem getBestMove_first_best :
  (forall fuel s,
     TicTacToe.reachable s -> TicTacToe.getAvailableMoves s <> [] ->
     (emptyCells (TicTacToe.board s) <= fuel)%nat ->
     getBestMove_spec (G := TicTacToe.game) fuel s)
  /\ (forall fuel s,
        Connect4.reachable s -> Connect4.getAvailableMoves s <> [] ->
        (7 <= fuel)%nat ->
        getBestMove_spec (G := Connect4.game) fuel s)
  /\ (forall fuel s,
        SticksGame.reachable s -> SticksGame.getAvailableMoves s <> [] ->
        (Z.to_nat (SticksGame.remainingSticks s) <= fuel)%nat ->
        getBestMove_spec (G := SticksGame.game) fuel s)
  /\ (let s := SticksGame.mkState AI 4 in
      getBestMove (G := SticksGame.game) 4 s = Some (3, s)
      /\ map (rootScore (G := SticksGame.game) 4 s) (SticksGame.getAvailableMoves s)
         = [-10; -10; 10])
  /\ (let s := SticksGame.mkState AI 5 in
      getBestMove (G := SticksGame.game) 5 s = Some (1, s)
      /\ map (rootScore (G := SticksGame.game) 5 s) (SticksGame.getAvailableMoves s)
         = [-10; -10; -10]).
Proof.
  split; [| split; [| split; [| split]]].
  - intros fuel s Hr. apply ttt_best.
    now apply TicTacToeFacts.ttt_reachable_wf.
  - intros fuel s Hr. apply c4_best.
    now apply Connect4Facts.c4_reachable_wf.
  - intros fuel s Hr. apply sticks_best.
    now apply SticksFacts.sticks_reachable_wf.
  - vm_compute. split; reflexivity.
  - vm_compute. split; reflexivity.
Qed.

Lemma getBestMove_first_best_witness :
  getBestMove_spec (G := SticksGame.game) 21 (SticksGame.init false).
Proof.
  apply (proj1 (proj2 (proj2 getBestMove_first_best))).
  - apply SticksGame.reach_init.
  - vm_compute. discriminate.
  - vm_compute. lia.
Defined.

(** ** Evaluation and winner *)

Lemma evaluate_of_marker (w : Z) :
  marker w ->
  let e := if w =? AI then 10 else if w =? PLAYER then -10 else 0 in
  (e = 10 <-> w = AI) /\ (e = -10 <-> w = PLAYER) /\ (e = 0 <-> w = 0).
Proof.
  unfold marker, AI, PLAYER, EMPTY. intros [-> | [-> | ->]]; simpl; lia.
Qed.

Lemma ttt_winner_marker (s : TicTacToe.State) :
  TicTacToe.wf s -> marker (TicTacToe.getWinner s).
Proof.
  intros [Hg _]. rewrite TicTacToeFacts.getWinner_lineWinner.
  unfold TicTacToe.lineWinner.
  destruct (List.find _ TicTacToe.lines) as [[[p q] r] |].
  - now apply (grid_marker 3 3).
  - now left.
Qed.

Lemma c4_winner_marker (s : Connect4.State) :
  Connect4.wf s -> marker (Connect4.getWinner s).
Proof.
  intros [Hg _]. rewrite Connect4Facts.getWinner_firstRunWinner.
  unfold Connect4.firstRunWinner.
  destruct (List.find _ Connect4.scanOrder) as [p |].
  - now apply (grid_marker 6 7).
  - now left.
Qed.

(** C5: in each of the three games and in every reachable state, terminal or
    not, [evaluate()] is +10 exactly when [getWinner()] is AI, -10 exactly
    when it is PLAYER, and 0 exactly when it is 0 (for the sticks game this
    holds in every state whatsoever). *)
Theorem evaluate_agrees_with_winner :
  (forall s, TicTacToe.reachable s -> evaluate_names_winner TicTacToe.game s)
  /\ (forall s, Connect4.reachable s -> evaluate_names_winner Connect4.game s)
  /\ (forall s : SticksGame.State, evaluate_names_winner SticksGame.game s).
Proof.
  split; [| split].
  - intros s Hr. apply TicTacToeFacts.ttt_reachable_wf in Hr.
    exact (evaluate_of_marker _ (ttt_winner_marker s Hr)).
  - intros s Hr. apply Connect4Facts.c4_reachable_wf in Hr.
    exact (evaluate_of_marker _ (c4_winner_marker s Hr)).
  - intros s. unfold evaluate_names_winner. simpl.
    unfold SticksGame.evaluate, SticksGame.getWinner, AI, PLAYER.
    destruct (SticksGame.remainingSticks s =? 0); [| lia].
    destruct (SticksGame.currentPlayer s =? 1); lia.
Qed.

Lemma evaluate_agrees_with_winner_witness :
  (let won := fold_left TicTacToe.makeMove [0; 3; 1; 4; 2] (TicTacToe.init true) in
   TicTacToe.isTerminal won = true /\ TicTacToe.getWinner won = PLAYER
   /\ TicTacToe.evaluate won = -10
   /\ evaluate_names_winner TicTacToe.game won)
  /\ (let drawn := fold_left TicTacToe.makeMove [0; 1; 2; 4; 3; 5; 7; 6; 8]
                     (TicTacToe.init true) in
      TicTacToe.isTerminal drawn = true /\ TicTacToe.getWinner drawn = 0
      /\ TicTacToe.evaluate drawn = 0
      /\ evaluate_names_winner TicTacToe.game drawn)
  /\ (let won := fold_left Connect4.makeMove [0; 1; 0; 1; 0; 1; 0]
                   (Connect4.init false) in
      Connect4.isTerminal won = true /\ Connect4.getWinner won = AI
      /\ Connect4.evaluate won = 10
      /\ evaluate_names_winner Connect4.game won).
Proof.
  split; [| split]; cbv zeta; cbn [fold_left];
    (split; [reflexivity |]); (split; [reflexivity |]); (split; [reflexivity |]).
  - apply (proj1 evaluate_agrees_with_winner).
    repeat (apply TicTacToe.reach_move; [| vm_compute; tauto]).
    apply TicTacToe.reach_init.
  - apply (proj1 evaluate_agrees_with_winner).
    repeat (apply TicTacToe.reach_move; [| vm_compute; tauto]).
    apply TicTacToe.reach_init.
  - apply (proj1 (proj2 evaluate_agrees_with_winner)).
    repeat (apply Connect4.reach_move; [| vm_compute; tauto]).
    apply Connect4.reach_init.
Defined.

(** ** Connect 4: gravity and legal columns *)

(** C7: in Connect 4, [makeMove(col)] on a column that still has an empty
    cell writes [currentPlayer] into the lowest empty row of the column (and
    switches the side to move); [getAvailableMoves()] is the list of the
    columns 0..6 whose cell in row 0 is empty, in ascending order; six
    successive moves in an empty column fill rows 5, 4, 3, 2, 1, 0 in that
    order, the column being legal before each of them and not after the
    sixth. *)
Theorem connect4_gravity :
  (forall s col,
     grid 6 7 (Connect4.board s) -> 0 <= col < Connect4.BOARD_LENGTH ->
     (exists row, 0 <= row < Connect4.BOARD_HEIGHT
                  /\ cell (Connect4.board s) row col = EMPTY) ->
     exists row,
       0 <= row < Connect4.BOARD_HEIGHT
       /\ cell (Connect4.board s) row col = EMPTY
       /\ (forall r, row < r < Connect4.BOARD_HEIGHT ->
             cell (Connect4.board s) r col <> EMPTY)
       /\ Connect4.makeMove s col
          = {| Connect4.board :=
                 setCell (Connect4.board s) row col (Connect4.currentPlayer s);
               Connect4.currentPlayer := switchPlayer (Connect4.currentPlayer s) |}
       /\ cell (Connect4.board (Connect4.makeMove s col)) row col
          = Connect4.currentPlayer s)
  /\ (forall s,
        Connect4.getAvailableMoves s
        = List.filter (fun col => cell (Connect4.board s) 0 col =? EMPTY)
            [0; 1; 2; 3; 4; 5; 6])
  /\ (forall s col,
        grid 6 7 (Connect4.board s) ->
        Connect4.currentPlayer s = PLAYER \/ Connect4.currentPlayer s = AI ->
        0 <= col < Connect4.BOARD_LENGTH ->
        (forall row, 0 <= row < Connect4.BOARD_HEIGHT ->
           cell (Connect4.board s) row col = EMPTY) ->
        (forall n, (n < 6)%nat ->
           In col (Connect4.getAvailableMoves (Connect4.dropMany s col n))
           /\ Connect4.dropMany s col (S n)
              = {| Connect4.board :=
                     setCell (Connect4.board (Connect4.dropMany s col n))
                       (5 - Z.of_nat n) col
                       (Connect4.currentPlayer (Connect4.dropMany s col n));
                   Connect4.currentPlayer :=
                     switchPlayer (Connect4.currentPlayer (Connect4.dropMany s col n)) |})
        /\ (forall row, 0 <= row < Connect4.BOARD_HEIGHT ->
              cell (Connect4.board (Connect4.dropMany s col 6)) row col <> EMPTY)
        /\ ~ In col (Connect4.getAvailableMoves (Connect4.dropMany s col 6))).
Proof.
  split; [| split].
  - intros s col Hg Hc [row0 [Hrow0 He0]].
    destruct (Connect4.dropRow (Connect4.board s) col) as [row |] eqn:E.
    + pose proof (Connect4Facts.makeMove_at s col row E) as Hmove.
      apply Connect4Facts.dropRow_Some in E as (Hrow & He & Hfull).
      exists row. repeat split; try assumption; try lia.
      rewrite Hmove. simpl. unfold Connect4.BOARD_HEIGHT, Connect4.BOARD_LENGTH in *.
      apply (cell_setCell_eq 6 7); (assumption || lia).
    + now destruct (Connect4Facts.dropRow_None _ _ E row0 Hrow0).
  - exact Connect4Facts.moves_filter.
  - intros s col Hg Hp Hc Hempty.
    assert (H0 : Connect4.columnHeight (Connect4.board s) col 0).
    { split; intros r Hr; [apply Hempty |]; unfold Connect4.BOARD_HEIGHT in *; lia. }
    pose proof (Connect4Facts.dropMany_height s col Hg Hp Hc H0) as Hh.
    split; [| split].
    + intros n Hn. destruct (Hh n) as (Hgn & Hpn & Hhn); [lia |].
      split.
      * apply Connect4Facts.c4_moves_spec. split; [assumption |].
        apply (proj1 Hhn). unfold Connect4.BOARD_HEIGHT. lia.
      * assert (Hk : 0 <= Z.of_nat n < Connect4.BOARD_HEIGHT)
          by (unfold Connect4.BOARD_HEIGHT; lia).
        destruct (Connect4Facts.drop_step (Connect4.dropMany s col n) col (Z.of_nat n)
                    Hgn Hpn Hc Hk Hhn) as [Hmove _].
        cbn [Connect4.dropMany]. rewrite Hmove. unfold Connect4.BOARD_HEIGHT.
        replace (6 - 1 - Z.of_nat n) with (5 - Z.of_nat n) by lia. reflexivity.
    + intros row Hrow. destruct (Hh 6%nat) as (_ & _ & [_ Hfull]); [lia |].
      apply Hfull. unfold Connect4.BOARD_HEIGHT in *. lia.
    + intros Hin. apply Connect4Facts.c4_moves_spec in Hin as [_ He].
      destruct (Hh 6%nat) as (_ & _ & [_ Hfull]); [lia |].
      apply (Hfull 0); [unfold Connect4.BOARD_HEIGHT; lia | assumption].
Qed.

Lemma connect4_gravity_witness :
  exists row,
    0 <= row < Connect4.BOARD_HEIGHT
    /\ cell (Connect4.board (Connect4.init true)) row 3 = EMPTY
    /\ (forall r, row < r < Connect4.BOARD_HEIGHT ->
          cell (Connect4.board (Connect4.init true)) r 3 <> EMPTY)
    /\ Connect4.makeMove (Connect4.init true) 3
       = {| Connect4.board :=
              setCell (Connect4.board (Connect4.init true)) row 3
                (Connect4.currentPlayer (Connect4.init true));
            Connect4.currentPlayer :=
              switchPlayer (Connect4.currentPlayer (Connect4.init true)) |}
    /\ cell (Connect4.board (Connect4.makeMove (Connect4.init true) 3)) row 3
       = Connect4.currentPlayer (Connect4.init true).
Proof.
  apply (proj1 connect4_gravity).
  - exact (proj1 (Connect4Facts.c4_wf_init true)).
  - vm_compute. split; [discriminate | reflexivity].
  - exists 0. vm_compute. repeat split; discriminate.
Defined.

(** ** Connect 4: the winner *)


(** ** Tic-Tac-Toe: the winner and the end of the game *)

(** C9: [TicTacToe::getWinner] is the marker of a row, column or diagonal
    that holds three equal non-empty markers (the first such line in the
    order rows, columns, diagonal, anti-diagonal) and 0 when there is none;
    [isTerminal()] is true exactly when [getWinner()] is not 0 or no cell is
    empty.  A board whose top row is three PLAYER markers, the rest empty,
    has winner PLAYER; a full board without three in a row has winner 0 and
    is terminal. *)
Theorem tictactoe_winner_and_terminal :
  (forall s, TicTacToe.getWinner s = TicTacToe.lineWinner (TicTacToe.board s))
  /\ (forall s,
        TicTacToe.getWinner s <> 0 ->
        exists l, In l TicTacToe.lines
                  /\ TicTacToe.wins (TicTacToe.board s) l (TicTacToe.getWinner s))
  /\ (forall s,
        TicTacToe.getWinner s = 0
        <-> (forall l w, In l TicTacToe.lines -> ~ TicTacToe.wins (TicTacToe.board s) l w))
  /\ (forall s,
        TicTacToe.isTerminal s = true
        <-> TicTacToe.getWinner s <> 0 \/ TicTacToe.full (TicTacToe.board s))
  /\ (forall p,
        TicTacToe.getWinner
          {| TicTacToe.board :=
               [ [PLAYER; PLAYER; PLAYER]; [0; 0; 0]; [0; 0; 0] ];
             TicTacToe.currentPlayer := p |}
        = PLAYER)
  /\ (forall s,
        TicTacToe.full (TicTacToe.board s) ->
        (forall l w, In l TicTacToe.lines -> ~ TicTacToe.wins (TicTacToe.board s) l w) ->
        TicTacToe.getWinner s = 0 /\ TicTacToe.isTerminal s = true).
Proof.
  split; [| split; [| split; [| split; [| split]]]].
  - exact TicTacToeFacts.getWinner_lineWinner.
  - intros s. rewrite TicTacToeFacts.getWinner_lineWinner.
    apply TicTacToeFacts.lineWinner_wins.
  - intros s. rewrite TicTacToeFacts.getWinner_lineWinner.
    apply TicTacToeFacts.lineWinner_zero.
  - exact TicTacToeFacts.isTerminal_spec.
  - intros p. reflexivity.
  - intros s Hfull Hnone. split.
    + rewrite TicTacToeFacts.getWinner_lineWinner.
      now apply TicTacToeFacts.lineWinner_zero.
    + apply TicTacToeFacts.isTerminal_spec. now right.
Qed.

Lemma tictactoe_winner_and_terminal_witness :
  let s := {| TicTacToe.board := [ [1; -1; 1]; [1; -1; -1]; [-1; 1; 1] ];
              TicTacToe.currentPlayer := AI |} in
  TicTacToe.getWinner s = 0 /\ TicTacToe.isTerminal s = true.
Proof.
  apply (proj2 (proj2 (proj2 (proj2 (proj2 tictactoe_winner_and_terminal))))).
  - intros i j Hi Hj.
    assert (C : (i = 0 \/ i = 1 \/ i = 2) /\ (j = 0 \/ j = 1 \/ j = 2)) by lia.
    destruct C as [[-> | [-> | ->]] [-> | [-> | ->]]]; vm_compute; discriminate.
  - intros l w Hin Hwins.
    repeat (destruct Hin as [<- | Hin]); try destruct Hin;
      destruct Hwins as (Hw & Hp & Hq & Hr);
      vm_compute in Hp, Hq, Hr; congruence.
Defined.

(** * Further properties of the code *)

(** ** Boards: counting and independent writes *)

Lemma countCells_EMPTY (b : list (list Z)) : countCells EMPTY b = emptyCells b.
Proof. reflexivity. Qed.

Lemma count_row_insert (v : Z) (row : list Z) (j : nat) (old new : Z) :
  row !! j = Some old ->
  (length (List.filter (fun x => Z.eqb x v) (<[j := new]> row))
   + (if Z.eqb old v then 1 else 0)
   = length (List.filter (fun x => Z.eqb x v) row)
     + (if Z.eqb new v then 1 else 0))%nat.
Proof.
  revert j. induction row as [| x row IH]; intros [| j] Hj; simpl in *; try discriminate.
  - injection Hj as ->. destruct (old =? v), (new =? v); simpl; lia.
  - specialize (IH j Hj). destruct (x =? v); simpl; lia.
Qed.

Lemma countCells_setCell (h w : nat) (b : list (list Z)) (i j new v : Z) :
  grid h w b -> 0 <= i < Z.of_nat h -> 0 <= j < Z.of_nat w ->
  (countCells v (setCell b i j new) + (if Z.eqb (cell b i j) v then 1 else 0)
   = countCells v b + (if Z.eqb new v then 1 else 0))%nat.
Proof.
  intros [Hlen Hrows] Hi Hj.
  destruct (lookup_lt_is_Some_2 b (Z.to_nat i)) as [row Hrow]; [lia |].
  destruct (Forall_lookup_1 _ _ _ _ Hrows Hrow) as [Hw _].
  destruct (lookup_lt_is_Some_2 row (Z.to_nat j)) as [x Hx]; [lia |].
  rewrite cell_lookup, Hrow. simpl. rewrite Hx. simpl.
  unfold countCells, setCell. clear Hlen Hrows Hi Hj Hw.
  revert b Hrow. generalize (Z.to_nat i) as n.
  induction n as [| n IH]; intros [| r b] Hrow; simpl in *; try discriminate.
  - injection Hrow as ->.
    rewrite !List.filter_app, !length_app.
    pose proof (count_row_insert v row (Z.to_nat j) x new Hx). lia.
  - rewrite !List.filter_app, !length_app.
    specialize (IH b Hrow).
    change (list_alter (fun row0 : list Z => <[Z.to_nat j := new]> row0) n b)
      with (alter (fun row0 : list Z => <[Z.to_nat j := new]> row0) n b).
    lia.
Qed.

Lemma setCell_commute (b : list (list Z)) (i j i' j' v v' : Z) :
  0 <= i -> 0 <= j -> 0 <= i' -> 0 <= j' -> i <> i' \/ j <> j' ->
  setCell (setCell b i j v) i' j' v' = setCell (setCell b i' j' v') i j v.
Proof.
  intros Hi Hj Hi' Hj' Hne. unfold setCell.
  destruct (decide (Z.to_nat i = Z.to_nat i')) as [E | N].
  - rewrite E, !list_alter_alter_eq.
    apply list_alter_ext; [| reflexivity].
    intros row _. simpl. apply list_insert_insert_ne. lia.
  - now rewrite list_alter_alter_ne by auto.
Qed.

Lemma grid_3_3 (b : list (list Z)) :
  grid 3 3 b ->
  exists x0 x1 x2 x3 x4 x5 x6 x7 x8,
    b = [[x0; x1; x2]; [x3; x4; x5]; [x6; x7; x8]].
Proof.
  intros [Hlen Hrows].
  destruct b as [| r0 [| r1 [| r2 [| ? ?]]]]; try discriminate.
  inversion Hrows as [| ? ? [H0 _] Hrows1]; subst.
  inversion Hrows1 as [| ? ? [H1 _] Hrows2]; subst.
  inversion Hrows2 as [| ? ? [H2 _] _]; subst.
  destruct r0 as [| ? [| ? [| ? [| ? ?]]]]; try discriminate.
  destruct r1 as [| ? [| ? [| ? [| ? ?]]]]; try discriminate.
  destruct r2 as [| ? [| ? [| ? [| ? ?]]]]; try discriminate.
  eauto 10.
Qed.

(** ** The moves listed *)

Lemma nested_moves_filter (p : Z -> Z -> bool) :
  flat_map (fun i => flat_map (fun j => if p i j then [i * 3 + j] else []) [0; 1; 2])
           [0; 1; 2]
  = List.filter (fun m => p (m ÷ 3) (Z.rem m 3)) [0; 1; 2; 3; 4; 5; 6; 7; 8].
Proof.
  cbv.
  destruct (p 0 0), (p 0 1), (p 0 2), (p 1 0), (p 1 1), (p 1 2),
    (p 2 0), (p 2 1), (p 2 2); reflexivity.
Qed.

Lemma nine_cells_count (p : Z -> Z -> bool) (q : Z -> bool)
  (x0 x1 x2 x3 x4 x5 x6 x7 x8 : Z) :
  p 0 0 = q x0 -> p 0 1 = q x1 -> p 0 2 = q x2 ->
  p 1 0 = q x3 -> p 1 1 = q x4 -> p 1 2 = q x5 ->
  p 2 0 = q x6 -> p 2 1 = q x7 -> p 2 2 = q x8 ->
  length (List.filter (fun m => p (m ÷ 3) (Z.rem m 3)) [0; 1; 2; 3; 4; 5; 6; 7; 8])
  = length (List.filter q [x0; x1; x2; x3; x4; x5; x6; x7; x8]).
Proof.
  intros H0 H1 H2 H3 H4 H5 H6 H7 H8.
  cbv [List.filter Z.quot Z.rem Z.quotrem Z.sgn Z.abs N.pos_div_eucl
       Z.of_N Z.mul Pos.mul fst snd Z.to_N Z.opp].
  cbv in H0, H1, H2, H3, H4, H5, H6, H7, H8 |- *.
  rewrite H0, H1, H2, H3, H4, H5, H6, H7, H8.
  destruct (q x0), (q x1), (q x2), (q x3), (q x4), (q x5), (q x6), (q x7), (q x8);
    reflexivity.
Qed.

Lemma ttt_moves_filter (s : TicTacToe.State) :
  TicTacToe.getAvailableMoves s
  = List.filter
      (fun m => cell (TicTacToe.board s) (m ÷ 3) (Z.rem m 3) =? EMPTY)
      [0; 1; 2; 3; 4; 5; 6; 7; 8].
Proof.
  unfold TicTacToe.getAvailableMoves.
  change (range TicTacToe.BOARD_SIZE) with [0; 1; 2].
  change TicTacToe.BOARD_SIZE with 3.
  exact (nested_moves_filter (fun i j => cell (TicTacToe.board s) i j =? EMPTY)).
Qed.

Lemma ttt_moves_length (s : TicTacToe.State) :
  grid 3 3 (TicTacToe.board s) ->
  length (TicTacToe.getAvailableMoves s) = emptyCells (TicTacToe.board s).
Proof.
  intros Hg. rewrite ttt_moves_filter.
  destruct (grid_3_3 _ Hg) as (x0 & x1 & x2 & x3 & x4 & x5 & x6 & x7 & x8 & ->).
  exact (nine_cells_count
           (fun i j => cell [[x0; x1; x2]; [x3; x4; x5]; [x6; x7; x8]] i j =? EMPTY)
           (fun x => x =? EMPTY) x0 x1 x2 x3 x4 x5 x6 x7 x8
           eq_refl eq_refl eq_refl eq_refl eq_refl eq_refl eq_refl eq_refl eq_refl).
Qed.

(** X1: [TicTacToe::getAvailableMoves] lists the indices 0..8 of the empty
    cells in ascending (row-major) order, each once; on a 3 x 3 board there
    are as many moves as empty cells. *)
Theorem tictactoe_moves_enumerate_empty_cells (s : TicTacToe.State) :
  TicTacToe.getAvailableMoves s
  = List.filter
      (fun m => cell (TicTacToe.board s) (m ÷ 3) (Z.rem m 3) =? EMPTY)
      [0; 1; 2; 3; 4; 5; 6; 7; 8]
  /\ List.NoDup (TicTacToe.getAvailableMoves s)
  /\ (grid 3 3 (TicTacToe.board s) ->
      length (TicTacToe.getAvailableMoves s) = emptyCells (TicTacToe.board s)).
Proof.
  split; [apply ttt_moves_filter |]. split; [| apply ttt_moves_length].
  rewrite ttt_moves_filter. apply List.NoDup_filter.
  repeat constructor; simpl; intuition discriminate.
Qed.

Lemma tictactoe_moves_enumerate_empty_cells_witness :
  length (TicTacToe.getAvailableMoves (TicTacToe.makeMove (TicTacToe.init true) 4))
  = emptyCells (TicTacToe.board (TicTacToe.makeMove (TicTacToe.init true) 4)).
Proof.
  apply (proj2 (proj2 (tictactoe_moves_enumerate_empty_cells _))).
  apply TicTacToeFacts.ttt_wf_makeMove; [apply TicTacToeFacts.ttt_wf_init |].
  vm_compute. tauto.
Defined.

(** X2: [SticksGame::getAvailableMoves] lists, in ascending order, those of
    1, 2, 3 that do not exceed [remainingSticks]: min(3, remainingSticks)
    moves, none when no stick is left or the count is negative. *)
Theorem sticks_moves_enumerate (s : SticksGame.State) :
  SticksGame.getAvailableMoves s
  = List.filter (fun n => n <=? SticksGame.remainingSticks s) [1; 2; 3]
  /\ Z.of_nat (length (SticksGame.getAvailableMoves s))
     = Z.min 3 (Z.max 0 (SticksGame.remainingSticks s)).
Proof.
  unfold SticksGame.getAvailableMoves.
  generalize (SticksGame.remainingSticks s) as r. intros r. simpl.
  destruct (Z.leb_spec 1 r); simpl;
    [destruct (Z.leb_spec 2 r); simpl;
     [destruct (Z.leb_spec 3 r); simpl |] |];
    repeat match goal with
           | |- context [?a <=? r] => destruct (Z.leb_spec a r); try lia
           end; simpl; split; (reflexivity || lia).
Qed.

(** ** What a move writes *)

Lemma quot_rem_nonneg (m : Z) : 0 <= m -> 0 <= m ÷ 3 /\ 0 <= Z.rem m 3.
Proof.
  intros H. split; [apply Z.quot_pos; lia | apply Z.rem_nonneg; lia].
Qed.

Lemma c4_gravity_full_column (s : Connect4.State) (col : Z) :
  Connect4.wf s -> 0 <= col < Connect4.BOARD_LENGTH ->
  cell (Connect4.board s) 0 col <> EMPTY ->
  forall row, 0 <= row < Connect4.BOARD_HEIGHT ->
    cell (Connect4.board s) row col <> EMPTY.
Proof.
  intros (_ & Hgrav & _) Hc Htop row Hrow He.
  apply Htop.
  apply (Connect4Facts.gravity_above (Connect4.board s) col row); try assumption; lia.
Qed.

(** X3: [makeMove] of Tic-Tac-Toe (any argument) and of Connect 4 (any column
    in range) never changes an occupied cell.  On a board of markers, a move
    that [checkInput] accepts fills exactly one empty cell, and in a
    reachable Connect 4 state a column that [checkInput] refuses is full, so
    that [makeMove] on it changes nothing. *)
Theorem makeMove_fills_one_empty_cell :
  (forall (s : TicTacToe.State) (m : Z),
     (forall i j, 0 <= i -> 0 <= j ->
        cell (TicTacToe.board s) i j <> EMPTY ->
        cell (TicTacToe.board (TicTacToe.makeMove s m)) i j
        = cell (TicTacToe.board s) i j)
     /\ (TicTacToe.wf s -> TicTacToe.checkInput s m = true ->
         S (emptyCells (TicTacToe.board (TicTacToe.makeMove s m)))
         = emptyCells (TicTacToe.board s)))
  /\ (forall (s : Connect4.State) (col : Z),
        0 <= col < Connect4.BOARD_LENGTH ->
        (forall i j, 0 <= i -> 0 <= j ->
           cell (Connect4.board s) i j <> EMPTY ->
           cell (Connect4.board (Connect4.makeMove s col)) i j
           = cell (Connect4.board s) i j)
        /\ (Connect4.wf s -> Connect4.checkInput s col = true ->
            S (emptyCells (Connect4.board (Connect4.makeMove s col)))
            = emptyCells (Connect4.board s))
        /\ (Connect4.wf s -> Connect4.checkInput s col = false ->
            Connect4.makeMove s col = s)).
Proof.
  split.
  - intros s m. split.
    + intros i j Hi Hj Hocc. unfold TicTacToe.makeMove.
      change TicTacToe.BOARD_SIZE with 3.
      destruct (Z.geb_spec m 0); [| reflexivity].
      destruct (Z.ltb_spec m (3 * 3)); [| reflexivity].
      destruct (Z.eqb_spec (cell (TicTacToe.board s) (m ÷ 3) (Z.rem m 3)) EMPTY)
        as [He |]; [| reflexivity].
      simpl. destruct (quot_rem_nonneg m) as [Hq Hr]; [lia |].
      apply cell_setCell_ne; try assumption.
      destruct (Z.eq_dec (m ÷ 3) i) as [<- |]; [| now left].
      destruct (Z.eq_dec (Z.rem m 3) j) as [<- |]; [| now right].
      contradiction.
    + intros Hwf Hc. apply TicTacToeFacts.ttt_checkInput_spec in Hc.
      now apply TicTacToeFacts.rank_makeMove.
  - intros s col Hc. split; [| split].
    + intros i j Hi Hj Hocc. unfold Connect4.makeMove.
      destruct (Connect4.dropRow (Connect4.board s) col) as [row |] eqn:E;
        [| reflexivity].
      apply Connect4Facts.dropRow_Some in E as (Hrow & He & _). simpl.
      apply cell_setCell_ne; try assumption; try lia.
      destruct (Z.eq_dec row i) as [<- |]; [| now left].
      destruct (Z.eq_dec col j) as [<- |]; [| now right].
      contradiction.
    + intros (Hg & _ & Hp) Hin. apply Connect4Facts.c4_checkInput_spec in Hin.
      destruct (Connect4Facts.dropRow_legal s col Hin) as [row Hdrop].
      rewrite (Connect4Facts.makeMove_at s col row Hdrop). simpl.
      apply Connect4Facts.dropRow_Some in Hdrop as (Hrow & He & _).
      unfold Connect4.BOARD_HEIGHT, Connect4.BOARD_LENGTH in *.
      apply (emptyCells_setCell 6 7); try assumption; try lia.
      now apply side_marker.
    + intros Hwf Hno. unfold Connect4.checkInput in Hno.
      replace (col >=? 0) with true in Hno by (symmetry; apply Z.geb_le; lia).
      replace (col <? Connect4.BOARD_LENGTH) with true in Hno
        by (symmetry; apply Z.ltb_lt; lia).
      simpl in Hno. apply Z.eqb_neq in Hno.
      unfold Connect4.makeMove.
      destruct (Connect4.dropRow (Connect4.board s) col) as [row |] eqn:E;
        [| reflexivity].
      apply Connect4Facts.dropRow_Some in E as (Hrow & He & _).
      now destruct (c4_gravity_full_column s col Hwf Hc Hno row Hrow).
Qed.

Lemma makeMove_fills_one_empty_cell_witness :
  S (emptyCells (Connect4.board (Connect4.makeMove (Connect4.init false) 2)))
  = emptyCells (Connect4.board (Connect4.init false)).
Proof.
  assert (Hc : 0 <= 2 < Connect4.BOARD_LENGTH)
    by (vm_compute; split; [discriminate | reflexivity]).
  apply (proj1 (proj2 (proj2 makeMove_fills_one_empty_cell (Connect4.init false) 2 Hc))).
  - apply Connect4Facts.c4_wf_init.
  - reflexivity.
Defined.

(** ** Taking back a move that was not made *)

(** X4: [TicTacToe::undoMove] with an index outside 0..8 or of an empty cell
    changes nothing; with the index of an occupied cell it empties the cell
    and switches the side to move, whoever owns the marker.
    [Connect4::undoMove] on a column in range without a marker changes
    nothing; otherwise it empties the topmost occupied cell of the column and
    switches the side to move. *)
Theorem undoMove_edge_cases :
  (forall (s : TicTacToe.State) (m : Z),
     ~ (0 <= m <= 8) \/ cell (TicTacToe.board s) (m ÷ 3) (Z.rem m 3) = EMPTY ->
     TicTacToe.undoMove s m = s)
  /\ (forall (s : TicTacToe.State) (m : Z),
        grid 3 3 (TicTacToe.board s) -> 0 <= m <= 8 ->
        cell (TicTacToe.board s) (m ÷ 3) (Z.rem m 3) <> EMPTY ->
        TicTacToe.currentPlayer (TicTacToe.undoMove s m)
        = switchPlayer (TicTacToe.currentPlayer s)
        /\ cell (TicTacToe.board (TicTacToe.undoMove s m)) (m ÷ 3) (Z.rem m 3) = EMPTY
        /\ emptyCells (TicTacToe.board (TicTacToe.undoMove s m))
           = S (emptyCells (TicTacToe.board s)))
  /\ (forall (s : Connect4.State) (col : Z),
        0 <= col < Connect4.BOARD_LENGTH ->
        (forall row, 0 <= row < Connect4.BOARD_HEIGHT ->
           cell (Connect4.board s) row col = EMPTY) ->
        Connect4.undoMove s col = s)
  /\ (forall (s : Connect4.State) (col : Z),
        0 <= col < Connect4.BOARD_LENGTH ->
        (exists row, 0 <= row < Connect4.BOARD_HEIGHT
                     /\ cell (Connect4.board s) row col <> EMPTY) ->
        exists row,
          0 <= row < Connect4.BOARD_HEIGHT
          /\ cell (Connect4.board s) row col <> EMPTY
          /\ (forall r, 0 <= r < row -> cell (Connect4.board s) r col = EMPTY)
          /\ Connect4.undoMove s col
             = {| Connect4.board := setCell (Connect4.board s) row col EMPTY;
                  Connect4.currentPlayer := switchPlayer (Connect4.currentPlayer s) |}).
Proof.
  split; [| split; [| split]].
  - intros s m H. unfold TicTacToe.undoMove.
    change TicTacToe.BOARD_SIZE with 3.
    destruct (Z.geb_spec m 0); [| reflexivity].
    destruct (Z.ltb_spec m (3 * 3)); [| reflexivity].
    destruct (Z.eqb_spec (cell (TicTacToe.board s) (m ÷ 3) (Z.rem m 3)) EMPTY);
      [reflexivity |].
    simpl. destruct H as [H | H]; [lia | contradiction].
  - intros s m Hg Hm Hocc.
    destruct (TicTacToeFacts.cellIndex_bounds m) as (Hq & Hr & _); [lia |].
    change TicTacToe.BOARD_SIZE with 3 in Hq, Hr.
    unfold TicTacToe.undoMove. change TicTacToe.BOARD_SIZE with 3.
    replace (m >=? 0) with true by (symmetry; apply Z.geb_le; lia).
    replace (m <? 3 * 3) with true by (symmetry; apply Z.ltb_lt; lia).
    destruct (Z.eqb_spec (cell (TicTacToe.board s) (m ÷ 3) (Z.rem m 3)) EMPTY);
      [contradiction |].
    simpl. split; [reflexivity |]. split.
    + apply (cell_setCell_eq 3 3); (assumption || lia).
    + pose proof (countCells_setCell 3 3 (TicTacToe.board s) (m ÷ 3) (Z.rem m 3)
                    EMPTY EMPTY Hg) as Hcount.
      specialize (Hcount ltac:(lia) ltac:(lia)).
      destruct (Z.eqb_spec (cell (TicTacToe.board s) (m ÷ 3) (Z.rem m 3)) EMPTY);
        [contradiction |].
      change (EMPTY =? EMPTY) with true in Hcount.
      unfold emptyCells. unfold countCells in Hcount. lia.
  - intros s col Hc Hempty. unfold Connect4.undoMove.
    destruct (Connect4.topRow (Connect4.board s) col) as [row |] eqn:E;
      [| reflexivity].
    apply Connect4Facts.topRow_Some in E as (Hrow & Hocc & _).
    now destruct Hocc; apply Hempty.
  - intros s col Hc [row0 [Hrow0 Hocc0]]. unfold Connect4.undoMove.
    destruct (Connect4.topRow (Connect4.board s) col) as [row |] eqn:E.
    + apply Connect4Facts.topRow_Some in E as (Hrow & Hocc & Habove).
      exists row. repeat split; try assumption; lia.
    + now destruct Hocc0; apply (Connect4Facts.topRow_None _ _ E).
Qed.

Lemma undoMove_edge_cases_witness :
  TicTacToe.undoMove (TicTacToe.init true) 4 = TicTacToe.init true
  /\ Connect4.undoMove (Connect4.init true) 0 = Connect4.init true.
Proof.
  split.
  - apply (proj1 undoMove_edge_cases). right. reflexivity.
  - apply (proj1 (proj2 (proj2 undoMove_edge_cases))).
    + vm_compute. split; [discriminate | reflexivity].
    + intros row Hrow. unfold Connect4.BOARD_HEIGHT in Hrow.
      assert (C : row = 0 \/ row = 1 \/ row = 2 \/ row = 3 \/ row = 4 \/ row = 5) by lia.
      destruct C as [-> | [-> | [-> | [-> | [-> | ->]]]]]; reflexivity.
Defined.

(** X5: in the sticks game [undoMove(n)] after [makeMove(n)] gives back the
    stick count for every integer [n], legal or not, whenever the count is an
    [int]; the side to move comes back when it was PLAYER or AI. *)
Theorem sticks_undo_any_argument (s : SticksGame.State) (n : Z) :
  INT_MIN <= SticksGame.remainingSticks s <= INT_MAX ->
  SticksGame.remainingSticks (SticksGame.undoMove (SticksGame.makeMove s n) n)
  = SticksGame.remainingSticks s
  /\ (SticksGame.currentPlayer s = PLAYER \/ SticksGame.currentPlayer s = AI ->
      SticksGame.undoMove (SticksGame.makeMove s n) n = s).
Proof.
  intros Hr.
  assert (E : wrap (wrap (SticksGame.remainingSticks s - n) + n)
              = SticksGame.remainingSticks s).
  { unfold wrap, INT_MIN, INT_MAX in *.
    Z.to_euclidean_division_equations. lia. }
  split; [exact E |].
  intros Hp. destruct s as [p r]. unfold SticksGame.undoMove, SticksGame.makeMove.
  simpl in *. rewrite E, switchPlayer_twice by assumption. reflexivity.
Qed.

Lemma sticks_undo_any_argument_witness :
  SticksGame.undoMove (SticksGame.makeMove (SticksGame.init true) 25) 25
  = SticksGame.init true.
Proof.
  apply (proj2 (sticks_undo_any_argument (SticksGame.init true) 25
                  ltac:(vm_compute; split; discriminate))).
  left. reflexivity.
Defined.

(** ** What the states of a match look like *)

Lemma c4_moves_nil_full (s : Connect4.State) :
  Connect4.wf s ->
  (Connect4.getAvailableMoves s = []
   <-> forall row col,
         0 <= row < Connect4.BOARD_HEIGHT -> 0 <= col < Connect4.BOARD_LENGTH ->
         cell (Connect4.board s) row col <> EMPTY).
Proof.
  intros Hwf. split.
  - intros Hnil row col Hrow Hcol.
    apply (c4_gravity_full_column s col Hwf Hcol); [| assumption].
    intros He.
    assert (Hin : In col (Connect4.getAvailableMoves s))
      by (apply Connect4Facts.c4_moves_spec; auto).
    rewrite Hnil in Hin. destruct Hin.
  - intros Hfull. destruct (Connect4.getAvailableMoves s) as [| m ms] eqn:E;
      [reflexivity |].
    assert (Hin : In m (Connect4.getAvailableMoves s)) by (rewrite E; now left).
    apply Connect4Facts.c4_moves_spec in Hin as [Hm He].
    destruct (Hfull 0 m); [unfold Connect4.BOARD_HEIGHT; lia | assumption | assumption].
Qed.

(** X6: every reachable state of Connect 4 has a 6 x 7 board that holds only
    the markers 0, 1, -1 and obeys gravity (no marker above an empty cell),
    and PLAYER or AI to move.  Hence a column is a legal move exactly when it
    has an empty cell, and [isTerminal()] holds exactly when [getWinner()] is
    not 0 or all 42 cells are occupied. *)
Theorem connect4_reachable_invariant (s : Connect4.State) :
  Connect4.reachable s ->
  grid 6 7 (Connect4.board s)
  /\ Connect4.gravity (Connect4.board s)
  /\ (Connect4.currentPlayer s = PLAYER \/ Connect4.currentPlayer s = AI)
  /\ (forall col,
        In col (Connect4.getAvailableMoves s)
        <-> 0 <= col < Connect4.BOARD_LENGTH
            /\ exists row, 0 <= row < Connect4.BOARD_HEIGHT
                           /\ cell (Connect4.board s) row col = EMPTY)
  /\ (Connect4.isTerminal s = true
      <-> Connect4.getWinner s <> 0
          \/ forall row col,
               0 <= row < Connect4.BOARD_HEIGHT -> 0 <= col < Connect4.BOARD_LENGTH ->
               cell (Connect4.board s) row col <> EMPTY).
Proof.
  intros Hr. apply Connect4Facts.c4_reachable_wf in Hr.
  pose proof Hr as (Hg & Hgrav & Hp).
  split; [assumption |]. split; [assumption |]. split; [assumption |]. split.
  - intros col. rewrite Connect4Facts.c4_moves_spec. split.
    + intros [Hc He]. split; [assumption |].
      exists 0. unfold Connect4.BOARD_HEIGHT. split; [lia | assumption].
    + intros [Hc [row [Hrow He]]]. split; [assumption |].
      destruct (Z.eq_dec (cell (Connect4.board s) 0 col) EMPTY) as [| Hne];
        [assumption |].
      now destruct (c4_gravity_full_column s col Hr Hc Hne row Hrow).
  - unfold Connect4.isTerminal.
    rewrite orb_true_iff, negb_true_iff, Z.eqb_neq, bool_decide_eq_true.
    now rewrite (c4_moves_nil_full s Hr).
Qed.

Lemma connect4_reachable_invariant_witness :
  Connect4.gravity (Connect4.board (Connect4.makeMove (Connect4.init true) 3)).
Proof.
  apply (connect4_reachable_invariant (Connect4.makeMove (Connect4.init true) 3)).
  apply Connect4.reach_move; [apply Connect4.reach_init |].
  vm_compute. tauto.
Defined.

(** X7: every reachable state of the sticks game has between 0 and 21
    sticks and PLAYER or AI to move; it is terminal exactly when no stick is
    left, and then [getWinner()] is the side to move, never 0: a match that
    has ended is never reported as a draw.  A legal move can only make the
    side that did not move the winner. *)
Theorem sticks_reachable_invariant (s : SticksGame.State) :
  SticksGame.reachable s ->
  0 <= SticksGame.remainingSticks s <= 21
  /\ (SticksGame.currentPlayer s = PLAYER \/ SticksGame.currentPlayer s = AI)
  /\ (SticksGame.isTerminal s = true <-> SticksGame.remainingSticks s = 0)
  /\ (SticksGame.isTerminal s = true <-> SticksGame.getAvailableMoves s = [])
  /\ (SticksGame.isTerminal s = true ->
      SticksGame.getWinner s = SticksGame.currentPlayer s
      /\ SticksGame.getWinner s <> 0)
  /\ (forall m, In m (SticksGame.getAvailableMoves s) ->
        SticksGame.getWinner (SticksGame.makeMove s m) = 0
        \/ SticksGame.getWinner (SticksGame.makeMove s m)
           = switchPlayer (SticksGame.currentPlayer s)).
Proof.
  intros Hr. apply SticksFacts.sticks_reachable_wf in Hr.
  destruct Hr as [Hp Hrange]. unfold SticksGame.STICKS_NUMBER in Hrange.
  assert (Hterm : SticksGame.isTerminal s = true <-> SticksGame.remainingSticks s = 0).
  { unfold SticksGame.isTerminal. rewrite Z.leb_le. lia. }
  split; [assumption |]. split; [assumption |]. split; [assumption |].
  split; [| split].
  - rewrite Hterm. split.
    + intros H0. destruct (SticksGame.getAvailableMoves s) as [| m ms] eqn:E;
        [reflexivity |].
      assert (Hin : In m (SticksGame.getAvailableMoves s)) by (rewrite E; now left).
      apply SticksFacts.sticks_moves_spec in Hin. lia.
    + intros Hnil.
      destruct (Z.eq_dec (SticksGame.remainingSticks s) 0) as [| Hne]; [assumption |].
      assert (Hin : In 1 (SticksGame.getAvailableMoves s))
        by (apply SticksFacts.sticks_moves_spec; lia).
      rewrite Hnil in Hin. destruct Hin.
  - intros Ht. apply Hterm in Ht. unfold SticksGame.getWinner. rewrite Ht. simpl.
    unfold PLAYER, AI in *. destruct Hp as [-> | ->]; simpl; split; (reflexivity || lia).
  - intros m Hm. unfold SticksGame.getWinner. simpl.
    destruct (wrap (SticksGame.remainingSticks s - m) =? 0); [right | now left].
    unfold PLAYER, AI in *. destruct Hp as [-> | ->]; reflexivity.
Qed.

Lemma sticks_reachable_invariant_witness :
  0 <= SticksGame.remainingSticks (SticksGame.makeMove (SticksGame.init true) 3) <= 21.
Proof.
  apply (sticks_reachable_invariant (SticksGame.makeMove (SticksGame.init true) 3)).
  apply SticksGame.reach_move; [apply SticksGame.reach_init |].
  vm_compute. tauto.
Defined.

(** *** The two sides alternate *)

Lemma alternating_step (h w cells : nat) (b : list (list Z)) (i j p : Z) :
  grid h w b -> 0 <= i < Z.of_nat h -> 0 <= j < Z.of_nat w ->
  cell b i j = EMPTY -> p = PLAYER \/ p = AI ->
  alternating cells b p ->
  alternating cells (setCell b i j p) (switchPlayer p).
Proof.
  intros Hg Hi Hj He Hp [Halt Hsum].
  pose proof (countCells_setCell h w b i j p PLAYER Hg Hi Hj) as HP.
  pose proof (countCells_setCell h w b i j p AI Hg Hi Hj) as HA.
  pose proof (countCells_setCell h w b i j p EMPTY Hg Hi Hj) as HE.
  rewrite He in HP, HA, HE. rewrite !countCells_EMPTY in HE.
  unfold alternating. rewrite switchPlayer_twice by assumption.
  destruct Hp as [-> | ->];
    change (switchPlayer PLAYER) with AI in *;
    change (switchPlayer AI) with PLAYER in *;
    change (EMPTY =? PLAYER) with false in *; change (EMPTY =? AI) with false in *;
    change (EMPTY =? EMPTY) with true in *;
    change (PLAYER =? PLAYER) with true in *; change (PLAYER =? AI) with false in *;
    change (PLAYER =? EMPTY) with false in *;
    change (AI =? PLAYER) with false in *; change (AI =? AI) with true in *;
    change (AI =? EMPTY) with false in *;
    change (countCells EMPTY b) with (emptyCells b) in *;
    cbv beta iota in HP, HA, HE;
    lia.
Qed.

(** X8: in every reachable state of Tic-Tac-Toe and of Connect 4 the side to
    move has as many markers on the board as the other side or one less, and
    the markers of the two sides and the empty cells add up to the 9, resp.
    42, cells of the board. *)
Theorem sides_alternate :
  (forall s, TicTacToe.reachable s ->
     alternating 9 (TicTacToe.board s) (TicTacToe.currentPlayer s))
  /\ (forall s, Connect4.reachable s ->
        alternating 42 (Connect4.board s) (Connect4.currentPlayer s)).
Proof.
  split.
  - induction 1 as [u | s m Hr IH].
    + destruct u; vm_compute; repeat split; lia.
    + apply TicTacToeFacts.ttt_reachable_wf in Hr. destruct Hr as [Hg Hp].
      rewrite (TicTacToeFacts.makeMove_legal s m H). simpl.
      apply TicTacToeFacts.ttt_moves_spec in H as [Hm He].
      destruct (TicTacToeFacts.cellIndex_bounds m Hm) as (Hq & Hrm & _).
      apply (alternating_step 3 3); (assumption || lia).
  - induction 1 as [u | s m Hr IH].
    + destruct u; vm_compute; repeat split; lia.
    + apply Connect4Facts.c4_reachable_wf in Hr. destruct Hr as (Hg & _ & Hp).
      destruct (Connect4Facts.dropRow_legal s m H) as [row Hdrop].
      rewrite (Connect4Facts.makeMove_at s m row Hdrop). simpl.
      apply Connect4Facts.c4_moves_spec in H as [Hm _].
      apply Connect4Facts.dropRow_Some in Hdrop as (Hrow & He & _).
      unfold Connect4.BOARD_HEIGHT, Connect4.BOARD_LENGTH in *.
      apply (alternating_step 6 7); (assumption || lia).
Qed.

Lemma sides_alternate_witness :
  alternating 9 (TicTacToe.board (TicTacToe.makeMove (TicTacToe.init false) 0))
    (TicTacToe.currentPlayer (TicTacToe.makeMove (TicTacToe.init false) 0)).
Proof.
  apply (proj1 sides_alternate).
  apply TicTacToe.reach_move; [apply TicTacToe.reach_init |].
  vm_compute. tauto.
Defined.

(** ** Who can win by a move *)

Lemma cell_setCell_cases (h w : nat) (b : list (list Z)) (i j p qi qj : Z) :
  grid h w b -> 0 <= i < Z.of_nat h -> 0 <= j < Z.of_nat w ->
  0 <= qi -> 0 <= qj ->
  cell (setCell b i j p) qi qj = p
  \/ cell (setCell b i j p) qi qj = cell b qi qj.
Proof.
  intros Hg Hi Hj Hqi Hqj.
  destruct (Z.eq_dec i qi) as [<- | Hn1].
  - destruct (Z.eq_dec j qj) as [<- | Hn2].
    + left. now apply (cell_setCell_eq h w).
    + right. apply cell_setCell_ne; auto; lia.
  - right. apply cell_setCell_ne; auto; lia.
Qed.

Lemma ttt_winner_after_move (s : TicTacToe.State) (m : Z) :
  TicTacToe.wf s -> TicTacToe.getWinner s = 0 ->
  In m (TicTacToe.getAvailableMoves s) ->
  TicTacToe.getWinner (TicTacToe.makeMove s m) = 0
  \/ TicTacToe.getWinner (TicTacToe.makeMove s m) = TicTacToe.currentPlayer s.
Proof.
  intros [Hg Hp] Hnone Hm.
  destruct (Z.eq_dec (TicTacToe.getWinner (TicTacToe.makeMove s m)) 0) as [| Hw];
    [now left | right].
  rewrite TicTacToeFacts.getWinner_lineWinner in Hnone, Hw |- *.
  apply TicTacToeFacts.lineWinner_wins in Hw as (l & Hin & Hwins).
  pose proof (proj1 (TicTacToeFacts.lineWinner_zero _) Hnone l) as Hold.
  rewrite (TicTacToeFacts.makeMove_legal s m Hm) in Hwins |- *. simpl in Hwins |- *.
  apply TicTacToeFacts.ttt_moves_spec in Hm as [Hm He].
  destruct (TicTacToeFacts.cellIndex_bounds m Hm) as (Hq & Hr & _).
  set (b' := setCell (TicTacToe.board s) (m ÷ TicTacToe.BOARD_SIZE)
               (Z.rem m TicTacToe.BOARD_SIZE) (TicTacToe.currentPlayer s)) in *.
  set (w := TicTacToe.lineWinner b') in *.
  assert (Hcase : forall qi qj, 0 <= qi -> 0 <= qj ->
            cell b' qi qj = TicTacToe.currentPlayer s
            \/ cell b' qi qj = cell (TicTacToe.board s) qi qj).
  { intros qi qj Hqi Hqj. apply (cell_setCell_cases 3 3); (assumption || lia). }
  specialize (Hold w Hin).
  repeat (destruct Hin as [<- | Hin]); try destruct Hin;
    destruct Hwins as (Hw0 & H1 & H2 & H3); cbn [fst snd] in *;
    match type of H1 with cell _ ?a ?b = _ =>
      destruct (Hcase a b ltac:(lia) ltac:(lia)) as [E1 | E1]; [congruence |] end;
    match type of H2 with cell _ ?a ?b = _ =>
      destruct (Hcase a b ltac:(lia) ltac:(lia)) as [E2 | E2]; [congruence |] end;
    match type of H3 with cell _ ?a ?b = _ =>
      destruct (Hcase a b ltac:(lia) ltac:(lia)) as [E3 | E3]; [congruence |] end;
    exfalso; apply Hold; unfold TicTacToe.wins; cbn [fst snd];
    repeat split; congruence.
Qed.

Lemma scanOrder_bounds (row col : Z) (dir : Z * Z) :
  In (row, col, dir) Connect4.scanOrder ->
  0 <= row < Connect4.BOARD_HEIGHT /\ 0 <= col < Connect4.BOARD_LENGTH.
Proof.
  unfold Connect4.scanOrder. intros H.
  apply in_flat_map in H as (r & Hr & H).
  apply in_flat_map in H as (c & Hc & H).
  apply in_map_iff in H as (d & E & _). injection E as -> -> ->.
  change (range Connect4.BOARD_HEIGHT) with [0; 1; 2; 3; 4; 5] in Hr.
  change (range Connect4.BOARD_LENGTH) with [0; 1; 2; 3; 4; 5; 6] in Hc.
  unfold Connect4.BOARD_HEIGHT, Connect4.BOARD_LENGTH. simpl in Hr, Hc. lia.
Qed.

Lemma firstRunWinner_first (b : list (list Z)) :
  Connect4.firstRunWinner b <> 0 ->
  exists row col dir,
    In (row, col, dir) Connect4.scanOrder
    /\ Connect4.run4 b row col dir = true
    /\ Connect4.firstRunWinner b = cell b row col.
Proof.
  unfold Connect4.firstRunWinner.
  destruct (List.find _ Connect4.scanOrder) as [[[row col] dir] |] eqn:Hf;
    cbn [fst snd]; [| intros H; now contradiction H].
  intros _. apply List.find_some in Hf as [Hin Hrun]. cbn [fst snd] in Hrun.
  eauto 6.
Qed.

(** The cells of a run, read one by one. *)
Lemma run4_spec (b : list (list Z)) (row col : Z) (dir : Z * Z) :
  Connect4.run4 b row col dir = true
  <-> cell b row col <> 0
      /\ forall k, k = 1 \/ k = 2 \/ k = 3 ->
           (0 <= row + k * dir.1 < Connect4.BOARD_HEIGHT
            /\ 0 <= col + k * dir.2 < Connect4.BOARD_LENGTH)
           /\ cell b (row + k * dir.1) (col + k * dir.2) = cell b row col.
Proof.
  unfold Connect4.run4. cbn [forallb].
  rewrite !andb_true_iff, negb_true_iff, Z.eqb_neq, !Z.leb_le, !Z.ltb_lt, !Z.eqb_eq.
  split.
  - intros (Hne & H1 & H2 & H3 & _). split; [assumption |].
    intros k [-> | [-> | ->]]; [clear H2 H3 | clear H1 H3 | clear H1 H2]; tauto.
  - intros [Hne H]. split; [assumption |].
    pose proof (H 1 ltac:(auto)). pose proof (H 2 ltac:(auto)).
    pose proof (H 3 ltac:(auto)). tauto.
Qed.

Lemma c4_winner_after_move (s : Connect4.State) (col : Z) :
  Connect4.wf s -> Connect4.getWinner s = 0 ->
  In col (Connect4.getAvailableMoves s) ->
  Connect4.getWinner (Connect4.makeMove s col) = 0
  \/ Connect4.getWinner (Connect4.makeMove s col) = Connect4.currentPlayer s.
Proof.
  intros (Hg & _ & Hp) Hnone Hm.
  destruct (Z.eq_dec (Connect4.getWinner (Connect4.makeMove s col)) 0) as [| Hw];
    [now left | right].
  rewrite Connect4Facts.getWinner_firstRunWinner in Hnone, Hw |- *.
  destruct (Connect4Facts.dropRow_legal s col Hm) as [row Hdrop].
  apply Connect4Facts.c4_moves_spec in Hm as [Hc _].
  rewrite (Connect4Facts.makeMove_at s col row Hdrop) in Hw |- *. simpl in Hw |- *.
  apply Connect4Facts.dropRow_Some in Hdrop as (Hrow & He & _).
  set (p := Connect4.currentPlayer s) in *.
  set (b' := setCell (Connect4.board s) row col p) in *.
  apply firstRunWinner_first in Hw as (r & c & dir & Hin & Hrun & ->).
  pose proof (scanOrder_bounds r c dir Hin) as [Hr Hcc].
  apply run4_spec in Hrun as [Hne Hrun].
  unfold Connect4.BOARD_HEIGHT, Connect4.BOARD_LENGTH in *.
  assert (Hcase : forall qi qj, 0 <= qi -> 0 <= qj ->
            cell b' qi qj = p \/ cell b' qi qj = cell (Connect4.board s) qi qj).
  { intros qi qj Hqi Hqj. apply (cell_setCell_cases 6 7); (assumption || lia). }
  destruct (Hcase r c ltac:(lia) ltac:(lia)) as [E0 | E0]; [assumption |].
  destruct (Hrun 1 ltac:(auto)) as [[B1 B1'] R1].
  destruct (Hrun 2 ltac:(auto)) as [[B2 B2'] R2].
  destruct (Hrun 3 ltac:(auto)) as [[B3 B3'] R3].
  destruct (Hcase (r + 1 * dir.1) (c + 1 * dir.2) ltac:(lia) ltac:(lia)) as [E1 | E1];
    [congruence |].
  destruct (Hcase (r + 2 * dir.1) (c + 2 * dir.2) ltac:(lia) ltac:(lia)) as [E2 | E2];
    [congruence |].
  destruct (Hcase (r + 3 * dir.1) (c + 3 * dir.2) ltac:(lia) ltac:(lia)) as [E3 | E3];
    [congruence |].
  exfalso.
  assert (Hold : Connect4.firstRunWinner (Connect4.board s) <> 0).
  { apply Connect4Facts.firstRunWinner_run. exists r, c, dir.
    split; [assumption |]. apply run4_spec.
    unfold Connect4.BOARD_HEIGHT, Connect4.BOARD_LENGTH.
    split; [congruence |].
    intros k [-> | [-> | ->]]; (split; [split; assumption | congruence]). }
  contradiction.
Qed.

(** X9: in Tic-Tac-Toe and in Connect 4, when a reachable state has no winner
    and a legal move is made, [getWinner()] afterwards is 0 or the side that
    made the move: a move never makes the other side win. *)
Theorem a_move_wins_only_for_its_maker :
  (forall s m,
     TicTacToe.reachable s -> TicTacToe.getWinner s = 0 ->
     In m (TicTacToe.getAvailableMoves s) ->
     TicTacToe.getWinner (TicTacToe.makeMove s m) = 0
     \/ TicTacToe.getWinner (TicTacToe.makeMove s m) = TicTacToe.currentPlayer s)
  /\ (forall s col,
        Connect4.reachable s -> Connect4.getWinner s = 0 ->
        In col (Connect4.getAvailableMoves s) ->
        Connect4.getWinner (Connect4.makeMove s col) = 0
        \/ Connect4.getWinner (Connect4.makeMove s col) = Connect4.currentPlayer s).
Proof.
  split.
  - intros s m Hr. apply ttt_winner_after_move.
    now apply TicTacToeFacts.ttt_reachable_wf.
  - intros s col Hr. apply c4_winner_after_move.
    now apply Connect4Facts.c4_reachable_wf.
Qed.

Lemma a_move_wins_only_for_its_maker_witness :
  TicTacToe.getWinner (TicTacToe.makeMove (TicTacToe.init true) 4) = 0
  \/ TicTacToe.getWinner (TicTacToe.makeMove (TicTacToe.init true) 4)
     = TicTacToe.currentPlayer (TicTacToe.init true).
Proof.
  apply (proj1 a_move_wins_only_for_its_maker).
  - apply TicTacToe.reach_init.
  - reflexivity.
  - vm_compute. tauto.
Defined.

(** ** What the search returns *)

Section SearchResults.
Context {St : Type} {G : Game.Interface St}.

Lemma better_score (b : bool) (acc v : Z) :
  acc = seed b \/ score acc -> score v -> score (better b acc v).
Proof.
  unfold score, better, seed, INT_MIN, INT_MAX.
  intros Hacc Hv. destruct b; lia.
Qed.

Hypothesis evaluate_score : forall s, score (Game.evaluate s).
Hypothesis moves_left : forall s,
  Game.isTerminal s = false -> Game.getAvailableMoves s <> [].

Lemma minMax_score (fuel : nat) :
  forall depth b s v s', minMax fuel depth b s = Some (v, s') -> score v.
Proof.
  induction fuel as [| fuel IH]; intros depth b s v s' H; [discriminate |].
  rewrite minMax_unfold in H. destruct (cutoff s depth) eqn:Hc.
  - injection H as <- _. apply evaluate_score.
  - apply orb_false_iff in Hc as [_ Hterm]. apply moves_left in Hterm.
    assert (Hloop : forall ms acc s0 v0 s0',
              acc = seed b \/ score acc ->
              forEach ms (minMaxBody fuel depth b) acc s0 = Some (v0, s0') ->
              (ms = [] /\ v0 = acc) \/ score v0).
    { induction ms as [| m ms IHms]; intros acc s0 v0 s0' Hacc Hrun.
      - left. injection Hrun as <- _. auto.
      - right. simpl in Hrun. unfold bind at 1 in Hrun.
        unfold minMaxBody at 1 in Hrun.
        unfold bind at 1, call at 1 in Hrun. unfold bind at 1 in Hrun.
        destruct (minMax fuel (depth + 1) (negb b) (Game.makeMove s0 m))
          as [[v1 s1] |] eqn:Hchild; [| discriminate].
        unfold bind at 1, call at 1, ret at 1 in Hrun.
        apply IH in Hchild.
        pose proof (better_score b acc v1 Hacc Hchild) as Hb.
        destruct (IHms _ _ _ _ (or_intror Hb) Hrun) as [[_ ->] | Hs]; assumption. }
    destruct (Hloop _ _ _ _ _ (or_introl eq_refl) H) as [[Hnil _] | Hs];
      [contradiction | assumption].
Qed.

Lemma step_spec_returns (fuel : nat) (s : St) (depth : Z) (b : bool) :
  minMax_step_spec fuel s depth b ->
  exists v, minMax (S fuel) depth b s = Some (v, s) /\ score v.
Proof.
  intros [Hcut Hfold]. destruct (cutoff s depth) eqn:Hc.
  - exists (Game.evaluate s). split; [now apply Hcut | apply evaluate_score].
  - destruct (Hfold eq_refl) as (v & scores & _ & Hrun & _).
    eexists. split; [exact Hrun |]. exact (minMax_score _ _ _ _ _ _ Hrun).
Qed.

Lemma getBestMove_no_moves (fuel : nat) (s : St) :
  Game.getAvailableMoves s = [] -> getBestMove fuel s = Some (-1, s).
Proof.
  intros E. unfold getBestMove. unfold bind at 1, query at 1.
  rewrite E. reflexivity.
Qed.

End SearchResults.

Lemma ttt_evaluate_score (s : TicTacToe.State) : score (TicTacToe.evaluate s).
Proof.
  unfold score, TicTacToe.evaluate.
  destruct (TicTacToe.getWinner s =? AI); [auto |].
  destruct (TicTacToe.getWinner s =? PLAYER); auto.
Qed.

Lemma c4_evaluate_score (s : Connect4.State) : score (Connect4.evaluate s).
Proof.
  unfold score, Connect4.evaluate.
  destruct (Connect4.getWinner s =? AI); [auto |].
  destruct (Connect4.getWinner s =? PLAYER); auto.
Qed.

Lemma sticks_evaluate_score (s : SticksGame.State) : score (SticksGame.evaluate s).
Proof.
  unfold score, SticksGame.evaluate.
  destruct (SticksGame.remainingSticks s =? 0); [| auto].
  destruct (SticksGame.currentPlayer s =? PLAYER); auto.
Qed.

(** X10: in each of the three games, for every reachable state, every depth
    and both values of the flag, [minMax] returns, leaves the game exactly as
    it found it, and its value is -10, 0 or 10 (never one of the seeds
    [INT_MIN], [INT_MAX]).  The fuel that suffices is one more than the
    number of empty cells (Tic-Tac-Toe), than 6 - depth (Connect 4), than the
    number of sticks (sticks game). *)
Theorem minMax_returns_a_score :
  (forall fuel s depth b,
     TicTacToe.reachable s -> (emptyCells (TicTacToe.board s) <= fuel)%nat ->
     exists v, minMax (G := TicTacToe.game) (S fuel) depth b s = Some (v, s)
               /\ score v)
  /\ (forall fuel s depth b,
        Connect4.reachable s -> (Z.to_nat (6 - depth) <= fuel)%nat ->
        exists v, minMax (G := Connect4.game) (S fuel) depth b s = Some (v, s)
                  /\ score v)
  /\ (forall fuel s depth b,
        SticksGame.reachable s ->
        (Z.to_nat (SticksGame.remainingSticks s) <= fuel)%nat ->
        exists v, minMax (G := SticksGame.game) (S fuel) depth b s = Some (v, s)
                  /\ score v).
Proof.
  split; [| split]; intros fuel s depth b Hr Hf.
  - apply (step_spec_returns (G := TicTacToe.game) ttt_evaluate_score
             TicTacToeFacts.ttt_moves_left).
    apply ttt_search; [now apply TicTacToeFacts.ttt_reachable_wf | assumption].
  - apply (step_spec_returns (G := Connect4.game) c4_evaluate_score
             Connect4Facts.c4_moves_left).
    apply c4_search; [now apply Connect4Facts.c4_reachable_wf | assumption].
  - apply (step_spec_returns (G := SticksGame.game) sticks_evaluate_score
             sticks_moves_left).
    apply sticks_search; [now apply SticksFacts.sticks_reachable_wf | assumption].
Qed.

Lemma minMax_returns_a_score_witness :
  exists v, minMax (G := Connect4.game) 7 0 false (Connect4.init true)
            = Some (v, Connect4.init true)
            /\ score v.
Proof.
  apply (proj1 (proj2 minMax_returns_a_score)).
  - apply Connect4.reach_init.
  - vm_compute. lia.
Defined.

(** X11: in each of the three games and every reachable state (with the fuel
    of C4), [getBestMove] returns and leaves the game as it found it; the
    move returned is -1 exactly when [getAvailableMoves()] is empty, and in a
    state that is not terminal it is a move that [checkInput] accepts. *)
Theorem getBestMove_minus_one_iff_no_move :
  (forall fuel s,
     TicTacToe.reachable s -> (emptyCells (TicTacToe.board s) <= fuel)%nat ->
     exists best,
       getBestMove (G := TicTacToe.game) fuel s = Some (best, s)
       /\ (best = -1 <-> TicTacToe.getAvailableMoves s = [])
       /\ (TicTacToe.isTerminal s = false -> TicTacToe.checkInput s best = true))
  /\ (forall fuel s,
        Connect4.reachable s -> (7 <= fuel)%nat ->
        exists best,
          getBestMove (G := Connect4.game) fuel s = Some (best, s)
          /\ (best = -1 <-> Connect4.getAvailableMoves s = [])
          /\ (Connect4.isTerminal s = false -> Connect4.checkInput s best = true))
  /\ (forall fuel s,
        SticksGame.reachable s ->
        (Z.to_nat (SticksGame.remainingSticks s) <= fuel)%nat ->
        exists best,
          getBestMove (G := SticksGame.game) fuel s = Some (best, s)
          /\ (best = -1 <-> SticksGame.getAvailableMoves s = [])
          /\ (SticksGame.isTerminal s = false -> SticksGame.checkInput s best = true)).
Proof.
  split; [| split]; intros fuel s Hr Hf.
  - destruct (TicTacToe.getAvailableMoves s) as [| m0 ms] eqn:E.
    + exists (-1). split; [now apply (getBestMove_no_moves (G := TicTacToe.game)) |].
      split; [tauto |]. intros Ht. now apply TicTacToeFacts.ttt_moves_left in Ht.
    + destruct (ttt_best fuel s) as (_ & best & pre & post & Hrun & Hin & _);
        [now apply TicTacToeFacts.ttt_reachable_wf | rewrite E; discriminate | assumption |].
      exists best. split; [exact Hrun |]. split.
      * split; [| discriminate]. intros ->.
        apply TicTacToeFacts.ttt_moves_spec in Hin. lia.
      * intros _. now apply TicTacToeFacts.ttt_checkInput_spec.
  - destruct (Connect4.getAvailableMoves s) as [| m0 ms] eqn:E.
    + exists (-1). split; [now apply (getBestMove_no_moves (G := Connect4.game)) |].
      split; [tauto |]. intros Ht. now apply Connect4Facts.c4_moves_left in Ht.
    + destruct (c4_best fuel s) as (_ & best & pre & post & Hrun & Hin & _);
        [now apply Connect4Facts.c4_reachable_wf | rewrite E; discriminate | assumption |].
      exists best. split; [exact Hrun |]. split.
      * split; [| discriminate]. intros ->.
        apply Connect4Facts.c4_moves_spec in Hin. lia.
      * intros _. now apply Connect4Facts.c4_checkInput_spec.
  - destruct (SticksGame.getAvailableMoves s) as [| m0 ms] eqn:E.
    + exists (-1). split; [now apply (getBestMove_no_moves (G := SticksGame.game)) |].
      split; [tauto |]. intros Ht. now apply sticks_moves_left in Ht.
    + destruct (sticks_best fuel s) as (_ & best & pre & post & Hrun & Hin & _);
        [now apply SticksFacts.sticks_reachable_wf | rewrite E; discriminate | assumption |].
      exists best. split; [exact Hrun |]. split.
      * split; [| discriminate]. intros ->.
        apply SticksFacts.sticks_moves_spec in Hin. lia.
      * intros _. now apply SticksFacts.sticks_checkInput_spec.
Qed.

Lemma getBestMove_minus_one_iff_no_move_witness :
  exists best,
    getBestMove (G := SticksGame.game) 21 (SticksGame.init false)
    = Some (best, SticksGame.init false)
    /\ (best = -1 <-> SticksGame.getAvailableMoves (SticksGame.init false) = [])
    /\ (SticksGame.isTerminal (SticksGame.init false) = false ->
        SticksGame.checkInput (SticksGame.init false) best = true).
Proof.
  apply (proj2 (proj2 getBestMove_minus_one_iff_no_move)).
  - apply SticksGame.reach_init.
  - vm_compute. lia.
Defined.

(** ** The sticks game is searched to the end *)

Lemma minMax_loop_values {St : Type} {G : Game.Interface St}
  (f : Z -> Z) (fuel : nat) (depth : Z) (b : bool) (s : St) (ms : list Z) :
  (forall m, In m ms -> Game.undoMove (Game.makeMove s m) m = s) ->
  (forall m, In m ms -> child fuel depth b s m (f m)) ->
  forall acc,
    forEach ms (minMaxBody fuel depth b) acc s
    = Some (fold_left (better b) (map f ms) acc, s).
Proof.
  induction ms as [| m ms IH]; intros Hundo Hchild acc; [reflexivity |].
  simpl. unfold bind at 1. unfold minMaxBody at 1.
  unfold bind at 1, call at 1. unfold bind at 1.
  pose proof (Hchild m (or_introl eq_refl)) as Hv. unfold child in Hv. rewrite Hv.
  unfold bind at 1, call at 1, ret at 1.
  rewrite (Hundo m (or_introl eq_refl)).
  apply IH; intros x Hx; [apply Hundo | apply Hchild]; now right.
Qed.

Lemma sticks_moves_filter (s : SticksGame.State) :
  SticksGame.getAvailableMoves s
  = List.filter (fun n => n <=? SticksGame.remainingSticks s) [1; 2; 3].
Proof.
  unfold SticksGame.getAvailableMoves.
  generalize (SticksGame.remainingSticks s) as r. intros r. simpl.
  destruct (Z.leb_spec 1 r); simpl;
    [destruct (Z.leb_spec 2 r); simpl;
     [destruct (Z.leb_spec 3 r); simpl |] |];
    repeat match goal with
           | |- context [?a <=? r] => destruct (Z.leb_spec a r); try lia
           end; reflexivity.
Qed.

Lemma sticks_moves_shape (s : SticksGame.State) :
  0 < SticksGame.remainingSticks s ->
  (SticksGame.remainingSticks s = 1 /\ SticksGame.getAvailableMoves s = [1])
  \/ (SticksGame.remainingSticks s = 2 /\ SticksGame.getAvailableMoves s = [1; 2])
  \/ (3 <= SticksGame.remainingSticks s /\ SticksGame.getAvailableMoves s = [1; 2; 3]).
Proof.
  intros Hr. rewrite sticks_moves_filter. simpl.
  destruct (Z.leb_spec 1 (SticksGame.remainingSticks s)); [| lia].
  destruct (Z.leb_spec 2 (SticksGame.remainingSticks s));
    destruct (Z.leb_spec 3 (SticksGame.remainingSticks s)); try lia.
  - right; right. split; [lia | reflexivity].
  - right; left. split; [lia | reflexivity].
  - left. split; [lia | reflexivity].
Qed.

Lemma switchPlayer_flag (p : Z) :
  p = PLAYER \/ p = AI -> negb (p =? AI) = (switchPlayer p =? AI).
Proof. intros [-> | ->]; reflexivity. Qed.

Lemma sticks_minMax_value (fuel : nat) :
  forall s depth,
    SticksGame.wf s ->
    (Z.to_nat (SticksGame.remainingSticks s) < fuel)%nat ->
    depth + SticksGame.remainingSticks s < 999999 ->
    minMax (G := SticksGame.game) fuel depth (SticksGame.currentPlayer s =? AI) s
    = Some (sticksValue (SticksGame.remainingSticks s) (SticksGame.currentPlayer s), s).
Proof.
  induction fuel as [| fuel IH]; intros s depth Hwf Hf Hd; [lia |].
  pose proof Hwf as [Hp Hr]. unfold SticksGame.STICKS_NUMBER in Hr.
  rewrite minMax_unfold. unfold cutoff.
  change (maxDepth (G := SticksGame.game)) with 999999.
  replace (depth >=? 999999) with false
    by (symmetry; rewrite Z.geb_leb; apply Z.leb_gt; lia).
  cbn [orb Game.isTerminal Game.evaluate Game.getAvailableMoves SticksGame.game].
  unfold SticksGame.isTerminal.
  destruct (Z.leb_spec (SticksGame.remainingSticks s) 0) as [H0 | Hpos].
  - assert (E : SticksGame.remainingSticks s = 0) by lia.
    unfold SticksGame.evaluate, sticksValue. rewrite E. simpl.
    destruct Hp as [-> | ->]; reflexivity.
  - rewrite (minMax_loop_values
               (fun m => sticksValue (SticksGame.remainingSticks s - m)
                           (switchPlayer (SticksGame.currentPlayer s)))).
    + f_equal. f_equal.
      set (r := SticksGame.remainingSticks s) in *.
      destruct (sticks_moves_shape s Hpos) as [[Hr1 ->] | [[Hr2 ->] | [Hr3 ->]]];
        destruct Hp as [-> | ->];
        cbn [map fold_left]; unfold better, seed, sticksValue, INT_MIN, INT_MAX;
        change (switchPlayer PLAYER) with AI; change (switchPlayer AI) with PLAYER;
        change (PLAYER =? AI) with false; change (AI =? AI) with true;
        cbv beta iota;
        repeat match goal with
               | |- context [?x mod 4 =? 1] => destruct (Z.eqb_spec (x mod 4) 1)
               end;
        try reflexivity;
        exfalso; Z.to_euclidean_division_equations; lia.
    + intros m Hm. now apply SticksFacts.sticks_undo_make.
    + intros m Hm. unfold child.
      cbn [Game.makeMove SticksGame.game].
      pose proof (SticksFacts.sticks_wf_makeMove s m Hwf Hm) as Hwf'.
      pose proof (sticks_rank s m Hwf Hm) as Hrank.
      apply SticksFacts.sticks_moves_spec in Hm.
      rewrite (switchPlayer_flag _ Hp).
      assert (Erem : SticksGame.remainingSticks (SticksGame.makeMove s m)
                     = SticksGame.remainingSticks s - m).
      { simpl. apply wrap_small. unfold INT_MIN, INT_MAX. lia. }
      rewrite <- Erem.
      apply (IH (SticksGame.makeMove s m) (depth + 1) Hwf'); lia.
Qed.

Lemma sticks_getBestMove_value (fuel : nat) (s : SticksGame.State) :
  SticksGame.wf s -> SticksGame.currentPlayer s = AI ->
  1 <= SticksGame.remainingSticks s ->
  (Z.to_nat (SticksGame.remainingSticks s) <= fuel)%nat ->
  getBestMove (G := SticksGame.game) fuel s
  = Some (sticksBestMove (SticksGame.remainingSticks s), s).
Proof.
  intros Hwf Hai Hpos Hf.
  pose proof Hwf as [_ Hr]. unfold SticksGame.STICKS_NUMBER in Hr.
  assert (Hval : forall m, In m (SticksGame.getAvailableMoves s) ->
            minMax (G := SticksGame.game) fuel 0 false (SticksGame.makeMove s m)
            = Some (sticksValue (SticksGame.remainingSticks s - m) PLAYER,
                    SticksGame.makeMove s m)).
  { intros m Hm.
    pose proof (SticksFacts.sticks_wf_makeMove s m Hwf Hm) as Hwf'.
    pose proof (sticks_rank s m Hwf Hm) as Hrank.
    apply SticksFacts.sticks_moves_spec in Hm.
    assert (Erem : SticksGame.remainingSticks (SticksGame.makeMove s m)
                   = SticksGame.remainingSticks s - m).
    { simpl. apply wrap_small. unfold INT_MIN, INT_MAX. lia. }
    pose proof (sticks_minMax_value fuel (SticksGame.makeMove s m) 0 Hwf') as H.
    rewrite Erem in H. simpl SticksGame.currentPlayer in H. rewrite Hai in H.
    apply H; lia. }
  assert (Hroot : forall m, In m (SticksGame.getAvailableMoves s) ->
            rootScore (G := SticksGame.game) fuel s m
            = sticksValue (SticksGame.remainingSticks s - m) PLAYER).
  { intros m Hm. unfold rootScore.
    cbn [Game.makeMove SticksGame.game]. now rewrite (Hval m Hm). }
  unfold getBestMove. unfold bind at 1, query at 1. unfold bind at 1.
  rewrite (getBestMove_loop (G := SticksGame.game) fuel s).
  2:{ intros m Hm. split.
      - now apply SticksFacts.sticks_undo_make.
      - cbn [Game.makeMove SticksGame.game]. rewrite (Hroot m Hm). now apply Hval. }
  unfold ret. f_equal. f_equal.
  cbn [Game.getAvailableMoves SticksGame.game] in *.
  set (r := SticksGame.remainingSticks s) in *.
  destruct (sticks_moves_shape s ltac:(fold r; lia)) as [[Hr1 E] | [[Hr2 E] | [Hr3 E]]];
    rewrite E in *; cbn [fold_left]; unfold keep;
    repeat match goal with
           | |- context [rootScore ?f ?st ?m] =>
               rewrite (Hroot m) by (simpl; tauto)
           end;
    unfold sticksValue, sticksBestMove; change (PLAYER =? AI) with false;
    cbv beta iota;
    repeat match goal with
           | |- context [?x mod 4 =? 1] => destruct (Z.eqb_spec (x mod 4) 1)
           end;
    match goal with
    | |- ?chosen = _ => let v := eval vm_compute in chosen in change chosen with v
    end;
    Z.to_euclidean_division_equations; lia.
Qed.

(** X12: the search plays the sticks game perfectly.  In a reachable state
    with [isMaximizing] set exactly when the AI is to move, [minMax] returns
    -10 for the AI to move on 4k+1 sticks, +10 for the AI to move on any
    other count, and the opposite values for PLAYER to move (the side to move
    loses exactly on 4k+1 sticks).  With the AI to move and at least one
    stick, [getBestMove] takes the number of sticks that leaves 4k+1, and one
    stick when there is no such number. *)
Theorem sticks_search_plays_perfectly :
  (forall fuel s depth,
     SticksGame.reachable s ->
     (Z.to_nat (SticksGame.remainingSticks s) < fuel)%nat ->
     depth + SticksGame.remainingSticks s < 999999 ->
     minMax (G := SticksGame.game) fuel depth (SticksGame.currentPlayer s =? AI) s
     = Some (sticksValue (SticksGame.remainingSticks s) (SticksGame.currentPlayer s), s))
  /\ (forall fuel s,
        SticksGame.reachable s -> SticksGame.currentPlayer s = AI ->
        1 <= SticksGame.remainingSticks s ->
        (Z.to_nat (SticksGame.remainingSticks s) <= fuel)%nat ->
        getBestMove (G := SticksGame.game) fuel s
        = Some (sticksBestMove (SticksGame.remainingSticks s), s)).
Proof.
  split.
  - intros fuel s depth Hr. apply sticks_minMax_value.
    now apply SticksFacts.sticks_reachable_wf.
  - intros fuel s Hr. apply sticks_getBestMove_value.
    now apply SticksFacts.sticks_reachable_wf.
Qed.

Lemma sticks_search_plays_perfectly_witness :
  getBestMove (G := SticksGame.game) 21 (SticksGame.init false)
  = Some (1, SticksGame.init false).
Proof.
  apply (proj2 sticks_search_plays_perfectly 21%nat (SticksGame.init false)).
  - apply SticksGame.reach_init.
  - reflexivity.
  - vm_compute. discriminate.
  - vm_compute. lia.
Defined.

(** ** One match *)

Lemma grid_cells (h w : nat) (b : list (list Z)) :
  grid h w b -> length (concat b) = (h * w)%nat.
Proof.
  intros [Hlen Hrows]. subst h.
  induction Hrows as [| row b [Hw _] _ IH]; simpl; [reflexivity |].
  rewrite length_app, IH, Hw. reflexivity.
Qed.

Lemma emptyCells_le (h w : nat) (b : list (list Z)) :
  grid h w b -> (emptyCells b <= h * w)%nat.
Proof.
  intros Hg. rewrite <- (grid_cells h w b Hg).
  unfold emptyCells. apply List.filter_length_le.
Qed.

Section SessionFacts.
Context {St : Type} {G : Game.Interface St}.
Variable askInput : Z -> Z.

Lemma readMove_Some (s : St) (typed : list Z) (input : Z) (rest : list Z) :
  readMove askInput s typed = Some (input, rest)
  <-> exists skipped x,
        typed = skipped ++ x :: rest
        /\ Forall (refused askInput s) skipped
        /\ input = askInput x
        /\ Game.checkInput s input = true.
Proof.
  split.
  - revert input rest. induction typed as [| y typed IH]; intros input rest H;
      [discriminate |].
    simpl in H. destruct (Game.checkInput s (askInput y)) eqn:E.
    + injection H as <- <-. exists [], y. repeat split; auto.
    + destruct (IH _ _ H) as (skipped & x & -> & Hsk & -> & Hok).
      exists (y :: skipped), x. repeat split; auto.
  - intros (skipped & x & -> & Hsk & -> & Hok).
    induction Hsk as [| y skipped Hy _ IH]; simpl.
    + now rewrite Hok.
    + unfold refused in Hy. now rewrite Hy.
Qed.

Lemma readMove_None (s : St) (typed : list Z) :
  readMove askInput s typed = None <-> Forall (refused askInput s) typed.
Proof.
  induction typed as [| y typed IH]; simpl.
  - split; [constructor | reflexivity].
  - destruct (Game.checkInput s (askInput y)) eqn:E.
    + split; [discriminate |]. intros H. inversion H as [| ? ? Hy _]; subst.
      unfold refused in Hy. congruence.
    + rewrite IH. split; [now constructor |]. intros H. now inversion H.
Qed.

Variable Inv : St -> Prop.
Variable matchRank : St -> nat.
Variable searchFuel : nat.
Hypothesis check_legal : forall s m,
  Game.checkInput s m = true -> In m (Game.getAvailableMoves s).
Hypothesis inv_move : forall s m,
  Inv s -> Game.isTerminal s = false -> In m (Game.getAvailableMoves s) ->
  Inv (Game.makeMove s m).
Hypothesis rank_move : forall s m,
  Inv s -> Game.isTerminal s = false -> In m (Game.getAvailableMoves s) ->
  (matchRank (Game.makeMove s m) < matchRank s)%nat.
Hypothesis best_legal : forall s,
  Inv s -> Game.isTerminal s = false ->
  exists best, getBestMove searchFuel s = Some (best, s)
               /\ In best (Game.getAvailableMoves s).

Lemma playMatch_sound (fuel : nat) :
  forall s typed, Inv s -> (matchRank s < fuel)%nat ->
  sound_outcome Inv (playMatch askInput fuel searchFuel s typed).
Proof.
  induction fuel as [| fuel IH]; intros s typed HI Hf; [lia |].
  simpl. destruct (Game.isTerminal s) eqn:Ht; [simpl; auto |].
  destruct (Game.getCurrentPlayer s =? PLAYER) eqn:Hp.
  - destruct (readMove askInput s typed) as [[input rest] |] eqn:Hread.
    + apply readMove_Some in Hread as (_ & _ & _ & _ & _ & Hok).
      apply check_legal in Hok.
      pose proof (inv_move s input HI Ht Hok) as HI'.
      pose proof (rank_move s input HI Ht Hok) as Hrank.
      destruct (Game.isTerminal (Game.makeMove s input)) eqn:Ht'; [simpl; auto |].
      apply IH; [assumption | lia].
    + simpl. apply Z.eqb_eq in Hp. auto.
  - destruct (best_legal s HI Ht) as (best & -> & Hin).
    apply IH; [now apply inv_move |].
    pose proof (rank_move s best HI Ht Hin). lia.
Qed.

End SessionFacts.

Lemma askInput_minus_one (x : Z) :
  INT_MIN <= x <= INT_MAX ->
  wrap (x - 1) = x - 1 \/ (x = INT_MIN /\ wrap (x - 1) = INT_MAX).
Proof.
  unfold INT_MIN, INT_MAX. intros H.
  destruct (Z.eq_dec x (-2147483648)) as [-> | Hne].
  - right. split; reflexivity.
  - left. apply wrap_small. unfold INT_MIN, INT_MAX. lia.
Qed.

(** X13: the input loop of [main] hands to [makeMove] the first integer
    typed whose move [checkInput] accepts, after skipping the refused ones,
    and keeps asking while every integer typed is refused.  The integer typed
    is 1-based in Tic-Tac-Toe (1..9 for an empty cell) and in Connect 4 (1..7
    for a column whose top cell is empty), and is the number of sticks itself
    (1..3, at most what remains) in the sticks game. *)
Theorem typed_input_is_validated :
  (forall (St : Type) (G : Game.Interface St) (askInput : Z -> Z) (s : St)
          (typed : list Z) (input : Z) (rest : list Z),
     readMove askInput s typed = Some (input, rest)
     <-> exists skipped x,
           typed = skipped ++ x :: rest
           /\ Forall (refused askInput s) skipped
           /\ input = askInput x
           /\ Game.checkInput s input = true)
  /\ (forall (St : Type) (G : Game.Interface St) (askInput : Z -> Z) (s : St)
             (typed : list Z),
        readMove askInput s typed = None <-> Forall (refused askInput s) typed)
  /\ (forall (s : TicTacToe.State) (x : Z),
        INT_MIN <= x <= INT_MAX ->
        (TicTacToe.checkInput s (TicTacToe.askInput x) = true
         <-> 1 <= x <= 9
             /\ cell (TicTacToe.board s) ((x - 1) ÷ 3) (Z.rem (x - 1) 3) = EMPTY))
  /\ (forall (s : Connect4.State) (x : Z),
        INT_MIN <= x <= INT_MAX ->
        (Connect4.checkInput s (Connect4.askInput x) = true
         <-> 1 <= x <= 7 /\ cell (Connect4.board s) 0 (x - 1) = EMPTY))
  /\ (forall (s : SticksGame.State) (x : Z),
        SticksGame.checkInput s (SticksGame.askInput x) = true
        <-> 1 <= x <= 3 /\ x <= SticksGame.remainingSticks s).
Proof.
  split; [| split; [| split; [| split]]].
  - intros St G askInput s typed input rest. apply readMove_Some.
  - intros St G askInput s typed. apply readMove_None.
  - intros s x Hx. unfold TicTacToe.askInput.
    rewrite TicTacToeFacts.ttt_checkInput_spec, TicTacToeFacts.ttt_moves_spec.
    change TicTacToe.BOARD_SIZE with 3.
    destruct (askInput_minus_one x Hx) as [-> | [Hmin ->]];
      unfold INT_MIN, INT_MAX in *.
    + split; intros [H1 H2]; (split; [lia | assumption]).
    + split; intros [H1 H2]; lia.
  - intros s x Hx. unfold Connect4.askInput.
    rewrite Connect4Facts.c4_checkInput_spec, Connect4Facts.c4_moves_spec.
    unfold Connect4.BOARD_LENGTH.
    destruct (askInput_minus_one x Hx) as [-> | [Hmin ->]];
      unfold INT_MIN, INT_MAX in *.
    + split; intros [H1 H2]; (split; [lia | assumption]).
    + split; intros [H1 H2]; lia.
  - intros s x. unfold SticksGame.askInput.
    rewrite SticksFacts.sticks_checkInput_spec, SticksFacts.sticks_moves_spec. tauto.
Qed.

Lemma typed_input_is_validated_witness :
  TicTacToe.checkInput (TicTacToe.init true) (TicTacToe.askInput 5) = true
  <-> 1 <= 5 <= 9
      /\ cell (TicTacToe.board (TicTacToe.init true)) ((5 - 1) ÷ 3) (Z.rem (5 - 1) 3)
         = EMPTY.
Proof.
  apply (proj1 (proj2 (proj2 typed_input_is_validated))).
  vm_compute. split; discriminate.
Defined.

(** *** The three games *)

Lemma ttt_not_terminal (s : TicTacToe.State) :
  TicTacToe.isTerminal s = false -> TicTacToe.getWinner s = 0.
Proof.
  unfold TicTacToe.isTerminal. intros H. apply orb_false_iff in H as [H _].
  now apply negb_false_iff, Z.eqb_eq in H.
Qed.

Lemma c4_not_terminal (s : Connect4.State) :
  Connect4.isTerminal s = false -> Connect4.getWinner s = 0.
Proof.
  unfold Connect4.isTerminal. intros H. apply orb_false_iff in H as [H _].
  now apply negb_false_iff, Z.eqb_eq in H.
Qed.

Lemma ttt_match_sound (fuel searchFuel : nat) (s : TicTacToe.State) (typed : list Z) :
  ttt_match_state s -> (10 <= fuel)%nat -> (9 <= searchFuel)%nat ->
  sound_outcome (G := TicTacToe.game) ttt_match_state
    (playMatch (G := TicTacToe.game) TicTacToe.askInput fuel searchFuel s typed).
Proof.
  intros Hs Hf Hsf.
  assert (Hle : forall s0, TicTacToe.reachable s0 ->
                  (emptyCells (TicTacToe.board s0) <= 9)%nat).
  { intros s0 Hr. apply TicTacToeFacts.ttt_reachable_wf in Hr as [Hg _].
    exact (emptyCells_le 3 3 _ Hg). }
  apply (playMatch_sound (G := TicTacToe.game) TicTacToe.askInput ttt_match_state
           (fun s => emptyCells (TicTacToe.board s)) searchFuel).
  - intros s0 m. apply TicTacToeFacts.ttt_checkInput_spec.
  - intros s0 m [Hr _] Ht Hm. split; [now apply TicTacToe.reach_move |].
    pose proof (TicTacToeFacts.ttt_reachable_wf s0 Hr) as Hwf.
    unfold lastMoverWon. cbn [Game.getWinner Game.getCurrentPlayer Game.makeMove
                               TicTacToe.game].
    destruct (ttt_winner_after_move s0 m Hwf (ttt_not_terminal s0 Ht) Hm) as [E | E];
      [now left | right].
    rewrite E, (TicTacToeFacts.makeMove_legal s0 m Hm).
    unfold TicTacToe.getCurrentPlayer. simpl.
    symmetry. apply switchPlayer_twice, Hwf.
  - intros s0 m [Hr _] _ Hm.
    pose proof (TicTacToeFacts.rank_makeMove s0 m
                  (TicTacToeFacts.ttt_reachable_wf s0 Hr) Hm).
    cbn [Game.makeMove TicTacToe.game]. lia.
  - intros s0 [Hr _] Ht.
    destruct (ttt_best searchFuel s0) as (_ & best & _ & _ & Hrun & Hin & _).
    + now apply TicTacToeFacts.ttt_reachable_wf.
    + now apply TicTacToeFacts.ttt_moves_left.
    + specialize (Hle s0 Hr). lia.
    + eauto.
  - assumption.
  - destruct Hs as [Hr _]. specialize (Hle s Hr). lia.
Qed.

Lemma c4_match_sound (fuel searchFuel : nat) (s : Connect4.State) (typed : list Z) :
  c4_match_state s -> (43 <= fuel)%nat -> (7 <= searchFuel)%nat ->
  sound_outcome (G := Connect4.game) c4_match_state
    (playMatch (G := Connect4.game) Connect4.askInput fuel searchFuel s typed).
Proof.
  intros Hs Hf Hsf.
  assert (Hle : forall s0, Connect4.reachable s0 ->
                  (emptyCells (Connect4.board s0) <= 42)%nat).
  { intros s0 Hr. apply Connect4Facts.c4_reachable_wf in Hr as [Hg _].
    exact (emptyCells_le 6 7 _ Hg). }
  apply (playMatch_sound (G := Connect4.game) Connect4.askInput c4_match_state
           (fun s => emptyCells (Connect4.board s)) searchFuel).
  - intros s0 m. apply Connect4Facts.c4_checkInput_spec.
  - intros s0 m [Hr _] Ht Hm. split; [now apply Connect4.reach_move |].
    pose proof (Connect4Facts.c4_reachable_wf s0 Hr) as Hwf.
    unfold lastMoverWon. cbn [Game.getWinner Game.getCurrentPlayer Game.makeMove
                               Connect4.game].
    destruct (c4_winner_after_move s0 m Hwf (c4_not_terminal s0 Ht) Hm) as [E | E];
      [now left | right].
    destruct (Connect4Facts.dropRow_legal s0 m Hm) as [row Hdrop].
    rewrite E, (Connect4Facts.makeMove_at s0 m row Hdrop).
    unfold Connect4.getCurrentPlayer. simpl.
    symmetry. apply switchPlayer_twice, Hwf.
  - intros s0 m [Hr _] _ Hm.
    pose proof (Connect4Facts.c4_reachable_wf s0 Hr) as (Hg & _ & Hp).
    destruct (Connect4Facts.dropRow_legal s0 m Hm) as [row Hdrop].
    cbn [Game.makeMove Connect4.game].
    rewrite (Connect4Facts.makeMove_at s0 m row Hdrop). simpl.
    apply Connect4Facts.c4_moves_spec in Hm as [Hm _].
    apply Connect4Facts.dropRow_Some in Hdrop as (Hrow & He & _).
    unfold Connect4.BOARD_HEIGHT, Connect4.BOARD_LENGTH in *.
    pose proof (emptyCells_setCell 6 7 (Connect4.board s0) row m
                  (Connect4.currentPlayer s0) Hg ltac:(lia) ltac:(lia) He
                  (proj2 (side_marker _ Hp))).
    lia.
  - intros s0 [Hr _] Ht.
    destruct (c4_best searchFuel s0) as (_ & best & _ & _ & Hrun & Hin & _).
    + now apply Connect4Facts.c4_reachable_wf.
    + now apply Connect4Facts.c4_moves_left.
    + lia.
    + eauto.
  - assumption.
  - destruct Hs as [Hr _]. specialize (Hle s Hr). lia.
Qed.

Lemma sticks_match_sound (fuel searchFuel : nat) (s : SticksGame.State) (typed : list Z) :
  SticksGame.reachable s -> (22 <= fuel)%nat -> (21 <= searchFuel)%nat ->
  sound_outcome (G := SticksGame.game) SticksGame.reachable
    (playMatch (G := SticksGame.game) SticksGame.askInput fuel searchFuel s typed).
Proof.
  intros Hs Hf Hsf.
  assert (Hle : forall s0, SticksGame.reachable s0 ->
                  (Z.to_nat (SticksGame.remainingSticks s0) <= 21)%nat).
  { intros s0 Hr. apply SticksFacts.sticks_reachable_wf in Hr as [_ Hr].
    unfold SticksGame.STICKS_NUMBER in Hr. lia. }
  apply (playMatch_sound (G := SticksGame.game) SticksGame.askInput SticksGame.reachable
           (fun s => Z.to_nat (SticksGame.remainingSticks s)) searchFuel).
  - intros s0 m. apply SticksFacts.sticks_checkInput_spec.
  - intros s0 m Hr _ Hm. now apply SticksGame.reach_move.
  - intros s0 m Hr _ Hm.
    now apply sticks_rank; [apply SticksFacts.sticks_reachable_wf |].
  - intros s0 Hr Ht.
    destruct (sticks_best searchFuel s0) as (_ & best & _ & _ & Hrun & Hin & _).
    + now apply SticksFacts.sticks_reachable_wf.
    + now apply sticks_moves_left.
    + specialize (Hle s0 Hr). lia.
    + eauto.
  - assumption.
  - specialize (Hle s Hs). lia.
Qed.

(** X14: a match of any of the three games, started from a fresh game (or
    from any state a match can reach), never runs out of the loop bound once
    the bound exceeds the number of cells (10 for Tic-Tac-Toe, 43 for
    Connect 4) or of sticks (22), with search fuel 9, 7 and 21: either the
    loop is left in a reachable terminal state, whose winner is reported, or
    the typed integers are used up while the player is asked for a move in a
    reachable state that is not terminal. *)
Theorem match_ends_or_waits :
  (forall fuel searchFuel s typed,
     ttt_match_state s -> (10 <= fuel)%nat -> (9 <= searchFuel)%nat ->
     sound_outcome (G := TicTacToe.game) ttt_match_state
       (playMatch (G := TicTacToe.game) TicTacToe.askInput fuel searchFuel s typed))
  /\ (forall fuel searchFuel s typed,
        c4_match_state s -> (43 <= fuel)%nat -> (7 <= searchFuel)%nat ->
        sound_outcome (G := Connect4.game) c4_match_state
          (playMatch (G := Connect4.game) Connect4.askInput fuel searchFuel s typed))
  /\ (forall fuel searchFuel s typed,
        SticksGame.reachable s -> (22 <= fuel)%nat -> (21 <= searchFuel)%nat ->
        sound_outcome (G := SticksGame.game) SticksGame.reachable
          (playMatch (G := SticksGame.game) SticksGame.askInput fuel searchFuel s typed))
  /\ (forall u, ttt_match_state (TicTacToe.init u))
  /\ (forall u, c4_match_state (Connect4.init u)).
Proof.
  split; [| split; [| split; [| split]]].
  - intros. now apply ttt_match_sound.
  - intros. now apply c4_match_sound.
  - intros. now apply sticks_match_sound.
  - intros u. split; [apply TicTacToe.reach_init | left; reflexivity].
  - intros u. split; [apply Connect4.reach_init | left; reflexivity].
Qed.

Lemma match_ends_or_waits_witness :
  sound_outcome (G := SticksGame.game) SticksGame.reachable
    (playMatch (G := SticksGame.game) SticksGame.askInput 22 21
       (SticksGame.init true) [7; 3; 0; 2]).
Proof.
  apply (proj1 (proj2 (proj2 match_ends_or_waits))).
  - apply SticksGame.reach_init.
  - vm_compute. lia.
  - vm_compute. lia.
Defined.

Lemma last_mover_report (w currentPlayer : Z) :
  currentPlayer = PLAYER \/ currentPlayer = AI ->
  w = 0 \/ w = switchPlayer currentPlayer ->
  let report := if w =? PLAYER then YouWin
                else if w =? AI then AIWins else Draw in
  (report = YouWin -> currentPlayer = AI)
  /\ (report = AIWins -> currentPlayer = PLAYER)
  /\ (report = Draw <-> w = 0).
Proof.
  intros [-> | ->] [-> | ->]; vm_compute;
    repeat split; intros; (reflexivity || discriminate).
Qed.

(** X15: the message that ends a match.  In Tic-Tac-Toe and Connect 4 "You
    win" is reported only when the AI is to move in the final state and "AI
    wins" only when the player is (the winner made the last move), and a draw
    exactly when [getWinner()] is 0.  In the sticks game the player to move
    in the final state is reported as the winner (the side that took the last
    stick loses) and a draw is never reported. *)
Theorem reported_winner :
  (forall fuel searchFuel s typed final report,
     ttt_match_state s -> (10 <= fuel)%nat -> (9 <= searchFuel)%nat ->
     playMatch (G := TicTacToe.game) TicTacToe.askInput fuel searchFuel s typed
     = Finished final report ->
     (report = YouWin -> TicTacToe.currentPlayer final = AI)
     /\ (report = AIWins -> TicTacToe.currentPlayer final = PLAYER)
     /\ (report = Draw <-> TicTacToe.getWinner final = 0))
  /\ (forall fuel searchFuel s typed final report,
        c4_match_state s -> (43 <= fuel)%nat -> (7 <= searchFuel)%nat ->
        playMatch (G := Connect4.game) Connect4.askInput fuel searchFuel s typed
        = Finished final report ->
        (report = YouWin -> Connect4.currentPlayer final = AI)
        /\ (report = AIWins -> Connect4.currentPlayer final = PLAYER)
        /\ (report = Draw <-> Connect4.getWinner final = 0))
  /\ (forall fuel searchFuel s typed final report,
        SticksGame.reachable s -> (22 <= fuel)%nat -> (21 <= searchFuel)%nat ->
        playMatch (G := SticksGame.game) SticksGame.askInput fuel searchFuel s typed
        = Finished final report ->
        report = (if SticksGame.currentPlayer final =? PLAYER then YouWin else AIWins)
        /\ report <> Draw).
Proof.
  split; [| split]; intros fuel searchFuel s typed final report Hs Hf Hsf Hrun.
  - pose proof (ttt_match_sound fuel searchFuel s typed Hs Hf Hsf) as Hsound.
    rewrite Hrun in Hsound. destruct Hsound as ([Hr Hlast] & _ & ->).
    apply TicTacToeFacts.ttt_reachable_wf in Hr as [_ Hp].
    exact (last_mover_report (TicTacToe.getWinner final) (TicTacToe.currentPlayer final) Hp Hlast).
  - pose proof (c4_match_sound fuel searchFuel s typed Hs Hf Hsf) as Hsound.
    rewrite Hrun in Hsound. destruct Hsound as ([Hr Hlast] & _ & ->).
    apply Connect4Facts.c4_reachable_wf in Hr as (_ & _ & Hp).
    exact (last_mover_report (Connect4.getWinner final) (Connect4.currentPlayer final) Hp Hlast).
  - pose proof (sticks_match_sound fuel searchFuel s typed Hs Hf Hsf) as Hsound.
    rewrite Hrun in Hsound. destruct Hsound as (Hr & Ht & ->).
    apply SticksFacts.sticks_reachable_wf in Hr as [Hp Hrange].
    unfold SticksGame.STICKS_NUMBER in Hrange.
    cbn [Game.isTerminal SticksGame.game] in Ht.
    unfold SticksGame.isTerminal in Ht. apply Z.leb_le in Ht.
    assert (E : SticksGame.remainingSticks final = 0) by lia.
    unfold reportWinner. cbn [Game.getWinner SticksGame.game].
    unfold SticksGame.getWinner. rewrite E. simpl.
    destruct Hp as [-> | ->]; split; (reflexivity || discriminate).
Qed.

Lemma reported_winner_witness :
  playMatch (G := SticksGame.game) SticksGame.askInput 22 21
    (SticksGame.mkState PLAYER 1) [1]
  = Finished (SticksGame.mkState AI 0) AIWins
  /\ AIWins
     = (if SticksGame.currentPlayer (SticksGame.mkState AI 0) =? PLAYER
        then YouWin else AIWins)
  /\ AIWins <> Draw.
Proof.
  split; [vm_compute; reflexivity |].
  refine (proj2 (proj2 reported_winner) 22%nat 21%nat
            (SticksGame.makeMove (SticksGame.makeMove (SticksGame.makeMove
               (SticksGame.makeMove (SticksGame.makeMove (SticksGame.makeMove
                  (SticksGame.makeMove (SticksGame.makeMove (SticksGame.init true)
                     3) 3) 3) 3) 3) 3) 1) 1)
            [1] (SticksGame.mkState AI 0) AIWins _ _ _ _).
  - repeat (apply SticksGame.reach_move; [| vm_compute; tauto]).
    apply SticksGame.reach_init.
  - vm_compute. lia.
  - vm_compute. lia.
  - vm_compute. reflexivity.
Defined.

(** ** What the AI achieves *)

Section SessionStrategy.
Context {St : Type} {G : Game.Interface St}.
Variable askInput : Z -> Z.
Variable Inv : St -> Prop.
Variable matchRank : St -> nat.
Variable searchFuel : nat.
Hypothesis check_legal : forall s m,
  Game.checkInput s m = true -> In m (Game.getAvailableMoves s).
Hypothesis player_move : forall s m,
  Inv s -> Game.isTerminal s = false -> Game.getCurrentPlayer s = PLAYER ->
  In m (Game.getAvailableMoves s) ->
  Inv (Game.makeMove s m) /\ (matchRank (Game.makeMove s m) < matchRank s)%nat.
Hypothesis ai_move : forall s,
  Inv s -> Game.isTerminal s = false -> Game.getCurrentPlayer s <> PLAYER ->
  exists best,
    getBestMove searchFuel s = Some (best, s)
    /\ Inv (Game.makeMove s best)
    /\ (matchRank (Game.makeMove s best) < matchRank s)%nat.

Lemma playMatch_strategy (fuel : nat) :
  forall s typed, Inv s -> (matchRank s < fuel)%nat ->
  sound_outcome Inv (playMatch askInput fuel searchFuel s typed).
Proof.
  induction fuel as [| fuel IH]; intros s typed HI Hf; [lia |].
  simpl. destruct (Game.isTerminal s) eqn:Ht; [simpl; auto |].
  destruct (Z.eqb_spec (Game.getCurrentPlayer s) PLAYER) as [Hp | Hp].
  - destruct (readMove askInput s typed) as [[input rest] |] eqn:Hread.
    + apply readMove_Some in Hread as (_ & _ & _ & _ & _ & Hok).
      apply check_legal in Hok.
      destruct (player_move s input HI Ht Hp Hok) as [HI' Hrank].
      destruct (Game.isTerminal (Game.makeMove s input)) eqn:Ht'; [simpl; auto |].
      apply IH; [assumption | lia].
    + simpl. auto.
  - destruct (ai_move s HI Ht Hp) as (best & -> & HI' & Hrank).
    apply IH; [assumption | lia].
Qed.

End SessionStrategy.

(** *** Sticks: the AI wins when the player starts *)

Lemma sticks_won_match (fuel searchFuel : nat) (s : SticksGame.State) (typed : list Z) :
  sticks_won s -> (22 <= fuel)%nat -> (21 <= searchFuel)%nat ->
  sound_outcome (G := SticksGame.game) sticks_won
    (playMatch (G := SticksGame.game) SticksGame.askInput fuel searchFuel s typed).
Proof.
  intros Hs Hf Hsf.
  apply (playMatch_strategy (G := SticksGame.game) SticksGame.askInput sticks_won
           (fun s => Z.to_nat (SticksGame.remainingSticks s)) searchFuel).
  - intros s0 m. apply SticksFacts.sticks_checkInput_spec.
  - intros s0 m [Hr Hside] _ Hp Hm.
    pose proof (SticksFacts.sticks_reachable_wf s0 Hr) as Hwf.
    split; [split |].
    + now apply SticksGame.reach_move.
    + cbn [Game.getCurrentPlayer SticksGame.game] in Hp.
      unfold SticksGame.getCurrentPlayer in Hp.
      destruct Hside as [[_ Hmod] | [Hai _]];
        [| rewrite Hai in Hp; discriminate].
      right. cbn [Game.makeMove SticksGame.game]. simpl. rewrite Hp. split; [reflexivity |].
      destruct Hwf as [_ Hrange]. unfold SticksGame.STICKS_NUMBER in Hrange.
      apply SticksFacts.sticks_moves_spec in Hm.
      rewrite wrap_small by (unfold INT_MIN, INT_MAX; lia).
      Z.to_euclidean_division_equations. lia.
    + now apply sticks_rank.
  - intros s0 [Hr Hside] Ht Hp.
    pose proof (SticksFacts.sticks_reachable_wf s0 Hr) as Hwf.
    pose proof Hwf as [Hcur Hrange]. unfold SticksGame.STICKS_NUMBER in Hrange.
    cbn [Game.getCurrentPlayer Game.isTerminal SticksGame.game] in Hp, Ht.
    unfold SticksGame.getCurrentPlayer in Hp. unfold SticksGame.isTerminal in Ht.
    apply Z.leb_gt in Ht.
    destruct Hside as [[Hpl _] | [Hai Hmod]]; [contradiction |].
    exists (sticksBestMove (SticksGame.remainingSticks s0)).
    assert (Hbest : In (sticksBestMove (SticksGame.remainingSticks s0))
                       (SticksGame.getAvailableMoves s0)).
    { apply SticksFacts.sticks_moves_spec. unfold sticksBestMove.
      destruct (Z.eqb_spec (SticksGame.remainingSticks s0 mod 4) 1); [contradiction |].
      Z.to_euclidean_division_equations. lia. }
    split; [| split; [split |]].
    + apply sticks_getBestMove_value; try assumption; lia.
    + now apply SticksGame.reach_move.
    + left. cbn [Game.makeMove SticksGame.game]. simpl. rewrite Hai.
      split; [reflexivity |].
      apply SticksFacts.sticks_moves_spec in Hbest.
      rewrite wrap_small by (unfold INT_MIN, INT_MAX; lia).
      unfold sticksBestMove.
      destruct (Z.eqb_spec (SticksGame.remainingSticks s0 mod 4) 1); [contradiction |].
      Z.to_euclidean_division_equations. lia.
    + now apply sticks_rank.
  - assumption.
  - destruct Hs as [Hr _]. apply SticksFacts.sticks_reachable_wf in Hr as [_ Hr].
    unfold SticksGame.STICKS_NUMBER in Hr. lia.
Qed.

(** X16: when the player starts the sticks game (21 sticks), the AI wins the
    match whatever the player types: if the match ends, the report is "AI
    wins"; and whenever the player is asked for a move, the number of sticks
    is 1 modulo 4, a position lost against the moves of [getBestMove]. *)
Theorem sticks_ai_wins_when_player_starts (fuel searchFuel : nat) (typed : list Z) :
  (22 <= fuel)%nat -> (21 <= searchFuel)%nat ->
  match playMatch (G := SticksGame.game) SticksGame.askInput fuel searchFuel
          (SticksGame.init true) typed with
  | Finished final report => report = AIWins
  | AwaitingInput s => SticksGame.remainingSticks s mod 4 = 1
  | OutOfFuel => False
  end.
Proof.
  intros Hf Hsf.
  assert (H0 : sticks_won (SticksGame.init true)).
  { split; [apply SticksGame.reach_init |]. left. split; reflexivity. }
  pose proof (sticks_won_match fuel searchFuel (SticksGame.init true) typed H0 Hf Hsf)
    as Hsound.
  destruct (playMatch SticksGame.askInput fuel searchFuel (SticksGame.init true) typed)
    as [final report | s |]; simpl in Hsound.
  - destruct Hsound as ([Hr Hside] & Ht & ->).
    cbn [Game.isTerminal SticksGame.game] in Ht.
    unfold SticksGame.isTerminal in Ht. apply Z.leb_le in Ht.
    apply SticksFacts.sticks_reachable_wf in Hr as [_ Hrange].
    assert (E : SticksGame.remainingSticks final = 0) by lia.
    unfold reportWinner. cbn [Game.getWinner SticksGame.game].
    unfold SticksGame.getWinner. rewrite E in *. simpl.
    destruct Hside as [[_ Hmod] | [-> _]]; [discriminate | reflexivity].
  - destruct Hsound as ([_ Hside] & _ & Hp).
    cbn [Game.getCurrentPlayer SticksGame.game] in Hp.
    unfold SticksGame.getCurrentPlayer in Hp.
    destruct Hside as [[_ Hmod] | [Hai _]]; [assumption |].
    rewrite Hai in Hp. discriminate.
  - assumption.
Qed.

Lemma sticks_ai_wins_when_player_starts_witness :
  match playMatch (G := SticksGame.game) SticksGame.askInput 22 21
          (SticksGame.init true) [3; 9; 1; 2; 2; 3; 1] with
  | Finished final report => report = AIWins
  | AwaitingInput s => SticksGame.remainingSticks s mod 4 = 1
  | OutOfFuel => False
  end.
Proof.
  apply sticks_ai_wins_when_player_starts; vm_compute; lia.
Defined.

(** *** Tic-Tac-Toe: the AI does not lose *)

Lemma fold_max_le (l : list Z) :
  forall acc c, (forall x, In x l -> x <= c) ->
  fold_left (better true) l acc <= Z.max acc c.
Proof.
  induction l as [| x l IH]; intros acc c H; simpl; [lia |].
  pose proof (H x (or_introl eq_refl)).
  specialize (IH (Z.max acc x) c (fun y Hy => H y (or_intror Hy))). lia.
Qed.

Lemma fold_min_le (l : list Z) :
  forall acc x, In x l -> fold_left (better false) l acc <= x.
Proof.
  assert (Hacc : forall l acc, fold_left (better false) l acc <= acc).
  { clear. induction l as [| y l IH]; intros acc; simpl; [lia |].
    specialize (IH (Z.min acc y)). lia. }
  induction l as [| y l IH]; intros acc x Hin; [destruct Hin |].
  destruct Hin as [<- | Hin]; simpl.
  - specialize (Hacc l (Z.min acc y)). lia.
  - now apply IH.
Qed.

Lemma gameValue_terminal {St : Type} {G : Game.Interface St} (n : nat) (s : St) :
  Game.isTerminal s = true -> gameValue n s = Game.evaluate s.
Proof. intros H. destruct n; simpl; [reflexivity | now rewrite H]. Qed.

Lemma ttt_minMax_gameValue (n : nat) :
  forall s fuel depth,
    TicTacToe.wf s -> (emptyCells (TicTacToe.board s) <= n)%nat ->
    (n < fuel)%nat -> depth + Z.of_nat n < 999999 ->
    minMax (G := TicTacToe.game) fuel depth (TicTacToe.currentPlayer s =? AI) s
    = Some (gameValue (G := TicTacToe.game) n s, s).
Proof.
  induction n as [| n IH]; intros s fuel depth Hwf He Hf Hd;
    (destruct fuel as [| fuel]; [lia |]);
    rewrite minMax_unfold; unfold cutoff;
    change (maxDepth (G := TicTacToe.game)) with 999999;
    (replace (depth >=? 999999) with false
      by (symmetry; rewrite Z.geb_leb; apply Z.leb_gt; lia));
    cbn [orb].
  - assert (Hnil : TicTacToe.getAvailableMoves s = []).
    { apply length_zero_iff_nil. rewrite ttt_moves_length by apply Hwf. lia. }
    assert (Ht : Game.isTerminal (Interface := TicTacToe.game) s = true).
    { cbn [Game.isTerminal TicTacToe.game]. unfold TicTacToe.isTerminal.
      rewrite Hnil. apply orb_true_r. }
    rewrite Ht. reflexivity.
  - cbn [gameValue]. destruct (Game.isTerminal s) eqn:Ht; [reflexivity |].
    rewrite (minMax_loop_values (G := TicTacToe.game)
               (fun m => gameValue (G := TicTacToe.game) n (TicTacToe.makeMove s m)));
      [reflexivity | |].
    + intros m Hm. now apply TicTacToeFacts.ttt_undo_make.
    + intros m Hm. unfold child. cbn [Game.makeMove TicTacToe.game].
      pose proof (TicTacToeFacts.ttt_wf_makeMove s m Hwf Hm) as Hwf'.
      pose proof (TicTacToeFacts.rank_makeMove s m Hwf Hm) as Hrank.
      rewrite (switchPlayer_flag _ (proj2 Hwf)).
      replace (switchPlayer (TicTacToe.currentPlayer s))
        with (TicTacToe.currentPlayer (TicTacToe.makeMove s m))
        by (now rewrite (TicTacToeFacts.makeMove_legal s m Hm)).
      apply IH; try assumption; lia.
Qed.

Lemma ttt_value_step (s : TicTacToe.State) :
  TicTacToe.wf s -> TicTacToe.isTerminal s = false ->
  gameValue (G := TicTacToe.game) (emptyCells (TicTacToe.board s)) s
  = fold_left (better (TicTacToe.currentPlayer s =? AI))
      (map (fun m => gameValue (G := TicTacToe.game)
                       (emptyCells (TicTacToe.board (TicTacToe.makeMove s m)))
                       (TicTacToe.makeMove s m))
           (TicTacToe.getAvailableMoves s))
      (seed (TicTacToe.currentPlayer s =? AI)).
Proof.
  intros Hwf Ht.
  pose proof (TicTacToeFacts.ttt_moves_left s Ht) as Hne.
  pose proof (ttt_moves_length s (proj1 Hwf)) as Hlen.
  destruct (emptyCells (TicTacToe.board s)) as [| k] eqn:E.
  - apply length_zero_iff_nil in Hlen. contradiction.
  - cbn [gameValue]. cbn [Game.isTerminal TicTacToe.game]. rewrite Ht.
    cbn [Game.getCurrentPlayer Game.getAvailableMoves Game.makeMove TicTacToe.game].
    unfold TicTacToe.getCurrentPlayer. f_equal.
    apply map_ext_in. intros m Hm.
    pose proof (TicTacToeFacts.rank_makeMove s m Hwf Hm) as Hrank.
    rewrite E in Hrank. injection Hrank as ->. reflexivity.
Qed.

Lemma ttt_not_lost_match (fuel searchFuel : nat) (s : TicTacToe.State) (typed : list Z) :
  ttt_not_lost s -> (10 <= fuel)%nat -> (9 <= searchFuel)%nat ->
  sound_outcome (G := TicTacToe.game) ttt_not_lost
    (playMatch (G := TicTacToe.game) TicTacToe.askInput fuel searchFuel s typed).
Proof.
  intros Hs Hf Hsf.
  assert (Hle : forall s0, TicTacToe.wf s0 ->
                  (emptyCells (TicTacToe.board s0) <= 9)%nat).
  { intros s0 [Hg _]. exact (emptyCells_le 3 3 _ Hg). }
  apply (playMatch_strategy (G := TicTacToe.game) TicTacToe.askInput ttt_not_lost
           (fun s => emptyCells (TicTacToe.board s)) searchFuel).
  - intros s0 m. apply TicTacToeFacts.ttt_checkInput_spec.
  - intros s0 m [Hr Hv] Ht Hp Hm.
    pose proof (TicTacToeFacts.ttt_reachable_wf s0 Hr) as Hwf.
    pose proof (TicTacToeFacts.rank_makeMove s0 m Hwf Hm) as Hrank.
    cbn [Game.makeMove Game.getCurrentPlayer Game.isTerminal Game.getAvailableMoves
         TicTacToe.game] in *.
    unfold TicTacToe.getCurrentPlayer in Hp.
    split; [split |]; [now apply TicTacToe.reach_move | | lia].
    rewrite (ttt_value_step s0 Hwf Ht), Hp in Hv.
    change (PLAYER =? AI) with false in Hv.
    pose proof (fold_min_le _ (seed false) _
                  (in_map (fun m => gameValue (G := TicTacToe.game)
                             (emptyCells (TicTacToe.board (TicTacToe.makeMove s0 m)))
                             (TicTacToe.makeMove s0 m)) _ m Hm)) as Hmin.
    cbv beta in Hmin. lia.
  - intros s0 [Hr Hv] Ht Hp.
    pose proof (TicTacToeFacts.ttt_reachable_wf s0 Hr) as Hwf.
    cbn [Game.makeMove Game.getCurrentPlayer Game.isTerminal Game.getAvailableMoves
         TicTacToe.game] in *.
    unfold TicTacToe.getCurrentPlayer in Hp.
    assert (Hai : TicTacToe.currentPlayer s0 = AI) by (destruct Hwf as [_ [? | ?]]; tauto).
    destruct (ttt_best searchFuel s0 Hwf (TicTacToeFacts.ttt_moves_left s0 Ht))
      as (Hscore & best & pre & post & Hrun & Hin & Hsplit & Hpre & Hpost).
    { specialize (Hle s0 Hwf). lia. }
    cbn [Game.getAvailableMoves TicTacToe.game] in Hscore, Hin, Hsplit.
    assert (Hroot : forall m, In m (TicTacToe.getAvailableMoves s0) ->
              rootScore (G := TicTacToe.game) searchFuel s0 m
              = gameValue (G := TicTacToe.game)
                  (emptyCells (TicTacToe.board (TicTacToe.makeMove s0 m)))
                  (TicTacToe.makeMove s0 m)).
    { intros m Hm. specialize (Hscore m Hm).
      cbn [Game.makeMove TicTacToe.game] in Hscore.
      pose proof (TicTacToeFacts.ttt_wf_makeMove s0 m Hwf Hm) as Hwf'.
      pose proof (TicTacToeFacts.rank_makeMove s0 m Hwf Hm) as Hrank.
      pose proof (Hle s0 Hwf).
      pose proof (ttt_minMax_gameValue
                    (emptyCells (TicTacToe.board (TicTacToe.makeMove s0 m)))
                    (TicTacToe.makeMove s0 m) searchFuel 0 Hwf'
                    ltac:(lia) ltac:(lia) ltac:(lia)) as Hval.
      rewrite (TicTacToeFacts.makeMove_legal s0 m Hm) in Hval at 1.
      cbn [TicTacToe.currentPlayer] in Hval. rewrite Hai in Hval.
      change (switchPlayer AI =? AI) with false in Hval.
      rewrite Hscore in Hval. now injection Hval. }
    exists best. split; [exact Hrun |].
    pose proof (TicTacToeFacts.rank_makeMove s0 best Hwf Hin) as Hrank.
    split; [split |]; [now apply TicTacToe.reach_move | | lia].
    rewrite (ttt_value_step s0 Hwf Ht), Hai in Hv.
    change (AI =? AI) with true in Hv.
    pose proof (fold_max_le
                  (map (fun m => gameValue (G := TicTacToe.game)
                          (emptyCells (TicTacToe.board (TicTacToe.makeMove s0 m)))
                          (TicTacToe.makeMove s0 m))
                       (TicTacToe.getAvailableMoves s0))
                  (seed true)
                  (gameValue (G := TicTacToe.game)
                     (emptyCells (TicTacToe.board (TicTacToe.makeMove s0 best)))
                     (TicTacToe.makeMove s0 best))) as Hmax.
    assert (Hall : forall x,
              In x (map (fun m => gameValue (G := TicTacToe.game)
                           (emptyCells (TicTacToe.board (TicTacToe.makeMove s0 m)))
                           (TicTacToe.makeMove s0 m))
                        (TicTacToe.getAvailableMoves s0)) ->
              x <= gameValue (G := TicTacToe.game)
                     (emptyCells (TicTacToe.board (TicTacToe.makeMove s0 best)))
                     (TicTacToe.makeMove s0 best)).
    { intros x Hx. apply in_map_iff in Hx as (m & <- & Hm).
      rewrite <- (Hroot m Hm), <- (Hroot best Hin).
      rewrite Hsplit in Hm. apply in_app_or in Hm as [Hm | [<- | Hm]].
      - specialize (Hpre m Hm). lia.
      - lia.
      - now apply Hpost. }
    specialize (Hmax Hall). unfold seed, INT_MIN in Hmax, Hv. lia.
  - assumption.
  - destruct Hs as [Hr _]. apply TicTacToeFacts.ttt_reachable_wf in Hr.
    specialize (Hle s Hr). lia.
Qed.

Lemma ttt_fresh_not_lost (userIsStarting : bool) :
  ttt_not_lost (TicTacToe.init userIsStarting).
Proof.
  split; [apply TicTacToe.reach_init |].
  destruct userIsStarting; vm_compute; discriminate.
Qed.

(** X17: the AI does not lose at Tic-Tac-Toe.  Whoever starts and whatever
    the player types (the integers typed decide which legal moves the player
    makes), a match that ends is never reported as "You win": [getWinner()]
    of the final state is not PLAYER. *)
Theorem tictactoe_ai_never_loses
  (fuel searchFuel : nat) (userIsStarting : bool) (typed : list Z)
  (final : TicTacToe.State) (report : Report) :
  (10 <= fuel)%nat -> (9 <= searchFuel)%nat ->
  playMatch (G := TicTacToe.game) TicTacToe.askInput fuel searchFuel
    (TicTacToe.init userIsStarting) typed
  = Finished final report ->
  report <> YouWin /\ TicTacToe.getWinner final <> PLAYER.
Proof.
  intros Hf Hsf Hrun.
  pose proof (ttt_not_lost_match fuel searchFuel (TicTacToe.init userIsStarting) typed
                (ttt_fresh_not_lost userIsStarting) Hf Hsf) as Hsound.
  rewrite Hrun in Hsound. destruct Hsound as ([Hr Hv] & Ht & ->).
  rewrite (gameValue_terminal _ final Ht) in Hv.
  cbn [Game.evaluate TicTacToe.game] in Hv.
  unfold reportWinner. cbn [Game.getWinner TicTacToe.game].
  unfold TicTacToe.evaluate in Hv.
  destruct (Z.eqb_spec (TicTacToe.getWinner final) AI) as [E | _].
  - rewrite E. split; discriminate.
  - destruct (Z.eqb_spec (TicTacToe.getWinner final) PLAYER) as [E | Hne]; [lia |].
    split; [| assumption].
    destruct (TicTacToe.getWinner final =? AI); discriminate.
Qed.

Lemma tictactoe_ai_never_loses_witness :
  AIWins <> YouWin
  /\ TicTacToe.getWinner
       (TicTacToe.mkState [[1; 1; -1]; [1; -1; 0]; [-1; 0; 0]] PLAYER) <> PLAYER.
Proof.
  apply (tictactoe_ai_never_loses 10 9 true [1; 2; 3; 4]
           (TicTacToe.mkState [[1; 1; -1]; [1; -1; 0]; [-1; 0; 0]] PLAYER) AIWins);
    [lia | lia | vm_compute; reflexivity].
Defined.

(** ** What is displayed *)

Lemma append_assoc (a b c : String.string) :
  String.append (String.append a b) c = String.append a (String.append b c).
Proof. induction a as [| x a IH]; simpl; [reflexivity | now rewrite IH]. Qed.

Lemma countChar_append (c : Ascii.ascii) (a b : String.string) :
  countChar c (String.append a b) = (countChar c a + countChar c b)%nat.
Proof. induction a as [| x a IH]; simpl; [reflexivity | rewrite IH; lia]. Qed.

Lemma showCell_inj (c1 c2 : Z) (out1 out2 : String.string) :
  marker c1 -> marker c2 ->
  String.append (showCell c1) out1 = String.append (showCell c2) out2 ->
  c1 = c2 /\ out1 = out2.
Proof.
  intros [-> | [-> | ->]] [-> | [-> | ->]]; cbn; intros H;
    solve [discriminate H | injection H as ->; split; reflexivity].
Qed.

Lemma showCells_inj (r1 : list Z) :
  forall r2 out1 out2,
    Forall marker r1 -> Forall marker r2 -> length r1 = length r2 ->
    String.append (printEach showCell r1) out1
    = String.append (printEach showCell r2) out2 ->
    r1 = r2 /\ out1 = out2.
Proof.
  induction r1 as [| c1 r1 IH]; intros [| c2 r2] out1 out2 H1 H2 Hlen H;
    try discriminate Hlen.
  - split; [reflexivity | exact H].
  - apply Forall_cons in H1 as [Hc1 H1]. apply Forall_cons in H2 as [Hc2 H2].
    cbn [printEach fold_right] in H. fold (printEach showCell r1) in H.
    fold (printEach showCell r2) in H. rewrite !append_assoc in H.
    apply showCell_inj in H as [-> H]; try assumption.
    apply IH in H as [-> ->]; try assumption; [split; reflexivity |].
    now injection Hlen.
Qed.

Lemma showRows_inj (w : nat) (b1 : list (list Z)) :
  forall h b2 out1 out2,
    grid h w b1 -> grid h w b2 ->
    String.append (showRows b1) out1 = String.append (showRows b2) out2 ->
    b1 = b2 /\ out1 = out2.
Proof.
  induction b1 as [| r1 b1 IH]; intros h [| r2 b2] out1 out2 [Hl1 H1] [Hl2 H2] H;
    try (simpl in Hl1, Hl2; lia).
  - split; [reflexivity | exact H].
  - apply Forall_cons in H1 as [[Hw1 Hm1] H1]. apply Forall_cons in H2 as [[Hw2 Hm2] H2].
    unfold showRows in H. cbn [printEach fold_right] in H.
    fold (printEach showRow b1) in H. fold (printEach showRow b2) in H.
    fold (showRows b1) in H. fold (showRows b2) in H.
    unfold showRow in H. rewrite !append_assoc in H.
    apply showCells_inj in H as [-> H]; try assumption; [| lia].
    cbn in H. injection H as H.
    simpl in Hl1, Hl2.
    apply (IH (pred h)) in H as [-> ->]; [split; reflexivity | |];
      (split; [lia | assumption]).
Qed.

Lemma countChar_uint (c : Ascii.ascii) (d : Decimal.uint) :
  c = "|"%char -> countChar c (DecimalString.NilEmpty.string_of_uint d) = O.
Proof. intros ->. induction d; simpl; assumption || reflexivity. Qed.

Lemma countChar_showInt (n : Z) : countChar "|"%char (showInt n) = O.
Proof.
  unfold showInt, DecimalString.NilZero.string_of_int.
  destruct (Z.to_int n) as [d | d].
  - unfold DecimalString.NilZero.string_of_uint.
    destruct d; try reflexivity; now apply countChar_uint.
  - unfold DecimalString.NilZero.string_of_uint.
    destruct d; try reflexivity; cbn [countChar]; now rewrite countChar_uint.
Qed.

Lemma countChar_bars (l : list Z) :
  countChar "|"%char (printEach (fun _ => "| "%string) l) = length l.
Proof. induction l as [| x l IH]; simpl; [reflexivity | now rewrite IH]. Qed.

(** X18: what [display()] shows determines the position.  Two Tic-Tac-Toe
    boards (3 x 3, markers only) with the same display are the same board,
    and so are two Connect 4 boards (6 x 7); the display of the sticks game
    holds as many bars as there are sticks left (none for a negative
    count). *)
Theorem display_shows_the_position :
  (forall s1 s2 : TicTacToe.State,
     grid 3 3 (TicTacToe.board s1) -> grid 3 3 (TicTacToe.board s2) ->
     TicTacToe.display s1 = TicTacToe.display s2 ->
     TicTacToe.board s1 = TicTacToe.board s2)
  /\ (forall s1 s2 : Connect4.State,
        grid 6 7 (Connect4.board s1) -> grid 6 7 (Connect4.board s2) ->
        Connect4.display s1 = Connect4.display s2 ->
        Connect4.board s1 = Connect4.board s2)
  /\ (forall s : SticksGame.State,
        countChar "|"%char (SticksGame.display s)
        = Z.to_nat (SticksGame.remainingSticks s)).
Proof.
  split; [| split].
  - intros s1 s2 H1 H2 H. unfold TicTacToe.display in H.
    now apply (showRows_inj 3 _ 3%nat _ _ _ H1 H2) in H as [H _].
  - intros s1 s2 H1 H2 H. unfold Connect4.display in H.
    now apply (showRows_inj 7 _ 6%nat _ _ _ H1 H2) in H as [H _].
  - intros s. unfold SticksGame.display.
    rewrite !countChar_append, countChar_showInt, countChar_bars.
    unfold range. rewrite length_map, length_seq.
    change (countChar "|"%char "Remaining sticks: "%string) with O.
    change (countChar "|"%char newline) with O. lia.
Qed.

Lemma display_shows_the_position_witness :
  TicTacToe.board (TicTacToe.init true) = TicTacToe.board (TicTacToe.init false).
Proof.
  apply (proj1 display_shows_the_position);
    [exact (proj1 (TicTacToeFacts.ttt_wf_init true))
    | exact (proj1 (TicTacToeFacts.ttt_wf_init false))
    | reflexivity].
Defined.

(** ** The search against the pure minimax recursion *)

Lemma c4_side_after_move (s : Connect4.State) (m : Z) :
  In m (Connect4.getAvailableMoves s) ->
  Connect4.currentPlayer (Connect4.makeMove s m)
  = switchPlayer (Connect4.currentPlayer s).
Proof.
  intros Hm. destruct (Connect4Facts.dropRow_legal s m Hm) as [row Hrow].
  now rewrite (Connect4Facts.makeMove_at s m row Hrow).
Qed.

Lemma c4_minMax_gameValue (n : nat) :
  forall s fuel depth,
    Connect4.wf s -> depth + Z.of_nat n = 6 -> (n < fuel)%nat ->
    minMax (G := Connect4.game) fuel depth (Connect4.currentPlayer s =? AI) s
    = Some (gameValue (G := Connect4.game) n s, s).
Proof.
  induction n as [| n IH]; intros s fuel depth Hwf Hd Hf;
    (destruct fuel as [| fuel]; [lia |]);
    rewrite minMax_unfold; unfold cutoff;
    change (maxDepth (G := Connect4.game)) with 6.
  - replace (depth >=? 6) with true
      by (symmetry; rewrite Z.geb_leb; apply Z.leb_le; lia).
    reflexivity.
  - replace (depth >=? 6) with false
      by (symmetry; rewrite Z.geb_leb; apply Z.leb_gt; lia).
    cbn [orb gameValue]. destruct (Game.isTerminal s) eqn:Ht; [reflexivity |].
    rewrite (minMax_loop_values (G := Connect4.game)
               (fun m => gameValue (G := Connect4.game) n (Connect4.makeMove s m)));
      [reflexivity | |].
    + intros m Hm. now apply Connect4Facts.c4_undo_make.
    + intros m Hm. unfold child. cbn [Game.makeMove Connect4.game].
      pose proof (Connect4Facts.c4_wf_makeMove s m Hwf Hm) as Hwf'.
      rewrite (switchPlayer_flag _ (proj2 (proj2 Hwf))).
      rewrite <- (c4_side_after_move s m Hm).
      apply IH; try assumption; lia.
Qed.

Lemma sticks_minMax_gameValue (n : nat) :
  forall s fuel depth,
    SticksGame.wf s -> (Z.to_nat (SticksGame.remainingSticks s) <= n)%nat ->
    (n < fuel)%nat -> depth + Z.of_nat n < 999999 ->
    minMax (G := SticksGame.game) fuel depth (SticksGame.currentPlayer s =? AI) s
    = Some (gameValue (G := SticksGame.game) n s, s).
Proof.
  induction n as [| n IH]; intros s fuel depth Hwf He Hf Hd;
    (destruct fuel as [| fuel]; [lia |]);
    rewrite minMax_unfold; unfold cutoff;
    change (maxDepth (G := SticksGame.game)) with 999999;
    (replace (depth >=? 999999) with false
      by (symmetry; rewrite Z.geb_leb; apply Z.leb_gt; lia));
    cbn [orb].
  - assert (Ht : Game.isTerminal (Interface := SticksGame.game) s = true).
    { cbn [Game.isTerminal SticksGame.game]. unfold SticksGame.isTerminal.
      apply Z.leb_le. lia. }
    rewrite Ht. reflexivity.
  - cbn [gameValue]. destruct (Game.isTerminal s) eqn:Ht; [reflexivity |].
    rewrite (minMax_loop_values (G := SticksGame.game)
               (fun m => gameValue (G := SticksGame.game) n (SticksGame.makeMove s m)));
      [reflexivity | |].
    + intros m Hm. now apply SticksFacts.sticks_undo_make.
    + intros m Hm. unfold child. cbn [Game.makeMove SticksGame.game].
      pose proof (SticksFacts.sticks_wf_makeMove s m Hwf Hm) as Hwf'.
      pose proof (sticks_rank s m Hwf Hm) as Hrank.
      rewrite (switchPlayer_flag _ (proj1 Hwf)).
      change (switchPlayer (SticksGame.currentPlayer s))
        with (SticksGame.currentPlayer (SticksGame.makeMove s m)).
      apply IH; try assumption; lia.
Qed.

(** X19: the search, which mutates one game object and restores it, computes
    the pure minimax recursion [gameValue] (maximum over the moves when the
    AI is to move, minimum when the player is, [evaluate()] at a terminal
    state or at the horizon).  In a reachable state, with [isMaximizing] set
    when the AI is to move, [minMax] returns the value with an unbounded
    horizon in Tic-Tac-Toe and the sticks game (any horizon of at least the
    number of empty cells, resp. sticks) and the value with horizon
    [6 - depth] in Connect 4, and leaves the game as it found it. *)
Theorem search_is_minimax :
  (forall n fuel depth s,
     TicTacToe.reachable s -> (emptyCells (TicTacToe.board s) <= n)%nat ->
     (n < fuel)%nat -> depth + Z.of_nat n < 999999 ->
     minMax (G := TicTacToe.game) fuel depth (TicTacToe.currentPlayer s =? AI) s
     = Some (gameValue (G := TicTacToe.game) n s, s))
  /\ (forall n fuel depth s,
        Connect4.reachable s -> depth + Z.of_nat n = 6 -> (n < fuel)%nat ->
        minMax (G := Connect4.game) fuel depth (Connect4.currentPlayer s =? AI) s
        = Some (gameValue (G := Connect4.game) n s, s))
  /\ (forall n fuel depth s,
        SticksGame.reachable s ->
        (Z.to_nat (SticksGame.remainingSticks s) <= n)%nat ->
        (n < fuel)%nat -> depth + Z.of_nat n < 999999 ->
        minMax (G := SticksGame.game) fuel depth (SticksGame.currentPlayer s =? AI) s
        = Some (gameValue (G := SticksGame.game) n s, s)).
Proof.
  split; [| split].
  - intros n fuel depth s Hr. apply ttt_minMax_gameValue.
    now apply TicTacToeFacts.ttt_reachable_wf.
  - intros n fuel depth s Hr. apply c4_minMax_gameValue.
    now apply Connect4Facts.c4_reachable_wf.
  - intros n fuel depth s Hr. apply sticks_minMax_gameValue.
    now apply SticksFacts.sticks_reachable_wf.
Qed.

Lemma search_is_minimax_witness :
  minMax (G := Connect4.game) 7 0 (Connect4.currentPlayer (Connect4.init true) =? AI)
    (Connect4.init true)
  = Some (gameValue (G := Connect4.game) 6 (Connect4.init true), Connect4.init true).
Proof.
  apply (proj1 (proj2 search_is_minimax) 6%nat 7%nat 0 (Connect4.init true));
    [apply Connect4.reach_init | reflexivity | lia].
Defined.

Section BestByValue.
Context {St : Type} {G : Game.Interface St}.

Lemma getBestMove_by_value (value : St -> Z) (fuel : nat) (s : St) :
  getBestMove_spec fuel s ->
  (forall m, In m (Game.getAvailableMoves s) ->
     minMax fuel 0 false (Game.makeMove s m)
     = Some (value (Game.makeMove s m), Game.makeMove s m)) ->
  exists best pre post,
    getBestMove fuel s = Some (best, s)
    /\ Game.getAvailableMoves s = pre ++ best :: post
    /\ (forall m, In m pre ->
          value (Game.makeMove s m) < value (Game.makeMove s best))
    /\ (forall m, In m post ->
          value (Game.makeMove s m) <= value (Game.makeMove s best)).
Proof.
  intros (_ & best & pre & post & Hrun & Hin & Hsplit & Hpre & Hpost) Hval.
  assert (Hroot : forall m, In m (Game.getAvailableMoves s) ->
            rootScore fuel s m = value (Game.makeMove s m)).
  { intros m Hm. unfold rootScore. now rewrite (Hval m Hm). }
  exists best, pre, post. split; [exact Hrun |]. split; [exact Hsplit |].
  split; intros m Hm.
  - rewrite <- (Hroot m), <- (Hroot best Hin); [now apply Hpre |].
    rewrite Hsplit. apply in_or_app. now left.
  - rewrite <- (Hroot m), <- (Hroot best Hin); [now apply Hpost |].
    rewrite Hsplit. apply in_or_app. right. now right.
Qed.

End BestByValue.

(** X20: the move of the AI.  In a reachable state that is not terminal, with
    the AI to move, [getBestMove] returns the first of the available moves
    whose resulting position has the greatest minimax value [gameValue] for
    the player's reply: with an unbounded horizon in Tic-Tac-Toe (8 plies
    cover what is left of the board) and the sticks game (20 plies), and with
    a horizon of 6 plies in Connect 4. *)
Theorem getBestMove_maximises_the_value :
  (forall fuel s,
     TicTacToe.reachable s -> TicTacToe.currentPlayer s = AI ->
     TicTacToe.isTerminal s = false -> (9 <= fuel)%nat ->
     exists best pre post,
       getBestMove (G := TicTacToe.game) fuel s = Some (best, s)
       /\ TicTacToe.getAvailableMoves s = pre ++ best :: post
       /\ (forall m, In m pre ->
             gameValue (G := TicTacToe.game) 8 (TicTacToe.makeMove s m)
             < gameValue (G := TicTacToe.game) 8 (TicTacToe.makeMove s best))
       /\ (forall m, In m post ->
             gameValue (G := TicTacToe.game) 8 (TicTacToe.makeMove s m)
             <= gameValue (G := TicTacToe.game) 8 (TicTacToe.makeMove s best)))
  /\ (forall fuel s,
        Connect4.reachable s -> Connect4.currentPlayer s = AI ->
        Connect4.isTerminal s = false -> (7 <= fuel)%nat ->
        exists best pre post,
          getBestMove (G := Connect4.game) fuel s = Some (best, s)
          /\ Connect4.getAvailableMoves s = pre ++ best :: post
          /\ (forall m, In m pre ->
                gameValue (G := Connect4.game) 6 (Connect4.makeMove s m)
                < gameValue (G := Connect4.game) 6 (Connect4.makeMove s best))
          /\ (forall m, In m post ->
                gameValue (G := Connect4.game) 6 (Connect4.makeMove s m)
                <= gameValue (G := Connect4.game) 6 (Connect4.makeMove s best)))
  /\ (forall fuel s,
        SticksGame.reachable s -> SticksGame.currentPlayer s = AI ->
        SticksGame.isTerminal s = false -> (21 <= fuel)%nat ->
        exists best pre post,
          getBestMove (G := SticksGame.game) fuel s = Some (best, s)
          /\ SticksGame.getAvailableMoves s = pre ++ best :: post
          /\ (forall m, In m pre ->
                gameValue (G := SticksGame.game) 20 (SticksGame.makeMove s m)
                < gameValue (G := SticksGame.game) 20 (SticksGame.makeMove s best))
          /\ (forall m, In m post ->
                gameValue (G := SticksGame.game) 20 (SticksGame.makeMove s m)
                <= gameValue (G := SticksGame.game) 20 (SticksGame.makeMove s best))).
Proof.
  split; [| split].
  - intros fuel s Hr Hai Ht Hf.
    pose proof (TicTacToeFacts.ttt_reachable_wf s Hr) as Hwf.
    pose proof (emptyCells_le 3 3 _ (proj1 Hwf)) as Hle.
    apply (getBestMove_by_value (G := TicTacToe.game)
             (gameValue (G := TicTacToe.game) 8)).
    + apply ttt_best; [assumption | now apply TicTacToeFacts.ttt_moves_left | lia].
    + intros m Hm. cbn [Game.makeMove Game.getAvailableMoves TicTacToe.game] in *.
      pose proof (TicTacToeFacts.ttt_wf_makeMove s m Hwf Hm) as Hwf'.
      pose proof (TicTacToeFacts.rank_makeMove s m Hwf Hm) as Hrank.
      pose proof (ttt_minMax_gameValue 8 (TicTacToe.makeMove s m) fuel 0 Hwf'
                    ltac:(lia) ltac:(lia) ltac:(lia)) as Hval.
      rewrite (TicTacToeFacts.makeMove_legal s m Hm) in Hval at 1.
      cbn [TicTacToe.currentPlayer] in Hval. rewrite Hai in Hval.
      exact Hval.
  - intros fuel s Hr Hai Ht Hf.
    pose proof (Connect4Facts.c4_reachable_wf s Hr) as Hwf.
    apply (getBestMove_by_value (G := Connect4.game)
             (gameValue (G := Connect4.game) 6)).
    + apply c4_best; [assumption | now apply Connect4Facts.c4_moves_left | lia].
    + intros m Hm. cbn [Game.makeMove Game.getAvailableMoves Connect4.game] in *.
      pose proof (Connect4Facts.c4_wf_makeMove s m Hwf Hm) as Hwf'.
      pose proof (c4_minMax_gameValue 6 (Connect4.makeMove s m) fuel 0 Hwf'
                    ltac:(lia) ltac:(lia)) as Hval.
      rewrite (c4_side_after_move s m Hm), Hai in Hval.
      exact Hval.
  - intros fuel s Hr Hai Ht Hf.
    pose proof (SticksFacts.sticks_reachable_wf s Hr) as Hwf.
    pose proof Hwf as [_ Hrange]. unfold SticksGame.STICKS_NUMBER in Hrange.
    apply (getBestMove_by_value (G := SticksGame.game)
             (gameValue (G := SticksGame.game) 20)).
    + apply sticks_best; [assumption | now apply sticks_moves_left | lia].
    + intros m Hm. cbn [Game.makeMove Game.getAvailableMoves SticksGame.game] in *.
      pose proof (SticksFacts.sticks_wf_makeMove s m Hwf Hm) as Hwf'.
      pose proof (sticks_rank s m Hwf Hm) as Hrank.
      pose proof (sticks_minMax_gameValue 20 (SticksGame.makeMove s m) fuel 0 Hwf'
                    ltac:(lia) ltac:(lia) ltac:(lia)) as Hval.
      cbn [SticksGame.makeMove SticksGame.currentPlayer] in Hval.
      rewrite Hai in Hval. exact Hval.
Qed.

Lemma getBestMove_maximises_the_value_witness :
  exists best pre post,
    getBestMove (G := Connect4.game) 7 (Connect4.init false)
    = Some (best, Connect4.init false)
    /\ Connect4.getAvailableMoves (Connect4.init false) = pre ++ best :: post
    /\ (forall m, In m pre ->
          gameValue (G := Connect4.game) 6 (Connect4.makeMove (Connect4.init false) m)
          < gameValue (G := Connect4.game) 6 (Connect4.makeMove (Connect4.init false) best))
    /\ (forall m, In m post ->
          gameValue (G := Connect4.game) 6 (Connect4.makeMove (Connect4.init false) m)
          <= gameValue (G := Connect4.game) 6 (Connect4.makeMove (Connect4.init false) best)).
Proof.
  apply (proj1 (proj2 getBestMove_maximises_the_value) 7%nat (Connect4.init false));
    [apply Connect4.reach_init | reflexivity | reflexivity | lia].
Defined.
